(** * transcriptor-lib: the chunking and orchestration engine

    A shallow embedding of [transcriptor/audio.py] (class [AudioProcessor])
    and [transcriptor/core.py] (class [Transcriptor]).

    - The file system, the temporary-file generator, [ffprobe], [ffmpeg],
      the Groq endpoint and [urlretrieve] live outside the program.  They
      are modelled by a [World] (what exists on disk, how many calls were
      made, the log of external calls) and an [Env] of oracles answering the
      n-th call of each kind.
    - Python code that raises is a computation in the state-and-exception
      monad [M]; [try/finally] and [try/except] are combinators on it.
    - Durations are Python floats obtained from [float(stdout)].  They are
      modelled by exact rationals [Q]: every finite float is a rational, and
      the single rounding step of the source (the quotient inside
      [math.ceil]) is taken exact.  Chunk lengths, overlaps, byte sizes and
      HTTP status codes are Python ints, modelled by [Z] and [N]. *)

From Stdlib Require Import ZArith QArith Qround Qminmax Lqa Lia.
From Stdlib Require Import String Ascii DecimalString List.
From stdpp Require Import gmap strings list.

Local Open Scope string_scope.

(** ** Python string helpers *)

Module PyStr.

Definition nl : string := String "010"%char EmptyString.

(** [sep.join(l)] *)
Fixpoint join (sep : string) (l : list string) : string :=
  match l with
  | [] => ""
  | [x] => x
  | x :: rest => x +:+ sep +:+ join sep rest
  end.

(** [str(n)] for a Python int. *)
Definition str_of_Z (z : Z) : string :=
  NilZero.string_of_int (Z.to_int z).

Definition lower_ascii (c : ascii) : ascii :=
  let n := nat_of_ascii c in
  if (65 <=? n)%nat && (n <=? 90)%nat then ascii_of_nat (n + 32) else c.

(** [s.lower()], on the ASCII range. *)
Fixpoint lower (s : string) : string :=
  match s with
  | EmptyString => EmptyString
  | String c r => String (lower_ascii c) (lower r)
  end.

Definition is_space (c : ascii) : bool :=
  let n := nat_of_ascii c in
  ((9 <=? n)%nat && (n <=? 13)%nat) || (n =? 32)%nat
  || ((28 <=? n)%nat && (n <=? 31)%nat).

Fixpoint lstrip (s : string) : string :=
  match s with
  | String c r => if is_space c then lstrip r else s
  | EmptyString => EmptyString
  end.

Fixpoint rev_string (s acc : string) : string :=
  match s with
  | EmptyString => acc
  | String c r => rev_string r (String c acc)
  end.

(** [s.strip()], on the ASCII range. *)
Definition strip (s : string) : string :=
  rev_string (lstrip (rev_string (lstrip s) "")) "".

(** [s.rfind(c)]: index of the last occurrence, [None] for -1. *)
Fixpoint rfind (c : ascii) (s : string) : option nat :=
  match s with
  | EmptyString => None
  | String d r =>
      match rfind c r with
      | Some i => Some (S i)
      | None => if Ascii.eqb c d then Some 0%nat else None
      end
  end.

(** [s[i:]] *)
Fixpoint drop (i : nat) (s : string) : string :=
  match i, s with
  | O, _ => s
  | S j, String _ r => drop j r
  | S _, EmptyString => EmptyString
  end.

End PyStr.

(** ** Paths

    A path is either one the caller passed in, or the name of the n-th file
    made by [tempfile.NamedTemporaryFile(delete=False, suffix=...)] during
    the run.  [NamedTemporaryFile] opens its file exclusively, so such a
    name never denotes a file that existed before. *)

Inductive path : Type :=
  | UserPath (s : string)
  | TmpPath (n : nat) (suffix : string).

Global Instance path_eq_dec : EqDecision path.
Proof. solve_decision. Defined.

Global Instance path_countable : Countable path.
Proof.
  refine (inj_countable'
            (fun p => match p with
                      | UserPath s => inl s
                      | TmpPath n suf => inr (n, suf)
                      end)
            (fun x => match x with
                      | inl s => UserPath s
                      | inr (n, suf) => TmpPath n suf
                      end) _).
  intros []; reflexivity.
Defined.

Module PurePath.

(** The last component of a path string. *)
Definition basename (s : string) : string :=
  match PyStr.rfind "/"%char s with
  | Some i => PyStr.drop (S i) s
  | None => s
  end.

(** [PurePath.name] *)
Definition name (p : path) : string :=
  match p with
  | UserPath s => basename s
  | TmpPath n suf => "tmp" +:+ PyStr.str_of_Z (Z.of_nat n) +:+ suf
  end.

(** The final extension of a file name, with its dot; empty when the
    last dot is the first or the last character of the name. *)
Definition name_suffix (nm : string) : string :=
  match PyStr.rfind "."%char nm with
  | Some i =>
      if (0 <? i)%nat && (i <? String.length nm - 1)%nat
      then PyStr.drop i nm else ""
  | None => ""
  end.

(** [PurePath.suffix].  The generated part of a temporary name is not empty
    and holds no dot, so the extension of a temporary name is that of any
    dot-free stem followed by the requested suffix. *)
Definition suffix (p : path) : string :=
  match p with
  | UserPath s => name_suffix (basename s)
  | TmpPath _ suf => name_suffix ("tmp" +:+ suf)
  end.

End PurePath.


(** ** The world outside the program *)

(** How a [subprocess.run(cmd, capture_output=True, check=True)] ends. *)
Inductive ProcOutcome : Type :=
  | ProcOk (out_size : N)
      (* exit status 0; the output file holds [out_size] bytes *)
  | ProcFailed (stderr : string)
      (* non-zero exit status: [subprocess.CalledProcessError] *)
  | ProcMissing.
      (* the binary cannot be started: [FileNotFoundError] *)

(** The two [ffmpeg] command lines the engine builds. *)
Inductive FfmpegCmd : Type :=
  | CmdExtract (input output : path)
      (* -i input -vn -acodec pcm_s16le -ar 16000 -ac 1 -y output *)
  | CmdSegment (input : path) (ss : Z) (t : Q) (output : path).
      (* -i input -ss ss -t t -acodec copy -y output *)

(** One entry of [segments] in a verbose response. *)
Record Segment : Type := mkSegment {
  seg_start : option Q;
  seg_end : option Q;
  seg_text : option string
}.

(** The decoded JSON body of a response, as far as the client reads it. *)
Record Json : Type := mkJson {
  json_text : option string;
  json_segments : option (list Segment)
}.

(** A [requests.Response]: [status_code], [text] (the raw body) and what
    [json()] decodes ([None] when the body is not JSON). *)
Record Response : Type := mkResponse {
  status_code : Z;
  resp_text : string;
  resp_json : option Json
}.

(** The multipart upload of [_call_api]. *)
Record Request : Type := mkRequest {
  req_file : path;
  req_filename : string;
  req_model : string;
  req_response_format : string;
  req_language : option string;
  req_prompt : option string;
  req_authorization : string
}.

Inductive PostOutcome : Type :=
  | Responded (r : Response)
  | PostRaised (msg : string).
      (* [requests.post] raised: timeout, connection error *)

(** Everything the run does to the outside, in order. *)
Inductive Event : Type :=
  | EvTemp (p : path)
  | EvRemove (p : path)
  | EvProbe (p : path) (r : option Q)
  | EvFfmpeg (cmd : FfmpegCmd) (r : ProcOutcome)
  | EvPost (req : Request) (r : PostOutcome)
  | EvDownload (url : string) (p : path) (r : option N).

(** The oracles: the answer to the n-th call of each kind. *)
Record Env : Type := mkEnv {
  ffprobe : nat -> path -> option Q;
    (* [float(stdout)] of ffprobe, [None] when the process or the parse fails *)
  ffmpeg : nat -> FfmpegCmd -> ProcOutcome;
  groq : nat -> Request -> PostOutcome;
  urlretrieve : nat -> string -> option N
    (* size of the downloaded body, [None] when the download raises *)
}.

Record World : Type := mkWorld {
  fs : gmap path N;        (* the files that exist, with their size in bytes *)
  temps : nat;             (* temporary files made so far *)
  probes : nat;            (* ffprobe runs so far *)
  ffmpegs : nat;           (* ffmpeg runs so far *)
  posts : nat;             (* HTTP requests so far *)
  downloads : nat;         (* downloads so far *)
  log : list Event         (* oldest first *)
}.

(** ** Exceptions and the monad *)

Inductive PyExn : Type :=
  | FileNotFoundError (msg : string)
  | CalledProcessError (stderr : string)
  | ValueError (msg : string)
  | ZeroDivisionError
  | RequestException (msg : string)
  | JSONDecodeError
  | URLError
  | Exception (msg : string).

Inductive Result (A : Type) : Type :=
  | Ok (a : A)
  | Raise (e : PyExn).
Arguments Ok {A} a.
Arguments Raise {A} e.

Definition M (A : Type) : Type := World -> Result A * World.

Definition ret {A} (a : A) : M A := fun w => (Ok a, w).

Definition bind {A B} (m : M A) (k : A -> M B) : M B :=
  fun w => match m w with
           | (Ok a, w') => k a w'
           | (Raise e, w') => (Raise e, w')
           end.

Definition raise {A} (e : PyExn) : M A := fun w => (Raise e, w).

Declare Scope py_scope.
Delimit Scope py_scope with py.
Notation "x <- m ;; k" := (bind m (fun x => k))
  (at level 100, m at next level, right associativity) : py_scope.
Notation "m ;;; k" := (bind m (fun _ => k))
  (at level 100, right associativity) : py_scope.
Local Open Scope py_scope.

(** [try: body finally: cleanup] *)
Definition try_finally {A} (body : M A) (cleanup : M unit) : M A :=
  fun w => match body w with
           | (r, w') =>
               match cleanup w' with
               | (Ok _, w'') => (r, w'')
               | (Raise e, w'') => (Raise e, w'')
               end
           end.

(** [try: body except <handles>: handler(e)]; other exceptions pass. *)
Definition try_except {A} (body : M A) (handles : PyExn -> bool)
    (handler : PyExn -> M A) : M A :=
  fun w => match body w with
           | (Ok a, w') => (Ok a, w')
           | (Raise e, w') => if handles e then handler e w' else (Raise e, w')
           end.

Definition emit (ev : Event) (w : World) : World :=
  mkWorld (fs w) (temps w) (probes w) (ffmpegs w) (posts w) (downloads w)
          (log w ++ [ev]).

Definition set_fs (f : gmap path N) (w : World) : World :=
  mkWorld f (temps w) (probes w) (ffmpegs w) (posts w) (downloads w) (log w).

(** ** File-system primitives *)

Module os.

(** [os.path.exists(p)] *)
Definition exists_ (p : path) : M bool :=
  fun w => (Ok (bool_decide (is_Some (fs w !! p))), w).

(** [os.remove(p)] *)
Definition remove (p : path) : M unit :=
  fun w => match fs w !! p with
           | Some _ => (Ok tt, emit (EvRemove p) (set_fs (delete p (fs w)) w))
           | None => (Raise (FileNotFoundError (PurePath.name p)), w)
           end.

(** [os.path.getsize(p)] *)
Definition getsize (p : path) : M N :=
  fun w => match fs w !! p with
           | Some n => (Ok n, w)
           | None => (Raise (FileNotFoundError (PurePath.name p)), w)
           end.

(** [if os.path.exists(p): os.remove(p)] *)
Definition remove_if_exists (p : path) : M unit :=
  ex <- exists_ p ;;
  if ex then remove p else ret tt.

End os.

Module tempfile.

(** [tempfile.NamedTemporaryFile(delete=False, suffix=suffix)], closed:
    a new empty file whose name is returned. *)
Definition NamedTemporaryFile (suffix : string) : M path :=
  fun w =>
    let p := TmpPath (temps w) suffix in
    (Ok p,
     mkWorld (<[p := 0%N]> (fs w)) (S (temps w)) (probes w) (ffmpegs w)
             (posts w) (downloads w) (log w ++ [EvTemp p])).

(** [tmp.write(data)] on the still-open temporary file. *)
Definition write (p : path) (size : N) : M unit :=
  fun w => (Ok tt, set_fs (<[p := (default 0%N (fs w !! p) + size)%N]> (fs w)) w).

End tempfile.

Module subprocess.

(** [subprocess.run(['ffmpeg', ...], capture_output=True, check=True)]:
    on exit status 0 the output file is (over)written; a non-zero exit
    status raises [CalledProcessError], a missing binary
    [FileNotFoundError]. *)
Definition run_ffmpeg (env : Env) (cmd : FfmpegCmd) : M unit :=
  fun w =>
    let r := ffmpeg env (ffmpegs w) cmd in
    let out := match cmd with
               | CmdExtract _ o => o
               | CmdSegment _ _ _ o => o
               end in
    let f := match r with
             | ProcOk n => <[out := n]> (fs w)
             | _ => fs w
             end in
    (match r with
     | ProcOk _ => Ok tt
     | ProcFailed stderr => Raise (CalledProcessError stderr)
     | ProcMissing => Raise (FileNotFoundError "ffmpeg")
     end,
     mkWorld f (temps w) (probes w) (S (ffmpegs w)) (posts w) (downloads w)
             (log w ++ [EvFfmpeg cmd r])).

(** [except subprocess.CalledProcessError as e] and [e.stderr.decode()] *)
Definition is_CalledProcessError (e : PyExn) : bool :=
  match e with
  | CalledProcessError _ => true
  | _ => false
  end.

Definition stderr_of (e : PyExn) : string :=
  match e with
  | CalledProcessError stderr => stderr
  | _ => ""
  end.

(** The ffprobe run of [get_duration], with [float(stdout.strip())]. *)
Definition run_ffprobe (env : Env) (p : path) : M (option Q) :=
  fun w =>
    let r := ffprobe env (probes w) p in
    (Ok r,
     mkWorld (fs w) (temps w) (S (probes w)) (ffmpegs w) (posts w)
             (downloads w) (log w ++ [EvProbe p r])).

End subprocess.

(** [str(p)] *)
Definition path_str (p : path) : string :=
  match p with
  | UserPath s => s
  | TmpPath _ _ => "/tmp/" +:+ PurePath.name p
  end.

(** [for x in l: state = body(state, x)] *)
Fixpoint for_each {A S : Type} (l : list A) (body : S -> A -> M S) (s : S) : M S :=
  match l with
  | [] => ret s
  | x :: rest => s' <- body s x ;; for_each rest body s'
  end.

(** ** audio.py: class AudioProcessor *)

Module AudioProcessor.

Definition VIDEO_EXTENSIONS : list string :=
  [".mp4"; ".mov"; ".avi"; ".mkv"; ".webm";
   ".flv"; ".wmv"; ".m4v"; ".mpg"; ".mpeg"].

Definition AUDIO_EXTENSIONS : list string :=
  [".mp3"; ".wav"; ".m4a"; ".flac"; ".ogg"; ".aac"; ".wma"; ".opus"].

Definition is_video (filepath : path) : bool :=
  let ext := PyStr.lower (PurePath.suffix filepath) in
  bool_decide (ext ∈ VIDEO_EXTENSIONS).

Definition is_audio (filepath : path) : bool :=
  let ext := PyStr.lower (PurePath.suffix filepath) in
  bool_decide (ext ∈ AUDIO_EXTENSIONS).

(** [get_duration]: every exception of the probe is caught and turned
    into [None]. *)
Definition get_duration (env : Env) (filepath : path) : M (option Q) :=
  subprocess.run_ffprobe env filepath.

(** [extract_audio]: the handler removes the output of a failed run and
    raises a plain [Exception]. *)
Definition extract_audio (env : Env) (video_path : path)
    (output_path : option path) : M path :=
  output_path <- match output_path with
                 | None => tempfile.NamedTemporaryFile ".wav"
                 | Some p => ret p
                 end ;;
  try_except
    (subprocess.run_ffmpeg env (CmdExtract video_path output_path) ;;;
     ret output_path)
    subprocess.is_CalledProcessError
    (fun e =>
       os.remove_if_exists output_path ;;;
       raise (Exception ("Error extrayendo audio: "
                         +:+ subprocess.stderr_of e))).

(** [math.ceil(duration / (chunk_duration - overlap))] *)
Definition num_chunks (duration : Q) (chunk_duration overlap : Z) : Z :=
  Qceiling (duration / inject_Z (chunk_duration - overlap)).

(** [start_time] and [end_time] of the i-th turn of the loop. *)
Definition window (duration : Q) (chunk_duration overlap : Z) (i : nat)
    : Z * Q :=
  let start_time := (Z.of_nat i * (chunk_duration - overlap))%Z in
  let end_time := Qmin (inject_Z (start_time + chunk_duration)) duration in
  (start_time, end_time).

(** The body of the [for i in range(num_chunks)] loop. *)
Definition create_chunk (env : Env) (audio_path : path) (duration : Q)
    (chunk_duration overlap : Z) (chunks : list path) (i : nat)
    : M (list path) :=
  let '(start_time, end_time) := window duration chunk_duration overlap i in
  chunk_path <- tempfile.NamedTemporaryFile
                  ("_chunk_" +:+ PyStr.str_of_Z (Z.of_nat i) +:+ ".wav") ;;
  try_except
    (subprocess.run_ffmpeg env
       (CmdSegment audio_path start_time
                   (end_time - inject_Z start_time) chunk_path) ;;;
     ret (chunks ++ [chunk_path])%list)
    subprocess.is_CalledProcessError
    (fun _ => os.remove_if_exists chunk_path ;;; ret chunks).

(** The truth value of [duration] in [if not duration]: [None] and a zero
    duration are false, any other number is true. *)
Definition known (duration : option Q) : option Q :=
  match duration with
  | Some d => if Qeq_bool d 0 then None else Some d
  | None => None
  end.

Definition create_chunks (env : Env) (audio_path : path)
    (chunk_duration overlap : Z) : M (list path) :=
  duration <- get_duration env audio_path ;;
  match known duration with
  | None => ret [audio_path]
  | Some duration =>
      if (chunk_duration - overlap =? 0)%Z then raise ZeroDivisionError
      else
        for_each
          (seq 0 (Z.to_nat (num_chunks duration chunk_duration overlap)))
          (create_chunk env audio_path duration chunk_duration overlap) []
  end.

(** The time windows the loop of [create_chunks] goes through, in order:
    index, start and end. *)
Definition chunk_plan (duration : Q) (chunk_duration overlap : Z)
    : list (nat * (Z * Q)) :=
  map (fun i => (i, window duration chunk_duration overlap i))
      (seq 0 (Z.to_nat (num_chunks duration chunk_duration overlap))).

End AudioProcessor.

(** ** core.py: class Transcriptor *)

(** The dict returned by [transcribir]. *)
Record TranscriptionResult : Type := mkResult {
  text : string;
  language : string;
  duration : option Q;
  success : bool;
  model : string;
  chunks : nat
}.

(** What [_transcribir_fileobject] asks of a file-like object:
    [hasattr(fileobj, 'read')] with what [read()] returns, and
    [hasattr(fileobj, 'file')] with what [chunks()] yields. *)
Record FileObj : Type := mkFileObj {
  fo_read : option (list Byte.byte);
  fo_file : option (list (list Byte.byte))
}.

(** The first argument of [transcribir]: a [str], or anything else. *)
Inductive Archivo : Type :=
  | ArchivoStr (p : path)
  | ArchivoObj (fileobj : FileObj).

Module Transcriptor.

Definition API_URL : string :=
  "https://api.groq.com/openai/v1/audio/transcriptions".

Definition MAX_FILE_SIZE_MB : Q := 25.

Record t : Type := mkTranscriptor {
  api_key : string;
  default_model : string
}.

(** [Transcriptor.__init__] *)
Definition init (api_key : string) (default_model : string) : Result t :=
  if String.eqb api_key "" then Raise (ValueError "API Key es requerida")
  else Ok (mkTranscriptor api_key default_model).

(** [f"{n:02d}"] *)
Definition fmt_02d (n : Z) : string :=
  if (0 <=? n)%Z && (n <? 10)%Z then "0" +:+ PyStr.str_of_Z n
  else PyStr.str_of_Z n.

(** [int(x // 60)] and [int(x % 60)], read over the exact value of the
    time.  This is what the float operations give for the times a
    transcription carries, which are not negative; for a negative time of
    tiny magnitude Python's [x % 60] rounds up to [60.0], which exact
    arithmetic does not show, so nothing below is stated of negative
    times. *)
Definition minutes (x : Q) : Z := Qfloor (x / 60).
Definition seconds (x : Q) : Z := Qfloor (x - 60 * inject_Z (Qfloor (x / 60))).

Definition format_segment (segment : Segment) : string :=
  let start := default 0%Q (seg_start segment) in
  let end_ := default 0%Q (seg_end segment) in
  let text := PyStr.strip (default "" (seg_text segment)) in
  "[" +:+ fmt_02d (minutes start) +:+ ":" +:+ fmt_02d (seconds start)
  +:+ " - " +:+ fmt_02d (minutes end_) +:+ ":" +:+ fmt_02d (seconds end_)
  +:+ "] " +:+ text.

Definition _format_verbose (result : Json) : string :=
  let output :=
    (["=== TRANSCRIPCIÓN COMPLETA ===" +:+ PyStr.nl;
      default "" (json_text result);
      PyStr.nl +:+ PyStr.nl +:+ "=== SEGMENTOS CON TIMESTAMPS ===" +:+ PyStr.nl]
     ++ map format_segment (default [] (json_segments result)))%list in
  PyStr.join PyStr.nl output.

(** [requests.post(API_URL, files=..., data=..., headers=..., timeout=600)] *)
Definition post (env : Env) (req : Request) : M PostOutcome :=
  fun w =>
    let r := groq env (posts w) req in
    (Ok r,
     mkWorld (fs w) (temps w) (probes w) (ffmpegs w) (S (posts w))
             (downloads w) (log w ++ [EvPost req r])).

(** What [_call_api] makes of a response. *)
Definition read_response (format : string) (response : Response)
    : Result string :=
  if (status_code response =? 200)%Z then
    match resp_json response with
    | None => Raise JSONDecodeError
    | Some result =>
        if String.eqb format "verbose_json" then Ok (_format_verbose result)
        else Ok (default "" (json_text result))
    end
  else
    Raise (Exception ("Error de API Groq: "
                      +:+ PyStr.str_of_Z (status_code response)
                      +:+ " - " +:+ resp_text response)).

Definition build_request (self : t) (filepath : path)
    (language model prompt format : string) : Request :=
  {| req_file := filepath;
     req_filename := PurePath.name filepath;
     req_model := model;
     req_response_format := format;
     req_language :=
       if negb (String.eqb language "") && negb (String.eqb language "auto")
       then Some language else None;
     req_prompt := if negb (String.eqb prompt "") then Some prompt else None;
     req_authorization := "Bearer " +:+ api_key self |}.

Definition _call_api (env : Env) (self : t) (filepath : path)
    (language model prompt format : string) : M string :=
  (* with open(filepath, 'rb') as audio_file *)
  readable <- os.exists_ filepath ;;
  if negb readable then raise (FileNotFoundError (path_str filepath))
  else
    r <- post env (build_request self filepath language model prompt format) ;;
    match r with
    | PostRaised msg => raise (RequestException msg)
    | Responded response =>
        match read_response format response with
        | Ok text => ret text
        | Raise e => raise e
        end
    end.

(** The body of the loop of [_transcribir_chunks]. *)
Definition transcribe_chunk (env : Env) (self : t)
    (language model prompt format : string)
    (texts : list string) (chunk_path : path) : M (list string) :=
  text <- _call_api env self chunk_path language model prompt format ;;
  let texts := (texts ++ [text])%list in
  os.remove_if_exists chunk_path ;;;
  ret texts.

Definition _transcribir_chunks (env : Env) (self : t) (audio_path : path)
    (duration : option Q) (language model prompt format : string)
    : M TranscriptionResult :=
  let chunk_duration := (4 * 60)%Z in
  chunks <- AudioProcessor.create_chunks env audio_path chunk_duration 15 ;;
  texts <- for_each chunks
             (transcribe_chunk env self language model prompt format) [] ;;
  let full_text := PyStr.join (PyStr.nl +:+ PyStr.nl) texts in
  ret {| text := full_text;
         language := language;
         duration := duration;
         success := true;
         model := model;
         chunks := length chunks |}.

(** The first statement of [_transcribir_archivo]: the audio file the rest
    of the call works on. *)
Definition resolve_audio (env : Env) (filepath : path) : M path :=
  if AudioProcessor.is_video filepath
  then AudioProcessor.extract_audio env filepath None
  else ret filepath.

Definition _transcribir_archivo (env : Env) (self : t) (filepath : path)
    (language model prompt format : string) (chunk_if_needed : bool)
    : M TranscriptionResult :=
  audio_path <- resolve_audio env filepath ;;
  duration <- AudioProcessor.get_duration env audio_path ;;
  size <- os.getsize audio_path ;;
  let size_mb := (inject_Z (Z.of_N size) / (1024 * 1024))%Q in
  if negb (Qle_bool size_mb MAX_FILE_SIZE_MB) && chunk_if_needed then
    _transcribir_chunks env self audio_path duration language model prompt
                        format
  else
    text <- _call_api env self audio_path language model prompt format ;;
    ret {| text := text;
           language := language;
           duration := duration;
           success := true;
           model := model;
           chunks := 1 |}.

Definition _transcribir_fileobject (env : Env) (self : t) (fileobj : FileObj)
    (language model prompt format : string) : M TranscriptionResult :=
  tmp <- tempfile.NamedTemporaryFile ".tmp" ;;
  match fo_read fileobj, fo_file fileobj with
  | Some data, _ => tempfile.write tmp (N.of_nat (length data))
  | None, Some pieces =>
      for_each pieces
        (fun _ chunk => tempfile.write tmp (N.of_nat (length chunk))) tt
  | None, None => raise (ValueError "Tipo de archivo no soportado")
  end ;;;
  let tmp_path := tmp in
  try_finally
    (_transcribir_archivo env self tmp_path language model prompt format true)
    (os.remove_if_exists tmp_path).

(** [model or self.default_model] *)
Definition model_or_default (self : t) (model : option string) : string :=
  match model with
  | Some m => if String.eqb m "" then default_model self else m
  | None => default_model self
  end.

Definition transcribir (env : Env) (self : t) (archivo : Archivo)
    (language : string) (model : option string) (prompt format : string)
    (chunk_if_needed : bool) : M TranscriptionResult :=
  let model := model_or_default self model in
  match archivo with
  | ArchivoStr filepath =>
      found <- os.exists_ filepath ;;
      if negb found
      then raise (FileNotFoundError
                    ("Archivo no encontrado: " +:+ path_str filepath))
      else _transcribir_archivo env self filepath language model prompt
                                format chunk_if_needed
  | ArchivoObj fileobj =>
      _transcribir_fileobject env self fileobj language model prompt format
  end.

(** [urllib.request.urlretrieve(url, tmp.name)] *)
Definition download (env : Env) (url : string) (dest : path) : M unit :=
  fun w =>
    let r := urlretrieve env (downloads w) url in
    let w' := mkWorld (match r with
                       | Some n => <[dest := n]> (fs w)
                       | None => fs w
                       end)
                      (temps w) (probes w) (ffmpegs w) (posts w)
                      (S (downloads w)) (log w ++ [EvDownload url dest r]) in
    match r with
    | Some _ => (Ok tt, w')
    | None => (Raise URLError, w')
    end.

Definition transcribir_url (env : Env) (self : t) (url : string)
    (language : string) (model : option string) (prompt : string)
    : M TranscriptionResult :=
  tmp <- tempfile.NamedTemporaryFile ".tmp" ;;
  download env url tmp ;;;
  let tmp_path := tmp in
  try_finally
    (transcribir env self (ArchivoStr tmp_path) language model prompt "json"
                 true)
    (os.remove_if_exists tmp_path).

End Transcriptor.

(** ** Reading the log of a run *)

Module Log.

(** [-ss] and [-t] of every segment command that was run, in order. *)
Fixpoint segments (evs : list Event) : list (Z * Q) :=
  match evs with
  | [] => []
  | EvFfmpeg (CmdSegment _ ss t _) _ :: rest => (ss, t) :: segments rest
  | _ :: rest => segments rest
  end.

(** The segment files ffmpeg produced. *)
Fixpoint materialized (evs : list Event) : list path :=
  match evs with
  | [] => []
  | EvFfmpeg (CmdSegment _ _ _ out) (ProcOk _) :: rest =>
      out :: materialized rest
  | _ :: rest => materialized rest
  end.

(** The outputs of the segment commands that exited with an error. *)
Fixpoint dropped (evs : list Event) : list path :=
  match evs with
  | [] => []
  | EvFfmpeg (CmdSegment _ _ _ out) (ProcFailed _) :: rest =>
      out :: dropped rest
  | _ :: rest => dropped rest
  end.

(** The requests sent to the transcription service, with their outcome. *)
Fixpoint uploads (evs : list Event) : list (Request * PostOutcome) :=
  match evs with
  | [] => []
  | EvPost req r :: rest => (req, r) :: uploads rest
  | _ :: rest => uploads rest
  end.

(** The temporary files that were made. *)
Fixpoint created (evs : list Event) : list path :=
  match evs with
  | [] => []
  | EvTemp p :: rest => p :: created rest
  | _ :: rest => created rest
  end.

(** The files that were deleted. *)
Fixpoint removed (evs : list Event) : list path :=
  match evs with
  | [] => []
  | EvRemove p :: rest => p :: removed rest
  | _ :: rest => removed rest
  end.

End Log.

(** What [_call_api] returns or raises once [requests.post] is over. *)
Definition call_result (format : string) (o : PostOutcome) : Result string :=
  match o with
  | Responded response => Transcriptor.read_response format response
  | PostRaised msg => Raise (RequestException msg)
  end.

(** The [-ss] and [-t] arguments of the plan's windows. *)
Definition plan_arguments (plan : list (nat * (Z * Q))) : list (Z * Q) :=
  map (fun w => (fst (snd w), (snd (snd w) - inject_Z (fst (snd w)))%Q)) plan.

Definition MB : N := 1048576.

(** The name of the segment file the i-th turn of the loop of
    [create_chunks] makes, when it starts in world [w]. *)
Definition segment_path (w : World) (i : nat) : path :=
  TmpPath (temps w) ("_chunk_" +:+ PyStr.str_of_Z (Z.of_nat i) +:+ ".wav").

(** The world after one more [get_duration] on [audio]. *)
Definition probed (env : Env) (audio : path) (w : World) : World :=
  mkWorld (fs w) (temps w) (S (probes w)) (ffmpegs w) (posts w) (downloads w)
          (log w ++ [EvProbe audio (ffprobe env (probes w) audio)]).

(** A path that cannot be the name of a temporary file made from [w] on. *)
Definition old (w : World) (p : path) : Prop :=
  match p with
  | UserPath _ => True
  | TmpPath n _ => (n < temps w)%nat
  end.

(** No file carries a temporary name that is still to be handed out: what
    [NamedTemporaryFile] guarantees of the names it makes. *)
Definition fresh_temps (w : World) : Prop :=
  forall n suf, (temps w <= n)%nat -> fs w !! TmpPath n suf = None.

(** The number of bytes [_transcribir_fileobject] writes to its temporary
    copy; [None] for an object with neither [read] nor [file]. *)
Definition fileobj_size (fileobj : FileObj) : option N :=
  match fo_read fileobj, fo_file fileobj with
  | Some data, _ => Some (N.of_nat (length data))
  | None, Some pieces =>
      Some (fold_left (fun acc chunk => (acc + N.of_nat (length chunk))%N)
                      pieces 0%N)
  | None, None => None
  end.

(** ** cli.py: the transcribe command *)

Module Cli.

(** The decoded configuration of [transcribe_command]: [file_path] and
    [api_key] are read with [config[...]], the others with [config.get]. *)
Record Config : Type := mkConfig {
  cfg_file_path : string;
  cfg_api_key : string;
  cfg_language : option string;
  cfg_model : option string;
  cfg_prompt : option string
}.

(** The dict the command prints: the result of [transcribir] with
    [file_name] and [file_size_mb] added. *)
Record Output : Type := mkOutput {
  resultado : TranscriptionResult;
  file_name : string;
  file_size_mb : Q
}.

(** [transcribe_command], from the decoded configuration to the dict it
    prints. *)
Definition transcribe_command (env : Env) (config : Config) : M Output :=
  let file_path := UserPath (cfg_file_path config) in
  found <- os.exists_ file_path ;;
  if negb found
  then raise (FileNotFoundError
                ("Archivo no encontrado: " +:+ path_str file_path))
  else
    match Transcriptor.init (cfg_api_key config)
                            (default "whisper-large-v3-turbo"
                                     (cfg_model config)) with
    | Raise e => raise e
    | Ok trans =>
        resultado <- Transcriptor.transcribir env trans (ArchivoStr file_path)
                       (default "es" (cfg_language config)) None
                       (default "" (cfg_prompt config)) "json" true ;;
        (* file_path.stat().st_size *)
        size <- os.getsize file_path ;;
        ret {| resultado := resultado;
               file_name := PurePath.name file_path;
               file_size_mb := (inject_Z (Z.of_N size) / (1024 * 1024))%Q |}
    end.

End Cli.

(** ** Concrete runs

    Worlds and oracles for the scenarios used as examples below. *)

Module Scenario.

Definition self : Transcriptor.t :=
  Transcriptor.mkTranscriptor "gsk_test" "whisper-large-v3-turbo".

Definition ok_response (t : string) : Response :=
  mkResponse 200 "{...}" (Some (mkJson (Some t) None)).

Definition rate_limited : Response :=
  mkResponse 429 "rate limit exceeded" None.

(** A 30 MB recording of 600 s, a 10 MB note and a 5 MB video. *)
Definition lecture : path := UserPath "/data/lecture.mp3".
Definition note : path := UserPath "/data/note.mp3".
Definition clase : path := UserPath "/data/clase.mp4".

Definition world : World :=
  mkWorld (<[lecture := 30000000%N]>
             (<[note := 10485760%N]> (<[clase := 5000000%N]> ∅)))
          0 0 0 0 0 [].

(** The service answers the n-th upload with its n-th word. *)
Definition word (n : nat) : string :=
  match n with
  | 0%nat => "uno"
  | 1%nat => "dos"
  | _ => "tres"
  end.

(** Everything works. *)
Definition env_ok : Env :=
  mkEnv (fun _ _ => Some 600%Q)
        (fun _ _ => ProcOk 9000000)
        (fun n _ => Responded (ok_response (word n)))
        (fun _ _ => Some 30000000%N).

(** Scenario D: the second upload is answered with HTTP 429. *)
Definition env_429 : Env :=
  mkEnv (fun _ _ => Some 600%Q)
        (fun _ _ => ProcOk 9000000)
        (fun n _ => if (n =? 1)%nat then Responded rate_limited
                    else Responded (ok_response (word n)))
        (fun _ _ => Some 30000000%N).

(** ffmpeg exits with an error on the second segment only. *)
Definition env_one_drop : Env :=
  mkEnv (fun _ _ => Some 600%Q)
        (fun n _ => if (n =? 1)%nat then ProcFailed "Invalid data"
                    else ProcOk 9000000)
        (fun n _ => Responded (ok_response (word n)))
        (fun _ _ => Some 30000000%N).

(** ffmpeg exits with an error on every segment. *)
Definition env_all_drop : Env :=
  mkEnv (fun _ _ => Some 600%Q)
        (fun _ _ => ProcFailed "Invalid data")
        (fun n _ => Responded (ok_response (word n)))
        (fun _ _ => Some 30000000%N).

(** ffprobe fails. *)
Definition env_no_probe : Env :=
  mkEnv (fun _ _ => None)
        (fun _ _ => ProcOk 9000000)
        (fun n _ => Responded (ok_response (word n)))
        (fun _ _ => Some 30000000%N).

(** ffprobe fails the first time it is run and answers 600 s afterwards. *)
Definition env_second_probe : Env :=
  mkEnv (fun n _ => if (n =? 0)%nat then None else Some 600%Q)
        (fun _ _ => ProcOk 9000000)
        (fun n _ => Responded (ok_response (word n)))
        (fun _ _ => Some 30000000%N).

Definition run (env : Env) (p : path) : Result TranscriptionResult * World :=
  Transcriptor.transcribir env self (ArchivoStr p) "es" None "" "json" true
                           world.

Definition chunk_file (i : nat) : path :=
  TmpPath i ("_chunk_" +:+ PyStr.str_of_Z (Z.of_nat i) +:+ ".wav").

End Scenario.

(** * Properties *)

(** ** Sanity checks of the helpers *)

Example suffix_mp4 : PurePath.suffix (UserPath "/home/u/Clase 1.MP4") = ".MP4".
Proof. reflexivity. Qed.

Example suffix_hidden : PurePath.suffix (UserPath "/home/u/.bashrc") = "".
Proof. reflexivity. Qed.

Example suffix_chunk n : PurePath.suffix (TmpPath n "_chunk_0.wav") = ".wav".
Proof. reflexivity. Qed.

Example is_video_upper : AudioProcessor.is_video (UserPath "a/b/Clase.MKV") = true.
Proof. reflexivity. Qed.

Example is_video_tmp n : AudioProcessor.is_video (TmpPath n ".tmp") = false.
Proof. reflexivity. Qed.

Example fmt_02d_examples :
  Transcriptor.fmt_02d 5 = "05" /\ Transcriptor.fmt_02d 123 = "123"
  /\ Transcriptor.fmt_02d 0 = "00".
Proof. repeat split. Qed.

Example format_segment_example :
  Transcriptor.format_segment
    (mkSegment (Some (61.5)%Q) (Some (125#1)%Q) (Some " hola "))
  = "[01:01 - 02:05] hola".
Proof. vm_compute. reflexivity. Qed.

Example join_example :
  PyStr.join ", " ["a"; "b"; "c"] = "a, b, c" /\ PyStr.join ", " [] = "".
Proof. split; reflexivity. Qed.

(** ** The chunk plan *)

Import AudioProcessor Transcriptor.

Section Plan.
Variables (duration : Q) (chunk_duration overlap : Z).
Hypothesis duration_pos : (0 < duration)%Q.
Hypothesis stride_pos : (overlap < chunk_duration)%Z.

Let stride : Z := (chunk_duration - overlap)%Z.

Lemma ceil_quotient_bounds :
  let n := num_chunks duration chunk_duration overlap in
  (1 <= n)%Z
  /\ (inject_Z ((n - 1) * stride) < duration)%Q
  /\ (duration <= inject_Z (n * stride))%Q.
Proof.
  intros n. subst n. unfold num_chunks. fold stride.
  assert (Hs : (0 < inject_Z stride)%Q).
  { change 0%Q with (inject_Z 0). rewrite <- Zlt_Qlt. unfold stride. lia. }
  set (x := (duration / inject_Z stride)%Q).
  assert (Hx : (x * inject_Z stride == duration)%Q).
  { unfold x. rewrite Qmult_comm. apply Qmult_div_r. lra. }
  pose proof (Qceiling_lt x) as Hlt.
  pose proof (Qle_ceiling x) as Hle.
  assert (Hxpos : (0 < x)%Q).
  { unfold x. apply Qlt_shift_div_l; lra. }
  repeat split.
  - assert (H0 : (inject_Z 0 < inject_Z (Qceiling x))%Q)
      by (apply Qlt_le_trans with x; assumption).
    rewrite <- Zlt_Qlt in H0. lia.
  - rewrite inject_Z_mult, <- Hx.
    apply Qmult_lt_compat_r; assumption.
  - rewrite inject_Z_mult, <- Hx.
    apply Qmult_le_compat_r; lra.
Qed.

Lemma plan_length :
  Z.of_nat (length (chunk_plan duration chunk_duration overlap))
  = num_chunks duration chunk_duration overlap.
Proof.
  unfold chunk_plan. rewrite length_map, length_seq.
  destruct ceil_quotient_bounds as [Hn _]. lia.
Qed.

Lemma plan_indices :
  map fst (chunk_plan duration chunk_duration overlap)
  = seq 0 (length (chunk_plan duration chunk_duration overlap)).
Proof.
  unfold chunk_plan. rewrite length_map, length_seq, map_map. simpl.
  apply map_id.
Qed.

Lemma window_start_below_duration (i : nat) :
  (Z.of_nat i < num_chunks duration chunk_duration overlap)%Z ->
  (inject_Z (Z.of_nat i * stride) < duration)%Q.
Proof.
  intros Hi. destruct ceil_quotient_bounds as (_ & Hlt & _).
  eapply Qle_lt_trans; [| exact Hlt].
  rewrite <- Zle_Qle. unfold stride in *. nia.
Qed.

Lemma window_bounds (i : nat) (s : Z) (e : Q) :
  (0 < chunk_duration)%Z ->
  In (i, (s, e)) (chunk_plan duration chunk_duration overlap) ->
  s = (Z.of_nat i * stride)%Z
  /\ e = Qmin (inject_Z (s + chunk_duration)) duration
  /\ (inject_Z s < e)%Q /\ (e <= duration)%Q.
Proof.
  intros Hcd Hin. unfold chunk_plan in Hin.
  apply in_map_iff in Hin as (j & Heq & Hj).
  apply in_seq in Hj. unfold window in Heq. fold stride in Heq.
  injection Heq as -> <- <-.
  assert (Hi : (Z.of_nat i < num_chunks duration chunk_duration overlap)%Z).
  { destruct ceil_quotient_bounds as [Hn _]. lia. }
  pose proof (window_start_below_duration i Hi) as Hlt.
  repeat split.
  - apply Q.min_glb_lt; [| exact Hlt].
    rewrite <- Zlt_Qlt. lia.
  - apply Q.le_min_r.
Qed.

Lemma plan_last_reaches_duration :
  (0 <= overlap)%Z ->
  exists i s e,
    last (chunk_plan duration chunk_duration overlap) = Some (i, (s, e))
    /\ (e == duration)%Q.
Proof.
  intros Hov. destruct ceil_quotient_bounds as (Hn & Hlt & Hle).
  unfold chunk_plan.
  set (n := num_chunks duration chunk_duration overlap) in *.
  destruct (Z.to_nat n) as [|m] eqn:Hm; [lia |].
  rewrite seq_S, map_app. simpl.
  eexists _, _, _. split; [apply last_snoc |].
  apply Q.min_r. eapply Qle_trans; [exact Hle |].
  rewrite <- Zle_Qle. unfold stride in *.
  replace (Z.of_nat m) with (n - 1)%Z by lia. nia.
Qed.


Lemma plan_lookup (i j : nat) (s : Z) (e : Q) :
  chunk_plan duration chunk_duration overlap !! i = Some (j, (s, e)) ->
  j = i
  /\ (i < length (chunk_plan duration chunk_duration overlap))%nat
  /\ s = (Z.of_nat i * stride)%Z
  /\ e = Qmin (inject_Z (s + chunk_duration)) duration.
Proof.
  intros Hl. pose proof (lookup_lt_Some _ _ _ Hl) as Hlen.
  unfold chunk_plan in Hl.
  change (map ?f ?l) with (f <$> l) in Hl.
  rewrite list_lookup_fmap in Hl.
  destruct (seq 0 _ !! i) as [k|] eqn:Hk; [| discriminate].
  apply lookup_seq in Hk as [-> _]. simpl in Hl.
  unfold window in Hl. fold stride in Hl. injection Hl as <- <- <-.
  auto.
Qed.

(** Shared span of two consecutive windows. *)
Lemma shared_span_le (i j1 j2 : nat) (s1 s2 : Z) (e1 e2 : Q) :
  chunk_plan duration chunk_duration overlap !! i = Some (j1, (s1, e1)) ->
  chunk_plan duration chunk_duration overlap !! S i = Some (j2, (s2, e2)) ->
  (e1 - inject_Z s2 <= inject_Z overlap)%Q
  /\ ((inject_Z (s1 + chunk_duration) <= duration)%Q ->
      (e1 - inject_Z s2 == inject_Z overlap)%Q)
  /\ ((e1 - inject_Z s2 < inject_Z overlap)%Q -> (e1 == duration)%Q).
Proof.
  intros H1 H2.
  apply plan_lookup in H1 as (_ & _ & -> & ->).
  apply plan_lookup in H2 as (_ & _ & -> & ->).
  set (a := inject_Z (Z.of_nat i * stride + chunk_duration)).
  assert (Ha : (a - inject_Z (Z.of_nat (S i) * stride) == inject_Z overlap)%Q).
  { unfold a, Qminus. rewrite <- inject_Z_opp, <- inject_Z_plus.
    apply inject_Z_injective. unfold stride. lia. }
  destruct (Q.min_spec a duration) as [[Hlt Hmin] | [Hle Hmin]];
    rewrite Hmin; repeat split; intros; try lra.
Qed.

Lemma shared_span_exact (i j1 j2 : nat) (s1 s2 : Z) (e1 e2 : Q) :
  (2 * overlap <= chunk_duration)%Z ->
  chunk_plan duration chunk_duration overlap !! i = Some (j1, (s1, e1)) ->
  chunk_plan duration chunk_duration overlap !! S i = Some (j2, (s2, e2)) ->
  (S (S i) < length (chunk_plan duration chunk_duration overlap))%nat ->
  (e1 - inject_Z s2 == inject_Z overlap)%Q.
Proof.
  intros Hov H1 H2 Hlen.
  destruct (shared_span_le _ _ _ _ _ _ _ H1 H2) as (_ & Heq & _).
  apply Heq. apply plan_lookup in H1 as (_ & _ & -> & _).
  pose proof plan_length as Hpl.
  assert (Hi : (Z.of_nat (S (S i))
                < num_chunks duration chunk_duration overlap)%Z) by lia.
  apply window_start_below_duration in Hi.
  apply Qlt_le_weak. eapply Qle_lt_trans; [| exact Hi].
  rewrite <- Zle_Qle. unfold stride. lia.
Qed.

End Plan.

(** C2.  For every duration > 0 and window_length > overlap >= 0 the loop
    of [create_chunks] goes through exactly ceil(duration / stride) windows,
    numbered 0, 1, ...; window i starts at i * stride and ends at
    min(start + window_length, duration); every window has start < end and
    end <= duration, and the last one ends at the duration.  For 600 s with
    240 s windows and 15 s of overlap the windows are (0,240), (225,465)
    and (450,600). *)
Theorem chunk_plan_count_and_bounds (duration : Q) (window_length overlap : Z) :
  (0 < duration)%Q ->
  (0 <= overlap < window_length)%Z ->
  let stride := (window_length - overlap)%Z in
  let plan := chunk_plan duration window_length overlap in
  Z.of_nat (length plan) = Qceiling (duration / inject_Z stride)
  /\ map fst plan = seq 0 (length plan)
  /\ (forall i s e,
        In (i, (s, e)) plan ->
        s = (Z.of_nat i * stride)%Z
        /\ e = Qmin (inject_Z (s + window_length)) duration
        /\ (inject_Z s < e)%Q /\ (e <= duration)%Q)
  /\ (exists i s e, last plan = Some (i, (s, e)) /\ (e == duration)%Q)
  /\ chunk_plan 600 240 15
     = [(0%nat, (0%Z, 240%Q)); (1%nat, (225%Z, 465%Q));
        (2%nat, (450%Z, 600%Q))].
Proof.
  intros Hd [Hov Hwl] stride plan.
  assert (Hstride : (overlap < window_length)%Z) by lia.
  split_and!.
  - apply plan_length; assumption.
  - apply plan_indices.
  - intros i s e Hin. apply window_bounds; [assumption .. | lia | exact Hin].
  - apply plan_last_reaches_duration; assumption.
  - reflexivity.
Qed.

Lemma chunk_plan_count_and_bounds_witness :
  let plan := chunk_plan 600 240 15 in
  Z.of_nat (length plan) = Qceiling (600 / inject_Z (240 - 15))
  /\ map fst plan = seq 0 (length plan)
  /\ (forall i s e,
        In (i, (s, e)) plan ->
        s = (Z.of_nat i * (240 - 15))%Z
        /\ e = Qmin (inject_Z (s + 240)) 600
        /\ (inject_Z s < e)%Q /\ (e <= 600)%Q)
  /\ (exists i s e, last plan = Some (i, (s, e)) /\ (e == 600)%Q)
  /\ chunk_plan 600 240 15
     = [(0%nat, (0%Z, 240%Q)); (1%nat, (225%Z, 465%Q));
        (2%nat, (450%Z, 600%Q))].
Proof.
  apply (chunk_plan_count_and_bounds 600 240 15); [reflexivity | lia].
Defined.

(** C3, as stated, fails: with 600 s of audio, 240 s windows and 200 s of
    overlap the plan has 15 windows; windows 10 and 11 are both non-final
    and share 160 s, not 200 s. *)
Lemma consecutive_overlap_counterexample :
  let plan := chunk_plan 600 240 200 in
  (0 < 600)%Q /\ (0 <= 200 < 240)%Z
  /\ length plan = 15%nat
  /\ plan !! 10%nat = Some (10%nat, (400%Z, 600%Q))
  /\ plan !! 11%nat = Some (11%nat, (440%Z, 600%Q))
  /\ (S 11 < length plan)%nat
  /\ ~ (600 - inject_Z 440 == inject_Z 200)%Q.
Proof.
  split_and!; try reflexivity; try lia.
  - vm_compute. lia.
  - intros H. discriminate H.
Qed.

(** C3, amended.  For every duration > 0 and window_length > overlap >= 0,
    two consecutive windows i and i+1 of the plan share at most [overlap]
    seconds: exactly [overlap] when window i is not cut at the duration,
    and less only when window i ends at the duration.  When moreover
    2 * overlap <= window_length, as with the defaults 240 and 15, every
    pair of consecutive non-final windows shares exactly [overlap]. *)
Theorem consecutive_windows_overlap (duration : Q) (window_length overlap : Z)
    (i j1 j2 : nat) (s1 s2 : Z) (e1 e2 : Q) :
  (0 < duration)%Q ->
  (0 <= overlap < window_length)%Z ->
  let plan := chunk_plan duration window_length overlap in
  plan !! i = Some (j1, (s1, e1)) ->
  plan !! S i = Some (j2, (s2, e2)) ->
  (e1 - inject_Z s2 <= inject_Z overlap)%Q
  /\ ((inject_Z (s1 + window_length) <= duration)%Q ->
      (e1 - inject_Z s2 == inject_Z overlap)%Q)
  /\ ((e1 - inject_Z s2 < inject_Z overlap)%Q -> (e1 == duration)%Q)
  /\ ((2 * overlap <= window_length)%Z ->
      (S (S i) < length plan)%nat ->
      (e1 - inject_Z s2 == inject_Z overlap)%Q).
Proof.
  intros Hd [Hov Hwl] plan H1 H2.
  destruct (shared_span_le _ _ _ _ _ _ _ _ _ _ H1 H2) as (Hle & Heq & Hlt).
  split_and!; try assumption.
  intros H2ov Hlen.
  apply (shared_span_exact duration window_length overlap Hd Hwl
           i j1 j2 s1 s2 e1 e2 H2ov H1 H2 Hlen).
Qed.

Lemma consecutive_windows_overlap_witness :
  (240 - inject_Z 225 <= inject_Z 15)%Q
  /\ ((inject_Z (0 + 240) <= 600)%Q -> (240 - inject_Z 225 == inject_Z 15)%Q)
  /\ ((240 - inject_Z 225 < inject_Z 15)%Q -> (240 == 600)%Q)
  /\ ((2 * 15 <= 240)%Z ->
      (2 < length (chunk_plan 600 240 15))%nat ->
      (240 - inject_Z 225 == inject_Z 15)%Q).
Proof.
  apply (consecutive_windows_overlap 600 240 15 0 0 1 0 225 240 465);
    [reflexivity | lia | reflexivity | reflexivity].
Defined.

(** ** Runs of the engine *)

Ltac run_step :=
  cbv beta iota zeta delta
    [bind ret raise try_except try_finally subprocess.is_CalledProcessError
     subprocess.stderr_of os.remove_if_exists os.exists_ os.remove os.getsize
     tempfile.NamedTemporaryFile subprocess.run_ffmpeg
     subprocess.run_ffprobe post emit set_fs]; simpl.

Lemma segments_app (a b : list Event) :
  Log.segments (a ++ b) = (Log.segments a ++ Log.segments b)%list.
Proof.
  induction a as [| [| | | [] | |] a IH]; simpl; rewrite ?IH; reflexivity.
Qed.

Lemma materialized_app (a b : list Event) :
  Log.materialized (a ++ b)
  = (Log.materialized a ++ Log.materialized b)%list.
Proof.
  induction a as [| [| | | [] [] | |] a IH]; simpl; rewrite ?IH; reflexivity.
Qed.

Lemma dropped_app (a b : list Event) :
  Log.dropped (a ++ b) = (Log.dropped a ++ Log.dropped b)%list.
Proof.
  induction a as [| [| | | [] [] | |] a IH]; simpl; rewrite ?IH; reflexivity.
Qed.

Lemma uploads_app (a b : list Event) :
  Log.uploads (a ++ b) = (Log.uploads a ++ Log.uploads b)%list.
Proof.
  induction a as [| [] a IH]; simpl; rewrite ?IH; reflexivity.
Qed.

Lemma removed_app (a b : list Event) :
  Log.removed (a ++ b) = (Log.removed a ++ Log.removed b)%list.
Proof.
  induction a as [| [] a IH]; simpl; rewrite ?IH; reflexivity.
Qed.

Lemma created_app (a b : list Event) :
  Log.created (a ++ b) = (Log.created a ++ Log.created b)%list.
Proof.
  induction a as [| [] a IH]; simpl; rewrite ?IH; reflexivity.
Qed.

Section Runs.
Context (env : Env).

Lemma remove_if_exists_run (p : path) (w : World) :
  os.remove_if_exists p w
  = match fs w !! p with
    | Some _ => (Ok tt, emit (EvRemove p) (set_fs (delete p (fs w)) w))
    | None => (Ok tt, w)
    end.
Proof.
  run_step. destruct (fs w !! p) eqn:E; simpl; [| reflexivity].
  rewrite E. reflexivity.
Qed.

Section Chunker.
Context (audio_path : path) (chunk_duration overlap : Z).

Lemma create_chunk_run (duration : Q) (chunks : list path) (i : nat)
    (w : World) :
  create_chunk env audio_path duration chunk_duration overlap chunks i w
  = let start_time := fst (window duration chunk_duration overlap i) in
    let end_time := snd (window duration chunk_duration overlap i) in
    let p := segment_path w i in
    let cmd := CmdSegment audio_path start_time
                          (end_time - inject_Z start_time) p in
    let o := ffmpeg env (ffmpegs w) cmd in
    match o with
    | ProcOk n =>
        (Ok (chunks ++ [p])%list,
         mkWorld (<[p := n]> (<[p := 0%N]> (fs w))) (S (temps w)) (probes w)
                 (S (ffmpegs w)) (posts w) (downloads w)
                 (log w ++ [EvTemp p; EvFfmpeg cmd o]))
    | ProcFailed _ =>
        (Ok chunks,
         mkWorld (delete p (<[p := 0%N]> (fs w))) (S (temps w)) (probes w)
                 (S (ffmpegs w)) (posts w) (downloads w)
                 (log w ++ [EvTemp p; EvFfmpeg cmd o; EvRemove p]))
    | ProcMissing =>
        (Raise (FileNotFoundError "ffmpeg"),
         mkWorld (<[p := 0%N]> (fs w)) (S (temps w)) (probes w)
                 (S (ffmpegs w)) (posts w) (downloads w)
                 (log w ++ [EvTemp p; EvFfmpeg cmd o]))
    end.
Proof.
  unfold create_chunk, window, segment_path. run_step.
  destruct (ffmpeg env (ffmpegs w) _) as [n | err |]; simpl;
    rewrite <- ?app_assoc; simpl; try reflexivity.
  rewrite lookup_insert_eq. simpl. rewrite lookup_insert_eq.
  rewrite <- app_assoc. reflexivity.
Qed.

Lemma create_loop_log (duration : Q) (indices : list nat) :
  forall (acc : list path) (w : World) res w',
    for_each indices
      (create_chunk env audio_path duration chunk_duration overlap) acc w
    = (res, w') ->
    exists evs,
      log w' = (log w ++ evs)%list
      /\ Log.uploads evs = []
      /\ (forall cs, res = Ok cs ->
            cs = (acc ++ Log.materialized evs)%list
            /\ Log.segments evs
               = map (fun i =>
                        let se := window duration chunk_duration overlap i in
                        (fst se, (snd se - inject_Z (fst se))%Q)) indices
            /\ (length (Log.materialized evs) + length (Log.dropped evs)
                = length indices)%nat).
Proof.
  induction indices as [| i rest IH]; intros acc w res w' Hrun.
  - simpl in Hrun. injection Hrun as <- <-. exists [].
    rewrite app_nil_r. split_and!; try reflexivity.
    intros cs Hcs. injection Hcs as <-. rewrite app_nil_r. auto.
  - simpl in Hrun. unfold bind at 1 in Hrun.
    rewrite create_chunk_run in Hrun. cbv zeta in Hrun.
    set (p := segment_path w i) in *.
    set (cmd := CmdSegment _ _ _ p) in *.
    destruct (ffmpeg env (ffmpegs w) cmd) as [n | err |] eqn:Ho.
    + apply IH in Hrun as (evs & Hlog & Hup & Hok). simpl in Hlog.
      exists (EvTemp p :: EvFfmpeg cmd (ProcOk n) :: evs).
      rewrite Hlog, <- app_assoc. split_and!; try done.
      intros cs Hres. destruct (Hok _ Hres) as (-> & Hseg & Hlen).
      simpl. rewrite <- app_assoc, Hseg. simpl. auto.
    + apply IH in Hrun as (evs & Hlog & Hup & Hok). simpl in Hlog.
      exists (EvTemp p :: EvFfmpeg cmd (ProcFailed err) :: EvRemove p :: evs).
      rewrite Hlog, <- app_assoc. split_and!; try done.
      intros cs Hres. destruct (Hok _ Hres) as (-> & Hseg & Hlen).
      simpl. rewrite Hseg. simpl. auto with lia.
    + injection Hrun as <- <-.
      exists [EvTemp p; EvFfmpeg cmd ProcMissing].
      split_and!; try reflexivity. intros cs [=].
Qed.

Lemma create_chunks_log (w : World) res w' :
  create_chunks env audio_path chunk_duration overlap w = (res, w') ->
  let probe := ffprobe env (probes w) audio_path in
  exists evs,
    log w' = (log w ++ EvProbe audio_path probe :: evs)%list
    /\ Log.uploads evs = []
    /\ match known probe with
       | None => res = Ok [audio_path] /\ evs = [] /\ fs w' = fs w
       | Some d =>
           forall cs, res = Ok cs ->
             cs = Log.materialized evs
             /\ Log.segments evs
                = plan_arguments (chunk_plan d chunk_duration overlap)
             /\ (length cs + length (Log.dropped evs)
                 = length (chunk_plan d chunk_duration overlap))%nat
       end.
Proof.
  intros Hrun probe. unfold create_chunks, get_duration in Hrun.
  unfold bind at 1, subprocess.run_ffprobe in Hrun. fold probe in Hrun.
  destruct (known probe) as [d |] eqn:Hk.
  - destruct (chunk_duration - overlap =? 0)%Z.
    + injection Hrun as <- <-. exists []. simpl.
      split_and!; try done.
    + apply create_loop_log in Hrun as (evs & Hlog & Hup & Hok).
      simpl in Hlog. exists evs. rewrite Hlog, <- app_assoc.
      split_and!; try done.
      intros cs Hres. destruct (Hok _ Hres) as (-> & Hseg & Hlen).
      unfold chunk_plan, plan_arguments. rewrite Hseg, map_map, !length_map.
      rewrite length_seq in *. auto.
  - injection Hrun as <- <-. exists []. simpl. auto.
Qed.

End Chunker.

Section Client.
Context (self : Transcriptor.t) (language model prompt format : string).

Lemma call_api_run (p : path) (w : World) :
  _call_api env self p language model prompt format w
  = match fs w !! p with
    | None => (Raise (FileNotFoundError (path_str p)), w)
    | Some _ =>
        let q := build_request self p language model prompt format in
        let o := groq env (posts w) q in
        (call_result format o,
         mkWorld (fs w) (temps w) (probes w) (ffmpegs w) (S (posts w))
                 (downloads w) (log w ++ [EvPost q o]))
    end.
Proof.
  unfold _call_api. run_step.
  destruct (fs w !! p) eqn:E; simpl; [| reflexivity].
  destruct (groq env (posts w) _) as [r | msg]; simpl; [| reflexivity].
  destruct (read_response format r); reflexivity.
Qed.

Lemma transcribe_chunk_run (texts : list string) (p : path) (w : World) :
  transcribe_chunk env self language model prompt format texts p w
  = match fs w !! p with
    | None => (Raise (FileNotFoundError (path_str p)), w)
    | Some _ =>
        let q := build_request self p language model prompt format in
        let o := groq env (posts w) q in
        match call_result format o with
        | Ok t =>
            (Ok (texts ++ [t])%list,
             mkWorld (delete p (fs w)) (temps w) (probes w) (ffmpegs w)
                     (S (posts w)) (downloads w)
                     (log w ++ [EvPost q o; EvRemove p]))
        | Raise e =>
            (Raise e,
             mkWorld (fs w) (temps w) (probes w) (ffmpegs w) (S (posts w))
                     (downloads w) (log w ++ [EvPost q o]))
        end
    end.
Proof.
  unfold transcribe_chunk, bind at 1. rewrite call_api_run.
  destruct (fs w !! p) eqn:E; simpl; [| reflexivity].
  destruct (call_result format _) as [t | e]; [| reflexivity].
  unfold bind. rewrite remove_if_exists_run. simpl. rewrite E.
  unfold emit, set_fs, ret. simpl. rewrite <- app_assoc. reflexivity.
Qed.


Lemma transcribe_loop_log (cs : list path) :
  forall (texts : list string) (w : World) res w',
    for_each cs (transcribe_chunk env self language model prompt format)
             texts w = (res, w') ->
    exists evs,
      log w' = (log w ++ evs)%list
      /\ Log.segments evs = [] /\ Log.materialized evs = []
      /\ Log.dropped evs = [] /\ Log.created evs = []
      /\ (forall texts', res = Ok texts' ->
            exists new,
              texts' = (texts ++ new)%list
              /\ map fst (Log.uploads evs)
                 = map (fun p => build_request self p language model prompt
                                               format) cs
              /\ map (fun u => call_result format (snd u)) (Log.uploads evs)
                 = map Ok new
              /\ Log.removed evs = cs)
      /\ (forall ups1 u ups2 e,
            Log.uploads evs = (ups1 ++ u :: ups2)%list ->
            call_result format (snd u) = Raise e ->
            ups2 = [] /\ res = Raise e).
Proof.
  induction cs as [| p rest IH]; intros texts w res w' Hrun.
  - simpl in Hrun. injection Hrun as <- <-. exists [].
    rewrite app_nil_r. split_and!; try reflexivity.
    + intros texts' Hres. injection Hres as <-. exists [].
      rewrite app_nil_r. auto.
    + intros ups1 u ups2 e Hup. destruct ups1; discriminate.
  - simpl in Hrun. unfold bind at 1 in Hrun.
    rewrite transcribe_chunk_run in Hrun.
    destruct (fs w !! p) as [sz |] eqn:Hp.
    + cbv zeta in Hrun.
      set (q := build_request self p language model prompt format) in *.
      set (o := groq env (posts w) q) in *.
      destruct (call_result format o) as [t | e0] eqn:Hcall.
      * apply IH in Hrun as (evs & Hlog & Hs & Hm & Hd & Hc & Hok & Hab).
        simpl in Hlog. exists (EvPost q o :: EvRemove p :: evs).
        rewrite Hlog, <- app_assoc. simpl.
        split_and!; try assumption; try reflexivity.
        -- intros texts' Hres.
           destruct (Hok _ Hres) as (new & -> & Hq & Hr & Hrm).
           exists (t :: new). rewrite <- app_assoc. simpl.
           rewrite Hq, Hr, Hcall, Hrm. auto.
        -- intros ups1 u ups2 e Hup Hu.
           destruct ups1 as [| u1 ups1]; simpl in Hup.
           ++ injection Hup as <- Hrest. simpl in Hu. congruence.
           ++ injection Hup as _ Hrest. eapply Hab; eauto.
      * injection Hrun as <- <-. exists [EvPost q o]. simpl.
        split_and!; try reflexivity.
        -- intros texts' Hres. discriminate Hres.
        -- intros ups1 u ups2 e Hup Hu.
           destruct ups1 as [| u1 [| u2 ups1]]; simpl in Hup;
             try discriminate.
           injection Hup as <- <-. simpl in Hu. split; congruence.
    + injection Hrun as <- <-. exists []. rewrite app_nil_r.
      split_and!; try reflexivity.
      * intros texts' Hres. discriminate Hres.
      * intros ups1 u ups2 e Hup. destruct ups1; discriminate.
Qed.

Lemma transcribir_chunks_unknown (audio : path) (dur : option Q) (w : World) :
  known (ffprobe env (probes w) audio) = None ->
  _transcribir_chunks env self audio dur language model prompt format w
  = match transcribe_chunk env self language model prompt format [] audio
            (probed env audio w) with
    | (Ok texts, w2) =>
        (Ok (mkResult (PyStr.join (PyStr.nl +:+ PyStr.nl) texts) language dur
                      true model 1), w2)
    | (Raise e, w2) => (Raise e, w2)
    end.
Proof.
  intros Hk. unfold _transcribir_chunks, create_chunks, get_duration.
  unfold bind at 1 2. unfold subprocess.run_ffprobe. rewrite Hk.
  unfold ret at 1. simpl for_each. unfold bind at 1 2. fold (probed env audio w).
  destruct (transcribe_chunk _ _ _ _ _ _ _ _ _) as [[texts | e] w2];
    reflexivity.
Qed.

Lemma transcribir_chunks_log (audio : path) (dur : option Q) (w : World)
    res w' :
  _transcribir_chunks env self audio dur language model prompt format w
  = (res, w') ->
  let probe := ffprobe env (probes w) audio in
  exists evs,
    log w' = (log w ++ EvProbe audio probe :: evs)%list
    /\ (forall r, res = Ok r ->
          exists texts,
            r = mkResult (PyStr.join (PyStr.nl +:+ PyStr.nl) texts) language
                         dur true model (length (Log.uploads evs))
            /\ map (fun u => call_result format (snd u)) (Log.uploads evs)
               = map Ok texts
            /\ match known probe with
               | None =>
                   Log.segments evs = []
                   /\ map (fun u => req_file (fst u)) (Log.uploads evs)
                      = [audio]
               | Some d =>
                   map (fun u => req_file (fst u)) (Log.uploads evs)
                   = Log.materialized evs
                   /\ Log.segments evs
                      = plan_arguments (chunk_plan d (4 * 60) 15)
                   /\ (length (Log.uploads evs) + length (Log.dropped evs)
                       = length (chunk_plan d (4 * 60) 15))%nat
               end)
    /\ (forall ups1 u ups2 e,
          Log.uploads evs = (ups1 ++ u :: ups2)%list ->
          call_result format (snd u) = Raise e ->
          ups2 = [] /\ res = Raise e).
Proof.
  intros Hrun probe. unfold _transcribir_chunks in Hrun.
  unfold bind at 1 in Hrun.
  destruct (create_chunks env audio (4 * 60) 15 w) as [[cs | e1] w1] eqn:Hcc.
  - apply create_chunks_log in Hcc as (evs1 & Hlog1 & Hup1 & Hplan).
    fold probe in Hlog1, Hplan.
    unfold bind at 1 in Hrun.
    destruct (for_each cs _ [] w1) as [[texts | e2] w2] eqn:Hloop;
      apply transcribe_loop_log in Hloop
        as (evs2 & Hlog2 & Hs2 & Hm2 & Hd2 & Hc2 & Hok2 & Hab2);
      injection Hrun as <- <-;
      exists (evs1 ++ evs2)%list;
      (split; [rewrite Hlog2, Hlog1, <- app_assoc; reflexivity |]);
      rewrite uploads_app, Hup1; simpl; split.
    + intros r Hr. injection Hr as <-.
      destruct (Hok2 _ eq_refl) as (new & Hnew & Hq & Hres & Hrm).
      simpl in Hnew. subst new. exists texts.
      assert (Hfiles : map (fun u => req_file (fst u)) (Log.uploads evs2) = cs).
      { rewrite <- (map_map fst req_file), Hq, map_map. simpl. apply map_id. }
      assert (Hlen : length (Log.uploads evs2) = length cs).
      { rewrite <- Hfiles, length_map. reflexivity. }
      rewrite Hlen. split_and!; try done.
      rewrite segments_app, materialized_app, dropped_app, Hs2, Hm2, Hd2.
      rewrite !app_nil_r, Hfiles.
      destruct (known probe) as [d |].
      * destruct (Hplan _ eq_refl) as (Hcs & Hseg & Hcount). auto.
      * destruct Hplan as (Hcs & -> & _). injection Hcs as ->. auto.
    + intros ups1 u ups2 e Hup Hcall.
      destruct (Hab2 _ _ _ _ Hup Hcall) as [_ [=]].
    + intros r [=].
    + intros ups1 u ups2 e Hup Hcall.
      destruct (Hab2 _ _ _ _ Hup Hcall) as [-> [= ->]]. auto.
  - injection Hrun as <- <-.
    apply create_chunks_log in Hcc as (evs1 & Hlog1 & Hup1 & Hplan).
    exists evs1. rewrite Hup1. split_and!; try done.
    intros ups1 u ups2 e Habs. destruct ups1; discriminate.
Qed.

Lemma size_decision (size : N) :
  negb (Qle_bool (inject_Z (Z.of_N size) / (1024 * 1024)) MAX_FILE_SIZE_MB)
  = (25 * MB <? size)%N.
Proof.
  unfold MAX_FILE_SIZE_MB, MB.
  destruct (25 * 1048576 <? size)%N eqn:Hs.
  - apply N.ltb_lt in Hs. apply negb_true_iff.
    destruct (Qle_bool _ _) eqn:Hq; [| reflexivity].
    apply Qle_bool_iff in Hq. exfalso.
    apply (Qmult_le_compat_r _ _ (1024 * 1024)) in Hq; [| discriminate].
    rewrite Qmult_comm, Qmult_div_r in Hq by discriminate.
    change (25 * (1024 * 1024))%Q with (inject_Z 26214400) in Hq.
    rewrite <- Zle_Qle in Hq. lia.
  - apply N.ltb_ge in Hs. apply negb_false_iff. apply Qle_bool_iff.
    apply Qle_shift_div_r; [reflexivity |].
    change (25 * (1024 * 1024))%Q with (inject_Z 26214400).
    rewrite <- Zle_Qle. lia.
Qed.

Lemma transcribir_archivo_run (filepath audio : path) (chunk_if_needed : bool)
    (w w1 : World) (size : N) :
  resolve_audio env filepath w = (Ok audio, w1) ->
  fs w1 !! audio = Some size ->
  _transcribir_archivo env self filepath language model prompt format
                       chunk_if_needed w
  = let dur := ffprobe env (probes w1) audio in
    if (25 * MB <? size)%N && chunk_if_needed then
      _transcribir_chunks env self audio dur language model prompt format
                          (probed env audio w1)
    else
      match _call_api env self audio language model prompt format
                      (probed env audio w1) with
      | (Ok text, w2) =>
          (Ok (mkResult text language dur true model 1), w2)
      | (Raise e, w2) => (Raise e, w2)
      end.
Proof.
  intros Hres Hsize. unfold _transcribir_archivo.
  unfold bind at 1. rewrite Hres.
  unfold get_duration, bind at 1. unfold subprocess.run_ffprobe.
  fold (probed env audio w1). unfold bind at 1, os.getsize.
  change (fs (probed env audio w1)) with (fs w1). rewrite Hsize.
  rewrite size_decision. cbv zeta.
  destruct ((25 * MB <? size)%N && chunk_if_needed); [reflexivity |].
  unfold bind at 1.
  destruct (_call_api _ _ _ _ _ _ _ _) as [[text | e] w2]; reflexivity.
Qed.

End Client.
End Runs.

(** ** Files on disk and termination of the chunked path *)

Section Files.
Context (env : Env).

Lemma old_mono (w w' : World) (p : path) :
  (temps w <= temps w')%nat -> old w p -> old w' p.
Proof. destruct p; simpl; [auto | lia]. Qed.

Lemma segment_path_fresh (w : World) (i : nat) : ~ old w (segment_path w i).
Proof. simpl. lia. Qed.

Lemma create_loop_files (audio : path) (d : Q) (cd ov : Z)
    (indices : list nat) :
  (forall n c, ffmpeg env n c <> ProcMissing) ->
  forall (acc : list path) (w : World),
    exists new w',
      for_each indices (create_chunk env audio d cd ov) acc w
      = (Ok (acc ++ new)%list, w')
      /\ (temps w <= temps w')%nat
      /\ (forall p, old w p -> fs w' !! p = fs w !! p)
      /\ NoDup new
      /\ Forall (fun p => ~ old w p /\ is_Some (fs w' !! p)) new.
Proof.
  intros Hff. induction indices as [| i rest IH]; intros acc w.
  - exists [], w. rewrite app_nil_r. split_and!; auto using NoDup_nil_2.
  - simpl. unfold bind at 1. rewrite create_chunk_run. cbv zeta.
    set (p := segment_path w i). set (cmd := CmdSegment _ _ _ p).
    pose proof (Hff (ffmpegs w) cmd) as Hne.
    destruct (ffmpeg env (ffmpegs w) cmd) as [n | err |]; [| | contradiction].
    + set (w1 := mkWorld _ _ _ _ _ _ _).
      destruct (IH (acc ++ [p])%list w1)
        as (new & w' & Hrun & Hle & Hframe & Hnd & Hall).
      exists (p :: new), w'. rewrite Hrun, <- app_assoc. simpl in Hle.
      assert (Hp1 : old w1 p) by (simpl; lia).
      split_and!; try done; try lia.
      * intros q Hq. rewrite Hframe by (eapply old_mono; [| exact Hq]; simpl; lia).
        simpl. assert (q <> p) by (intros ->; revert Hq; apply segment_path_fresh).
        rewrite !lookup_insert_ne by congruence. reflexivity.
      * apply NoDup_cons. split; [| exact Hnd].
        intros Hin. rewrite Forall_forall in Hall.
        destruct (Hall _ Hin) as [Hnew _]. contradiction.
      * constructor.
        -- split; [apply segment_path_fresh |].
           rewrite Hframe by exact Hp1. simpl. rewrite lookup_insert_eq. eauto.
        -- eapply Forall_impl; [exact Hall |]. intros q [Hq Hs]. split; [| exact Hs].
           intros Hold. apply Hq. eapply old_mono; [| exact Hold]. simpl. lia.
    + set (w1 := mkWorld _ _ _ _ _ _ _).
      destruct (IH acc w1) as (new & w' & Hrun & Hle & Hframe & Hnd & Hall).
      exists new, w'. rewrite Hrun. simpl in Hle.
      split_and!; try done; try lia.
      * intros q Hq. rewrite Hframe by (eapply old_mono; [| exact Hq]; simpl; lia).
        simpl. assert (q <> p) by (intros ->; revert Hq; apply segment_path_fresh).
        rewrite lookup_delete_ne, lookup_insert_ne by congruence. reflexivity.
      * eapply Forall_impl; [exact Hall |]. intros q [Hq Hs]. split; [| exact Hs].
        intros Hold. apply Hq. eapply old_mono; [| exact Hold]. simpl. lia.
Qed.

Section Uploads.
Context (self : Transcriptor.t) (language model prompt format : string).

Lemma transcribe_loop_total (cs : list path) :
  (forall n q, exists t, call_result format (groq env n q) = Ok t) ->
  NoDup cs ->
  forall (texts : list string) (w : World),
    Forall (fun p => is_Some (fs w !! p)) cs ->
    exists texts' w',
      for_each cs (transcribe_chunk env self language model prompt format)
               texts w = (Ok texts', w').
Proof.
  intros Hgroq. induction cs as [| p rest IH]; intros Hnd texts w Hall.
  - exists texts, w. reflexivity.
  - apply NoDup_cons in Hnd as [Hp Hnd].
    apply Forall_cons in Hall as [[sz Hsz] Hall].
    simpl. unfold bind at 1. rewrite transcribe_chunk_run, Hsz. cbv zeta.
    destruct (Hgroq (posts w)
                (build_request self p language model prompt format))
      as [t ->].
    apply IH; [exact Hnd |]. simpl.
    rewrite Forall_forall in Hall |- *. intros q Hq.
    rewrite lookup_delete_ne; [apply Hall; exact Hq |].
    intros ->. contradiction.
Qed.

Lemma transcribir_chunks_total (audio : path) (dur : option Q) (w : World) :
  (forall n c, ffmpeg env n c <> ProcMissing) ->
  (forall n q, exists t, call_result format (groq env n q) = Ok t) ->
  is_Some (fs w !! audio) ->
  exists r w',
    _transcribir_chunks env self audio dur language model prompt format w
    = (Ok r, w').
Proof.
  intros Hff Hgroq Haudio. unfold _transcribir_chunks.
  unfold bind at 1.
  assert (Hcc : exists cs w1,
             create_chunks env audio (4 * 60) 15 w = (Ok cs, w1)
             /\ NoDup cs /\ Forall (fun p => is_Some (fs w1 !! p)) cs).
  { unfold create_chunks, get_duration, bind at 1, subprocess.run_ffprobe.
    destruct (known _) as [d |].
    - change (4 * 60 - 15 =? 0)%Z with false. cbv iota.
      match goal with
      | |- context [for_each ?l ?f [] ?w0] =>
          destruct (create_loop_files audio d (4 * 60) 15 l Hff [] w0)
            as (new & w1 & Hrun & _ & _ & Hnd & Hall)
      end.
      exists new, w1. simpl in Hrun. split_and!; try done.
      eapply Forall_impl; [exact Hall |]. intros q [_ Hq]. exact Hq.
    - eexists _, _. split; [reflexivity |]. simpl. split.
      + apply NoDup_singleton.
      + constructor; [exact Haudio | constructor]. }
  destruct Hcc as (cs & w1 & -> & Hnd & Hall).
  unfold bind at 1.
  destruct (transcribe_loop_total cs Hgroq Hnd [] w1 Hall) as (texts & w2 & ->).
  eexists _, _. reflexivity.
Qed.

End Uploads.
End Files.

(** ** The orchestrator *)

Section Orchestrator.
Context (env : Env) (self : Transcriptor.t).
Context (language model prompt format : string).

Lemma resolve_audio_log (filepath : path) (w : World) res w1 :
  resolve_audio env filepath w = (res, w1) ->
  exists evs,
    log w1 = (log w ++ evs)%list
    /\ Log.uploads evs = [] /\ Log.segments evs = []
    /\ Log.materialized evs = [] /\ Log.dropped evs = []
    /\ probes w1 = probes w /\ posts w1 = posts w
    /\ (is_video filepath = false -> res = Ok filepath /\ w1 = w).
Proof.
  unfold resolve_audio. destruct (is_video filepath).
  - unfold extract_audio. run_step.
    destruct (ffmpeg env (ffmpegs w) _) as [n | err |]; simpl.
    + intros [= <- <-]. simpl. eexists. rewrite <- app_assoc.
      split; [reflexivity |]. split_and!; try done.
    + rewrite lookup_insert_eq. simpl. rewrite lookup_insert_eq.
      intros [= <- <-]. simpl. eexists. rewrite <- !app_assoc.
      split; [reflexivity |]. split_and!; try done.
    + intros [= <- <-]. simpl. eexists. rewrite <- app_assoc.
      split; [reflexivity |]. split_and!; try done.
  - intros [= <- <-]. exists []. rewrite app_nil_r. split_and!; try done.
Qed.

Lemma write_pieces_run (tmp : path) (pieces : list (list Byte.byte)) :
  forall w : World,
    exists w',
      for_each pieces
        (fun _ chunk => tempfile.write tmp (N.of_nat (length chunk))) tt w
      = (Ok tt, w')
      /\ log w' = log w.
Proof.
  induction pieces as [| c rest IH]; intros w.
  - exists w. split; reflexivity.
  - simpl. unfold bind at 1, tempfile.write at 1.
    destruct (IH (set_fs (<[tmp := (default 0 (fs w !! tmp)
                                   + N.of_nat (length c))%N]> (fs w)) w))
      as (w' & Hrun & Hlog).
    exists w'. split; [exact Hrun | exact Hlog].
Qed.

(** Every successful run of [_transcribir_archivo]: one chunk, or as many
    as segment files were produced. *)
Lemma archivo_chunk_count (filepath : path) (chunk_if_needed : bool)
    (w : World) r w' :
  _transcribir_archivo env self filepath language model prompt format
                       chunk_if_needed w = (Ok r, w') ->
  exists evs,
    log w' = (log w ++ evs)%list
    /\ (chunks r = 1%nat \/ chunks r = length (Log.materialized evs))
    /\ (chunks r = 0%nat -> text r = "").
Proof.
  intros Hrun.
  destruct (resolve_audio env filepath w) as [[audio | e] w1] eqn:Hres.
  2:{ unfold _transcribir_archivo, bind at 1 in Hrun. rewrite Hres in Hrun.
      discriminate. }
  destruct (fs w1 !! audio) as [size |] eqn:Hsize.
  2:{ unfold _transcribir_archivo, bind at 1 in Hrun. rewrite Hres in Hrun.
      unfold get_duration, bind at 1, subprocess.run_ffprobe in Hrun.
      unfold bind at 1, os.getsize in Hrun. simpl in Hrun.
      rewrite Hsize in Hrun. discriminate. }
  rewrite (transcribir_archivo_run _ _ _ _ _ _ _ _ _ _ _ _ Hres Hsize) in Hrun.
  cbv zeta in Hrun.
  apply resolve_audio_log in Hres as (evs0 & Hlog0 & _ & _ & Hm0 & _).
  destruct ((25 * MB <? size)%N && chunk_if_needed).
  - apply transcribir_chunks_log in Hrun as (evs & Hlog & Hok & _).
    destruct (Hok _ eq_refl) as (texts & -> & Htexts & Hk).
    simpl in Hlog. eexists. split.
    { rewrite Hlog, Hlog0, <- !app_assoc. reflexivity. }
    simpl. rewrite !materialized_app, Hm0. simpl.
    assert (Hlen : length texts = length (Log.uploads evs)).
    { apply (f_equal (@length _)) in Htexts. rewrite !length_map in Htexts.
      congruence. }
    split.
    + destruct (known _).
      * destruct Hk as (Hfiles & _). right.
        rewrite <- Hfiles, length_map. reflexivity.
      * destruct Hk as (_ & Hfiles). left.
        apply (f_equal (@length _)) in Hfiles. rewrite length_map in Hfiles.
        exact Hfiles.
    + intros H0. rewrite H0 in Hlen. destruct texts; [reflexivity | discriminate].
  - destruct (_call_api _ _ _ _ _ _ _ _) as [[t | e] w2] eqn:Hcall;
      [| discriminate].
    injection Hrun as <- <-. rewrite call_api_run in Hcall.
    change (fs (probed env audio w1)) with (fs w1) in Hcall.
    rewrite Hsize in Hcall. cbv zeta in Hcall.
    injection Hcall as _ <-. simpl. eexists. split.
    { rewrite Hlog0, <- !app_assoc. reflexivity. }
    split; [auto | discriminate].
Qed.

(** An upload that fails ends the run of [_transcribir_archivo]: it is the
    last upload, and its exception is the outcome. *)
Lemma archivo_abort (filepath : path) (chunk_if_needed : bool) (w : World)
    res w' :
  _transcribir_archivo env self filepath language model prompt format
                       chunk_if_needed w = (res, w') ->
  exists evs,
    log w' = (log w ++ evs)%list
    /\ (forall ups1 u ups2 e,
          Log.uploads evs = (ups1 ++ u :: ups2)%list ->
          call_result format (snd u) = Raise e ->
          ups2 = [] /\ res = Raise e).
Proof.
  intros Hrun.
  destruct (resolve_audio env filepath w) as [[audio | e0] w1] eqn:Hres.
  2:{ unfold _transcribir_archivo, bind at 1 in Hrun. rewrite Hres in Hrun.
      injection Hrun as <- <-.
      apply resolve_audio_log in Hres as (evs0 & Hlog0 & Hup0 & _).
      exists evs0. split; [exact Hlog0 |].
      intros ups1 u ups2 e Hup. rewrite Hup0 in Hup.
      destruct ups1; discriminate. }
  pose proof (resolve_audio_log _ _ _ _ Hres) as (evs0 & Hlog0 & Hup0 & _).
  destruct (fs w1 !! audio) as [size |] eqn:Hsize.
  2:{ unfold _transcribir_archivo, bind at 1 in Hrun. rewrite Hres in Hrun.
      unfold get_duration, bind at 1, subprocess.run_ffprobe in Hrun.
      unfold bind at 1, os.getsize in Hrun. simpl in Hrun.
      rewrite Hsize in Hrun. injection Hrun as <- <-. simpl.
      eexists. split; [rewrite Hlog0, <- app_assoc; reflexivity |].
      intros ups1 u ups2 e Hup. rewrite uploads_app, Hup0 in Hup.
      destruct ups1; discriminate. }
  rewrite (transcribir_archivo_run _ _ _ _ _ _ _ _ _ _ _ _ Hres Hsize) in Hrun.
  cbv zeta in Hrun.
  destruct ((25 * MB <? size)%N && chunk_if_needed).
  - apply transcribir_chunks_log in Hrun as (evs & Hlog & _ & Hab).
    simpl in Hlog. eexists. split.
    { rewrite Hlog, Hlog0, <- !app_assoc. reflexivity. }
    intros ups1 u ups2 e Hup.
    rewrite !uploads_app, Hup0 in Hup. simpl in Hup. eauto.
  - rewrite call_api_run in Hrun.
    change (fs (probed env audio w1)) with (fs w1) in Hrun.
    rewrite Hsize in Hrun. cbv zeta in Hrun.
    set (q := build_request self audio language model prompt format) in *.
    set (o := groq env _ q) in *.
    destruct (call_result format o) as [t | e0] eqn:Hcall;
      injection Hrun as <- <-; simpl; (eexists; split;
        [rewrite Hlog0, <- !app_assoc; reflexivity |]);
      intros ups1 u ups2 e Hup Hu;
      rewrite !uploads_app, Hup0 in Hup; simpl in Hup;
      destruct ups1 as [| u1 [| u2 ups1]]; simpl in Hup; try discriminate;
      injection Hup as <- <-; simpl in Hu; split; congruence.
Qed.

(** [_transcribir_fileobject]: either the object is of no supported kind,
    or the call is a run of [_transcribir_archivo] on the temporary copy,
    followed by its removal. *)
Lemma fileobject_run (fileobj : FileObj) (w : World) res w' :
  _transcribir_fileobject env self fileobj language model prompt format w
  = (res, w') ->
  let tmp := TmpPath (temps w) ".tmp" in
  (fo_read fileobj = None /\ fo_file fileobj = None
   /\ res = Raise (ValueError "Tipo de archivo no soportado")
   /\ log w' = (log w ++ [EvTemp tmp])%list
   /\ is_Some (fs w' !! tmp))
  \/ exists wb w2 tail,
       log wb = (log w ++ [EvTemp tmp])%list
       /\ _transcribir_archivo env self tmp language model prompt format true
                               wb = (res, w2)
       /\ log w' = (log w2 ++ tail)%list
       /\ (tail = [] \/ tail = [EvRemove tmp])
       /\ fs w' !! tmp = None.
Proof.
  intros Hrun tmp. unfold _transcribir_fileobject in Hrun.
  unfold bind at 1, tempfile.NamedTemporaryFile in Hrun. fold tmp in Hrun.
  unfold bind at 1 in Hrun.
  set (wa := mkWorld _ _ _ _ _ _ _) in Hrun.
  assert (Hwa : log wa = (log w ++ [EvTemp tmp])%list) by reflexivity.
  assert (Hcont : forall wb,
            log wb = log wa ->
            try_finally
              (_transcribir_archivo env self tmp language model prompt format
                                    true)
              (os.remove_if_exists tmp) wb = (res, w') ->
            exists w2 tail,
              _transcribir_archivo env self tmp language model prompt format
                                   true wb = (res, w2)
              /\ log w' = (log w2 ++ tail)%list
              /\ (tail = [] \/ tail = [EvRemove tmp])
              /\ fs w' !! tmp = None).
  { intros wb _ Htf. unfold try_finally in Htf.
    destruct (_transcribir_archivo _ _ _ _ _ _ _ _ wb) as [res2 w2].
    rewrite remove_if_exists_run in Htf.
    destruct (fs w2 !! tmp) eqn:Htmp; injection Htf as <- <-.
    - exists w2, [EvRemove tmp]. simpl. split_and!; auto.
      apply lookup_delete_eq.
    - exists w2, []. rewrite app_nil_r. split_and!; auto. }
  destruct (fo_read fileobj) as [data |] eqn:Hread.
  - right. unfold tempfile.write at 1 in Hrun.
    edestruct Hcont as (w2 & tail & H); [| exact Hrun |]; [reflexivity |].
    eexists _, w2, tail. split; [| exact H]. exact Hwa.
  - destruct (fo_file fileobj) as [pieces |] eqn:Hfile.
    + right.
      destruct (write_pieces_run tmp pieces wa) as (wb & Hw & Hlogb).
      rewrite Hw in Hrun.
      edestruct Hcont as (w2 & tail & H); [exact Hlogb | exact Hrun |].
      exists wb, w2, tail. split; [| exact H]. congruence.
    + left. injection Hrun as <- <-. split_and!; auto.
      subst wa. simpl. rewrite lookup_insert_eq. eauto.
Qed.

End Orchestrator.

Lemma transcribir_str_run (env : Env) (self : Transcriptor.t)
    (filepath : path) (language : string) (model : option string)
    (prompt format : string) (chunk_if_needed : bool) (w : World) :
  is_Some (fs w !! filepath) ->
  transcribir env self (ArchivoStr filepath) language model prompt format
              chunk_if_needed w
  = _transcribir_archivo env self filepath language
                         (model_or_default self model) prompt format
                         chunk_if_needed w.
Proof.
  intros Hex. unfold transcribir, bind at 1, os.exists_.
  rewrite bool_decide_eq_true_2 by exact Hex. reflexivity.
Qed.

(** C7.  When the audio the call works on (the file itself, or the audio
    extracted from a video) holds at most 25 MB, [transcribir] runs
    [get_duration] once and never [create_chunks] (no second probe, no
    segment command), uploads the whole audio file exactly once, and what
    it returns is decided by that one upload: a result with [chunks = 1]
    when the upload succeeds, its exception otherwise. *)
Theorem small_file_single_call (env : Env) (self : Transcriptor.t)
    (language prompt format : string) (filepath audio : path) (size : N)
    (model : option string) (chunk_if_needed : bool) (w w1 : World) res w' :
  is_Some (fs w !! filepath) ->
  resolve_audio env filepath w = (Ok audio, w1) ->
  fs w1 !! audio = Some size ->
  (size <= 25 * MB)%N ->
  transcribir env self (ArchivoStr filepath) language model prompt format
              chunk_if_needed w = (res, w') ->
  exists evs o,
    log w' = (log w ++ evs)%list
    /\ probes w' = S (probes w)
    /\ Log.segments evs = []
    /\ Log.uploads evs
       = [(build_request self audio language (model_or_default self model)
                         prompt format, o)]
    /\ res = match call_result format o with
             | Ok t => Ok (mkResult t language (ffprobe env (probes w) audio)
                                    true (model_or_default self model) 1)
             | Raise e => Raise e
             end
    /\ (forall r, res = Ok r -> chunks r = 1%nat).
Proof.
  intros Hex Hres Hsize Hsmall Hrun.
  rewrite transcribir_str_run in Hrun by exact Hex.
  rewrite (transcribir_archivo_run _ _ _ _ _ _ _ _ _ _ _ _ Hres Hsize) in Hrun.
  cbv zeta in Hrun.
  replace (25 * MB <? size)%N with false in Hrun
    by (symmetry; apply N.ltb_ge; exact Hsmall).
  simpl in Hrun. rewrite call_api_run in Hrun.
  change (fs (probed env audio w1)) with (fs w1) in Hrun.
  rewrite Hsize in Hrun. cbv zeta in Hrun.
  apply resolve_audio_log in Hres
    as (evs0 & Hlog0 & Hup0 & Hseg0 & _ & _ & Hpr & Hpo & _).
  set (q := build_request self audio language _ prompt format) in *.
  set (o := groq env _ q) in *.
  exists (evs0 ++ [EvProbe audio (ffprobe env (probes w1) audio); EvPost q o])%list, o.
  rewrite uploads_app, segments_app, Hup0, Hseg0, <- Hpr. simpl.
  destruct (call_result format o) as [t | e] eqn:Hcall;
    injection Hrun as <- <-; simpl; rewrite Hlog0, <- !app_assoc, Hpr;
    split_and!; try done.
  intros r [= <-]. reflexivity.
Qed.

Lemma small_file_single_call_witness :
  exists evs o,
    log (snd (Scenario.run Scenario.env_ok Scenario.note))
    = (log Scenario.world ++ evs)%list
    /\ probes (snd (Scenario.run Scenario.env_ok Scenario.note))
       = S (probes Scenario.world)
    /\ Log.segments evs = []
    /\ Log.uploads evs
       = [(build_request Scenario.self Scenario.note "es"
                         (model_or_default Scenario.self None) "" "json", o)]
    /\ fst (Scenario.run Scenario.env_ok Scenario.note)
       = match call_result "json" o with
         | Ok t => Ok (mkResult t "es"
                         (ffprobe Scenario.env_ok (probes Scenario.world)
                                  Scenario.note)
                         true (model_or_default Scenario.self None) 1)
         | Raise e => Raise e
         end
    /\ (forall r, fst (Scenario.run Scenario.env_ok Scenario.note) = Ok r ->
                  chunks r = 1%nat).
Proof.
  apply (small_file_single_call Scenario.env_ok Scenario.self "es" "" "json"
           Scenario.note Scenario.note 10485760%N None true
           Scenario.world Scenario.world).
  - vm_compute. eauto.
  - reflexivity.
  - vm_compute. reflexivity.
  - vm_compute. discriminate.
  - vm_compute. reflexivity.
Defined.


(** The two loops of the chunked path never probe. *)
Lemma create_loop_probes (env : Env) (audio : path) (d : Q)
    (chunk_duration overlap : Z) (indices : list nat) :
  forall (acc : list path) (w : World) res w',
    for_each indices (create_chunk env audio d chunk_duration overlap) acc w
    = (res, w') ->
    probes w' = probes w.
Proof.
  induction indices as [| i rest IH]; intros acc w res w' Hrun.
  - injection Hrun as _ <-. reflexivity.
  - simpl in Hrun. unfold bind at 1 in Hrun.
    rewrite create_chunk_run in Hrun. cbv zeta in Hrun.
    destruct (ffmpeg env (ffmpegs w) _) as [n | err |].
    + apply IH in Hrun. exact Hrun.
    + apply IH in Hrun. exact Hrun.
    + injection Hrun as _ <-. reflexivity.
Qed.

Lemma transcribe_loop_probes (env : Env) (self : Transcriptor.t)
    (language model prompt format : string) (cs : list path) :
  forall (texts : list string) (w : World) res w',
    for_each cs (transcribe_chunk env self language model prompt format)
             texts w = (res, w') ->
    probes w' = probes w.
Proof.
  induction cs as [| p rest IH]; intros texts w res w' Hrun.
  - injection Hrun as _ <-. reflexivity.
  - simpl in Hrun. unfold bind at 1 in Hrun.
    rewrite transcribe_chunk_run in Hrun.
    destruct (fs w !! p) as [sz |].
    + cbv zeta in Hrun. destruct (call_result format _) as [t | e].
      * apply IH in Hrun. exact Hrun.
      * injection Hrun as _ <-. reflexivity.
    + injection Hrun as _ <-. reflexivity.
Qed.

(** [_transcribir_chunks] always enters [create_chunks], which probes the
    audio file once more, whatever the caller already knows. *)
Lemma transcribir_chunks_probes (env : Env) (self : Transcriptor.t)
    (language model prompt format : string) (audio : path) (dur : option Q)
    (w : World) res w' :
  _transcribir_chunks env self audio dur language model prompt format w
  = (res, w') ->
  probes w' = S (probes w).
Proof.
  intros Hrun. unfold _transcribir_chunks in Hrun. unfold bind at 1 in Hrun.
  destruct (create_chunks env audio (4 * 60) 15 w) as [[cs | e] w1] eqn:Hcc.
  - assert (Hp1 : probes w1 = S (probes w)).
    { unfold create_chunks, get_duration in Hcc.
      unfold bind at 1, subprocess.run_ffprobe in Hcc.
      destruct (known (ffprobe env (probes w) audio)) as [d |].
      - change (4 * 60 - 15 =? 0)%Z with false in Hcc. cbv iota in Hcc.
        apply create_loop_probes in Hcc. exact Hcc.
      - injection Hcc as _ <-. reflexivity. }
    unfold bind at 1 in Hrun.
    destruct (for_each cs _ [] w1) as [[texts | e] w2] eqn:Hup;
      injection Hrun as _ <-;
      apply transcribe_loop_probes in Hup; congruence.
  - injection Hrun as _ <-.
    unfold create_chunks, get_duration in Hcc.
    unfold bind at 1, subprocess.run_ffprobe in Hcc.
    destruct (known (ffprobe env (probes w) audio)) as [d |].
    + change (4 * 60 - 15 =? 0)%Z with false in Hcc. cbv iota in Hcc.
      apply create_loop_probes in Hcc. exact Hcc.
    + discriminate Hcc.
Qed.

(** C4, as stated, fails.  On a file of more than 25 MB [create_chunks] is
    entered although the probe of [_transcribir_archivo] gave no duration:
    it probes the file a second time.  When that second probe fails too the
    file goes up whole, but the run has two probes; when it succeeds the
    file is cut into three segments and uploaded in three calls, none of
    them of the whole file, and the result reports no duration and three
    chunks. *)
Lemma unknown_duration_chunked_counterexample :
  fs Scenario.world !! Scenario.lecture = Some 30000000%N
  /\ known (ffprobe Scenario.env_no_probe (probes Scenario.world)
                    Scenario.lecture) = None
  /\ probes (snd (Scenario.run Scenario.env_no_probe Scenario.lecture))
     = S (S (probes Scenario.world))
  /\ known (ffprobe Scenario.env_second_probe (probes Scenario.world)
                    Scenario.lecture) = None
  /\ exists w',
       Scenario.run Scenario.env_second_probe Scenario.lecture
       = (Ok (mkResult (PyStr.join (PyStr.nl +:+ PyStr.nl)
                                   ["uno"; "dos"; "tres"])
                       "es" None true "whisper-large-v3-turbo" 3), w')
       /\ probes w' = S (S (probes Scenario.world))
       /\ Log.segments (log w')
          = plan_arguments (chunk_plan 600 (4 * 60) 15)
       /\ map (fun u => req_file (fst u)) (Log.uploads (log w'))
          = [Scenario.chunk_file 0; Scenario.chunk_file 1;
             Scenario.chunk_file 2]
       /\ ~ (exists u, Log.uploads (log w') = [u]).
Proof.
  split_and!; try (vm_compute; reflexivity).
  exists (snd (Scenario.run Scenario.env_second_probe Scenario.lecture)).
  split_and!; try (vm_compute; reflexivity).
  intros [u Hu]. vm_compute in Hu. discriminate Hu.
Qed.

(** C4, amended.  When the probe of [_transcribir_archivo] gives no
    duration, the size alone decides whether [create_chunks] is entered.
    At most 25 MB, or with chunking switched off: one probe, no segment,
    the whole audio file uploaded exactly once, [chunks = 1].  Above 25 MB
    with chunking allowed: [create_chunks] is entered and probes a second
    time.  If that probe gives no duration either, no window is computed,
    no segment is cut and the whole audio file is uploaded exactly once,
    [chunks = 1]; if it gives a duration, the segments are those of the
    window plan, the uploads are the segment files produced, and [chunks]
    counts them.  The duration a result reports is always that of the
    first probe. *)
Theorem unknown_duration_chunker_by_size (env : Env) (self : Transcriptor.t)
    (language prompt format : string) (filepath audio : path) (size : N)
    (model : option string) (chunk_if_needed : bool) (w w1 : World) res w' :
  is_Some (fs w !! filepath) ->
  resolve_audio env filepath w = (Ok audio, w1) ->
  fs w1 !! audio = Some size ->
  known (ffprobe env (probes w) audio) = None ->
  transcribir env self (ArchivoStr filepath) language model prompt format
              chunk_if_needed w = (res, w') ->
  let q := build_request self audio language (model_or_default self model)
                         prompt format in
  let whole evs :=
    Log.segments evs = []
    /\ exists o,
         Log.uploads evs = [(q, o)]
         /\ res = match call_result format o with
                  | Ok t => Ok (mkResult t language
                                  (ffprobe env (probes w) audio) true
                                  (model_or_default self model) 1)
                  | Raise e => Raise e
                  end in
  exists evs,
    log w' = (log w ++ evs)%list
    /\ (forall r, res = Ok r ->
          duration r = ffprobe env (probes w) audio
          /\ known (duration r) = None)
    /\ if (25 * MB <? size)%N && chunk_if_needed
       then probes w' = S (S (probes w))
            /\ match known (ffprobe env (S (probes w)) audio) with
               | None => whole evs
               | Some d =>
                   forall r, res = Ok r ->
                     Log.segments evs
                     = plan_arguments (chunk_plan d (4 * 60) 15)
                     /\ map (fun u => req_file (fst u)) (Log.uploads evs)
                        = Log.materialized evs
                     /\ chunks r = length (Log.uploads evs)
                     /\ (length (Log.uploads evs) + length (Log.dropped evs)
                         = length (chunk_plan d (4 * 60) 15))%nat
               end
       else probes w' = S (probes w) /\ whole evs.
Proof.
  intros Hex Hres Hsize Hfirst Hrun q whole.
  rewrite transcribir_str_run in Hrun by exact Hex.
  rewrite (transcribir_archivo_run _ _ _ _ _ _ _ _ _ _ _ _ Hres Hsize) in Hrun.
  cbv zeta in Hrun.
  apply resolve_audio_log in Hres
    as (evs0 & Hlog0 & Hup0 & Hseg0 & Hmat0 & Hdr0 & Hpr & Hpo & _).
  rewrite Hpr in Hrun.
  destruct ((25 * MB <? size)%N && chunk_if_needed).
  - pose proof (transcribir_chunks_probes _ _ _ _ _ _ _ _ _ _ _ Hrun) as Hp.
    simpl in Hp. rewrite Hpr in Hp.
    destruct (known (ffprobe env (S (probes w)) audio)) as [d |] eqn:Hsecond.
    + pose proof (transcribir_chunks_log _ _ _ _ _ _ _ _ _ _ _ Hrun)
        as (evs & Hlog & Hok & _).
      simpl in Hlog, Hok. rewrite Hpr in Hlog, Hok. rewrite Hsecond in Hok.
      exists (evs0 ++ [EvProbe audio (ffprobe env (probes w) audio)]
                   ++ EvProbe audio (ffprobe env (S (probes w)) audio)
                   :: evs)%list.
      split_and!.
      * rewrite Hlog, Hlog0, <- !app_assoc. reflexivity.
      * intros r Hr. destruct (Hok _ Hr) as (texts & -> & _). simpl. auto.
      * exact Hp.
      * intros r Hr.
        destruct (Hok _ Hr) as (texts & -> & _ & Hfiles & Hsegs & Hlen).
        rewrite !uploads_app, !segments_app, !dropped_app, !materialized_app,
          Hup0, Hseg0, Hmat0, Hdr0. simpl. auto.
    + rewrite transcribir_chunks_unknown in Hrun
        by (simpl; rewrite Hpr; exact Hsecond).
      rewrite transcribe_chunk_run in Hrun.
      change (fs (probed env audio (probed env audio w1))) with (fs w1) in Hrun.
      rewrite Hsize in Hrun. cbv zeta in Hrun. fold q in Hrun.
      set (o := groq env _ q) in *.
      exists (evs0 ++ [EvProbe audio (ffprobe env (probes w) audio);
                       EvProbe audio (ffprobe env (S (probes w)) audio)]
                   ++ EvPost q o
                   :: match call_result format o with
                      | Ok _ => [EvRemove audio]
                      | Raise _ => []
                      end)%list.
      unfold whole.
      rewrite uploads_app, segments_app, Hup0, Hseg0. simpl.
      destruct (call_result format o) as [t | e] eqn:Hcall;
        injection Hrun as <- <-; simpl; rewrite Hlog0, <- !app_assoc, Hpr;
        split_and!; try done;
        try (intros r [= <-]; simpl; auto);
        try (exists o; rewrite ?Hcall; auto).
  - rewrite call_api_run in Hrun.
    change (fs (probed env audio w1)) with (fs w1) in Hrun.
    rewrite Hsize in Hrun. cbv zeta in Hrun. fold q in Hrun.
    set (o := groq env _ q) in *.
    exists (evs0 ++ [EvProbe audio (ffprobe env (probes w) audio);
                     EvPost q o])%list.
    unfold whole.
    rewrite uploads_app, segments_app, Hup0, Hseg0. simpl.
    destruct (call_result format o) as [t | e] eqn:Hcall;
      injection Hrun as <- <-; simpl; rewrite Hlog0, <- !app_assoc, Hpr;
      split_and!; try done;
      try (intros r [= <-]; simpl; auto);
      try (exists o; rewrite ?Hcall; auto).
Qed.

Lemma unknown_duration_chunker_by_size_witness :
  let run := Scenario.run Scenario.env_second_probe Scenario.lecture in
  exists evs,
    log (snd run) = (log Scenario.world ++ evs)%list
    /\ (forall r, fst run = Ok r ->
          duration r = None /\ known (duration r) = None)
    /\ probes (snd run) = S (S (probes Scenario.world))
    /\ (forall r, fst run = Ok r ->
          Log.segments evs = plan_arguments (chunk_plan 600 (4 * 60) 15)
          /\ map (fun u => req_file (fst u)) (Log.uploads evs)
             = Log.materialized evs
          /\ chunks r = length (Log.uploads evs)
          /\ (length (Log.uploads evs) + length (Log.dropped evs)
              = length (chunk_plan 600 (4 * 60) 15))%nat).
Proof.
  apply (unknown_duration_chunker_by_size Scenario.env_second_probe
           Scenario.self "es" "" "json" Scenario.lecture Scenario.lecture
           30000000%N None true Scenario.world Scenario.world).
  - vm_compute. eauto.
  - reflexivity.
  - vm_compute. reflexivity.
  - reflexivity.
  - vm_compute. reflexivity.
Defined.

(** C10.  When the audio file holds more than 25 MB, chunking is allowed
    and probing it gives no duration, [create_chunks] returns the
    one-element list holding the audio file's own path; the transcription
    loop uploads that file and, once it is transcribed, removes it.  After
    the call the audio file no longer exists; for an input that is not a
    video this is the caller's own file. *)
Theorem unknown_duration_deletes_source (env : Env) (self : Transcriptor.t)
    (language prompt format : string) (filepath audio : path) (size : N)
    (model : option string) (w w1 : World) (t : string) :
  is_Some (fs w !! filepath) ->
  resolve_audio env filepath w = (Ok audio, w1) ->
  fs w1 !! audio = Some size ->
  (25 * MB < size)%N ->
  (forall n, known (ffprobe env n audio) = None) ->
  call_result format
    (groq env (posts w)
          (build_request self audio language (model_or_default self model)
                         prompt format)) = Ok t ->
  (forall w2, fst (create_chunks env audio (4 * 60) 15 w2) = Ok [audio])
  /\ (is_video filepath = false -> audio = filepath)
  /\ exists w' o,
       transcribir env self (ArchivoStr filepath) language model prompt
                   format true w
       = (Ok (mkResult t language (ffprobe env (probes w) audio) true
                       (model_or_default self model) 1), w')
       /\ log w'
          = (log w1
             ++ [EvProbe audio (ffprobe env (probes w) audio);
                 EvProbe audio (ffprobe env (S (probes w)) audio);
                 EvPost (build_request self audio language
                                       (model_or_default self model) prompt
                                       format) o;
                 EvRemove audio])%list
       /\ fs w' !! audio = None.
Proof.
  intros Hex Hres Hsize Hbig Hunknown Hcall.
  split_and!.
  - intros w2. unfold create_chunks, get_duration, bind,
      subprocess.run_ffprobe. rewrite Hunknown. reflexivity.
  - intros Hv. unfold resolve_audio in Hres. rewrite Hv in Hres.
    injection Hres as <- _. reflexivity.
  - rewrite transcribir_str_run by exact Hex.
    rewrite (transcribir_archivo_run _ _ _ _ _ _ _ _ _ _ _ _ Hres Hsize).
    cbv zeta.
    replace (25 * MB <? size)%N with true
      by (symmetry; apply N.ltb_lt; exact Hbig).
    simpl andb. cbv iota.
    rewrite transcribir_chunks_unknown by apply Hunknown.
    rewrite transcribe_chunk_run.
    change (fs (probed env audio (probed env audio w1))) with (fs w1).
    rewrite Hsize. cbv zeta.
    apply resolve_audio_log in Hres as (_ & _ & _ & _ & _ & _ & Hpr & Hpo & _).
    change (posts (probed env audio (probed env audio w1))) with (posts w1).
    rewrite Hpo, Hcall. simpl. rewrite !Hpr, <- !app_assoc. simpl.
    eexists _, _. split_and!; try reflexivity.
    simpl. apply lookup_delete_eq.
Qed.

Lemma unknown_duration_deletes_source_witness :
  (forall w2,
     fst (create_chunks Scenario.env_no_probe Scenario.lecture (4 * 60) 15 w2)
     = Ok [Scenario.lecture])
  /\ (is_video Scenario.lecture = false -> Scenario.lecture = Scenario.lecture)
  /\ exists w' o,
       transcribir Scenario.env_no_probe Scenario.self
                   (ArchivoStr Scenario.lecture) "es" None "" "json" true
                   Scenario.world
       = (Ok (mkResult "uno" "es"
                (ffprobe Scenario.env_no_probe (probes Scenario.world)
                         Scenario.lecture)
                true (model_or_default Scenario.self None) 1), w')
       /\ log w'
          = (log Scenario.world
             ++ [EvProbe Scenario.lecture
                   (ffprobe Scenario.env_no_probe (probes Scenario.world)
                            Scenario.lecture);
                 EvProbe Scenario.lecture
                   (ffprobe Scenario.env_no_probe
                            (S (probes Scenario.world)) Scenario.lecture);
                 EvPost (build_request Scenario.self Scenario.lecture "es"
                           (model_or_default Scenario.self None) "" "json") o;
                 EvRemove Scenario.lecture])%list
       /\ fs w' !! Scenario.lecture = None.
Proof.
  apply (unknown_duration_deletes_source Scenario.env_no_probe Scenario.self
           "es" "" "json" Scenario.lecture Scenario.lecture 30000000%N None
           Scenario.world Scenario.world "uno").
  - vm_compute. eauto.
  - reflexivity.
  - vm_compute. reflexivity.
  - vm_compute. reflexivity.
  - intros n. reflexivity.
  - vm_compute. reflexivity.
Defined.

Lemma all_uploads_answered (format : string)
    (ups : list (Request * PostOutcome)) (texts : list string) :
  map (fun u => call_result format (snd u)) ups = map Ok texts ->
  Forall (fun u => exists t, call_result format (snd u) = Ok t) ups.
Proof.
  revert texts. induction ups as [| u ups IH]; intros texts Hmap.
  - constructor.
  - destruct texts as [| t texts]; [discriminate |].
    simpl in Hmap. injection Hmap as Hu Hrest.
    constructor; [eauto | eapply IH; exact Hrest].
Qed.

(** The chunked path, seen from [transcribir]: the audio file holds more
    than 25 MB and chunking is allowed. *)
Lemma chunked_path_log (env : Env) (self : Transcriptor.t)
    (language prompt format : string) (filepath audio : path) (size : N)
    (model : option string) (w w1 : World) res w' :
  is_Some (fs w !! filepath) ->
  resolve_audio env filepath w = (Ok audio, w1) ->
  fs w1 !! audio = Some size ->
  (25 * MB < size)%N ->
  transcribir env self (ArchivoStr filepath) language model prompt format
              true w = (res, w') ->
  exists evs0 evs,
    log w' = (log w ++ evs0 ++ evs)%list
    /\ Log.uploads evs0 = [] /\ Log.segments evs0 = []
    /\ Log.materialized evs0 = [] /\ Log.dropped evs0 = []
    /\ forall r, res = Ok r ->
         exists texts,
           r = mkResult (PyStr.join (PyStr.nl +:+ PyStr.nl) texts) language
                        (ffprobe env (probes w) audio) true
                        (model_or_default self model)
                        (length (Log.uploads evs))
           /\ map (fun u => call_result format (snd u)) (Log.uploads evs)
              = map Ok texts
           /\ match known (ffprobe env (S (probes w)) audio) with
              | None =>
                  Log.segments evs = []
                  /\ map (fun u => req_file (fst u)) (Log.uploads evs)
                     = [audio]
              | Some d =>
                  map (fun u => req_file (fst u)) (Log.uploads evs)
                  = Log.materialized evs
                  /\ Log.segments evs
                     = plan_arguments (chunk_plan d (4 * 60) 15)
                  /\ (length (Log.uploads evs) + length (Log.dropped evs)
                      = length (chunk_plan d (4 * 60) 15))%nat
              end.
Proof.
  intros Hex Hres Hsize Hbig Hrun.
  rewrite transcribir_str_run in Hrun by exact Hex.
  rewrite (transcribir_archivo_run _ _ _ _ _ _ _ _ _ _ _ _ Hres Hsize) in Hrun.
  cbv zeta in Hrun.
  replace (25 * MB <? size)%N with true in Hrun
    by (symmetry; apply N.ltb_lt; exact Hbig).
  simpl andb in Hrun. cbv iota in Hrun.
  apply resolve_audio_log in Hres
    as (evs0 & Hlog0 & Hup0 & Hseg0 & Hm0 & Hd0 & Hpr & _).
  apply transcribir_chunks_log in Hrun as (evs & Hlog & Hok & _).
  simpl in Hlog, Hok. rewrite Hpr in Hlog, Hok.
  exists (evs0 ++ [EvProbe audio (ffprobe env (probes w) audio);
                   EvProbe audio (ffprobe env (S (probes w)) audio)])%list,
         evs.
  rewrite uploads_app, segments_app, materialized_app, dropped_app.
  rewrite Hup0, Hseg0, Hm0, Hd0. simpl.
  split_and!; try done.
  rewrite Hlog, Hlog0, <- !app_assoc. reflexivity.
Qed.

(** On the chunked path a result is returned as soon as ffmpeg can be
    started and every upload is answered with a transcription. *)
Lemma chunked_path_returns (env : Env) (self : Transcriptor.t)
    (language prompt format : string) (filepath audio : path) (size : N)
    (model : option string) (w w1 : World) :
  is_Some (fs w !! filepath) ->
  resolve_audio env filepath w = (Ok audio, w1) ->
  fs w1 !! audio = Some size ->
  (25 * MB < size)%N ->
  (forall n c, ffmpeg env n c <> ProcMissing) ->
  (forall n q, exists t, call_result format (groq env n q) = Ok t) ->
  exists r w',
    transcribir env self (ArchivoStr filepath) language model prompt format
                true w = (Ok r, w').
Proof.
  intros Hex Hres Hsize Hbig Hff Hgroq.
  rewrite transcribir_str_run by exact Hex.
  rewrite (transcribir_archivo_run _ _ _ _ _ _ _ _ _ _ _ _ Hres Hsize).
  cbv zeta.
  replace (25 * MB <? size)%N with true
    by (symmetry; apply N.ltb_lt; exact Hbig).
  simpl andb. cbv iota.
  apply transcribir_chunks_total; [exact Hff | exact Hgroq |].
  simpl. rewrite Hsize. eauto.
Qed.

(** C6.  On the chunked path (more than 25 MB of audio, chunking allowed)
    the [chunks] field of the result counts the files that were uploaded,
    each of which was transcribed.  With a known duration these are exactly
    the segment files ffmpeg produced: every window of the plan was tried
    once, in order, a window whose ffmpeg run failed was dropped and is not
    counted, so that [chunks] plus the number of dropped windows is the
    number of planned ones.  Failed segment commands do not keep the call
    from returning: a result is returned whenever ffmpeg can be started and
    every upload is answered with a transcription. *)
Theorem chunk_count_counts_materialized (env : Env) (self : Transcriptor.t)
    (language prompt format : string) (filepath audio : path) (size : N)
    (model : option string) (w w1 : World) res w' :
  is_Some (fs w !! filepath) ->
  resolve_audio env filepath w = (Ok audio, w1) ->
  fs w1 !! audio = Some size ->
  (25 * MB < size)%N ->
  transcribir env self (ArchivoStr filepath) language model prompt format
              true w = (res, w') ->
  ((forall n c, ffmpeg env n c <> ProcMissing) ->
   (forall n q, exists t, call_result format (groq env n q) = Ok t) ->
   exists r, res = Ok r)
  /\ forall r, res = Ok r ->
       exists evs,
         log w' = (log w ++ evs)%list
         /\ chunks r = length (Log.uploads evs)
         /\ Forall (fun u => exists t, call_result format (snd u) = Ok t)
                   (Log.uploads evs)
         /\ match known (ffprobe env (S (probes w)) audio) with
            | Some d =>
                map (fun u => req_file (fst u)) (Log.uploads evs)
                = Log.materialized evs
                /\ chunks r = length (Log.materialized evs)
                /\ Log.segments evs
                   = plan_arguments (chunk_plan d (4 * 60) 15)
                /\ (chunks r + length (Log.dropped evs)
                    = length (chunk_plan d (4 * 60) 15))%nat
            | None =>
                map (fun u => req_file (fst u)) (Log.uploads evs) = [audio]
                /\ Log.segments evs = []
            end.
Proof.
  intros Hex Hres Hsize Hbig Hrun. split.
  - intros Hff Hgroq.
    destruct (chunked_path_returns env self language prompt format filepath
                audio size model w w1 Hex Hres Hsize Hbig Hff Hgroq)
      as (r & w2 & Hret).
    rewrite Hret in Hrun. injection Hrun as <- _. eauto.
  - intros r ->.
    destruct (chunked_path_log _ _ _ _ _ _ _ _ _ _ _ _ _
                Hex Hres Hsize Hbig Hrun)
      as (evs0 & evs & Hlog & Hup0 & Hseg0 & Hm0 & Hd0 & Hok).
    destruct (Hok _ eq_refl) as (texts & -> & Htexts & Hk).
    exists (evs0 ++ evs)%list.
    rewrite uploads_app, segments_app, materialized_app, dropped_app.
    rewrite Hup0, Hseg0, Hm0, Hd0. simpl.
    split_and!; try done.
    + eapply all_uploads_answered. exact Htexts.
    + destruct (known _) as [d |].
      * destruct Hk as (Hfiles & Hseg & Hcount). split_and!; try done.
        rewrite <- Hfiles, length_map. reflexivity.
      * destruct Hk as (Hseg & Hfiles). auto.
Qed.

Lemma chunk_count_counts_materialized_witness :
  let run := Scenario.run Scenario.env_one_drop Scenario.lecture in
  ((forall n c, ffmpeg Scenario.env_one_drop n c <> ProcMissing) ->
   (forall n q,
      exists t, call_result "json" (groq Scenario.env_one_drop n q) = Ok t) ->
   exists r, fst run = Ok r)
  /\ forall r, fst run = Ok r ->
       exists evs,
         log (snd run) = (log Scenario.world ++ evs)%list
         /\ chunks r = length (Log.uploads evs)
         /\ Forall (fun u => exists t, call_result "json" (snd u) = Ok t)
                   (Log.uploads evs)
         /\ match known (ffprobe Scenario.env_one_drop
                                 (S (probes Scenario.world))
                                 Scenario.lecture) with
            | Some d =>
                map (fun u => req_file (fst u)) (Log.uploads evs)
                = Log.materialized evs
                /\ chunks r = length (Log.materialized evs)
                /\ Log.segments evs
                   = plan_arguments (chunk_plan d (4 * 60) 15)
                /\ (chunks r + length (Log.dropped evs)
                    = length (chunk_plan d (4 * 60) 15))%nat
            | None =>
                map (fun u => req_file (fst u)) (Log.uploads evs)
                = [Scenario.lecture]
                /\ Log.segments evs = []
            end.
Proof.
  apply (chunk_count_counts_materialized Scenario.env_one_drop Scenario.self
           "es" "" "json" Scenario.lecture Scenario.lecture 30000000%N None
           Scenario.world Scenario.world).
  - vm_compute. eauto.
  - reflexivity.
  - vm_compute. reflexivity.
  - vm_compute. reflexivity.
  - vm_compute. reflexivity.
Defined.

(** C8.  On the chunked path the text of the result is the texts returned
    by the uploads, in upload order, joined by a blank line; the uploads
    follow the order of the chunk list, which is the order of the plan.
    The result exists whenever ffmpeg can be started and every upload is
    answered with a transcription. *)
Theorem merged_text_is_join (env : Env) (self : Transcriptor.t)
    (language prompt format : string) (filepath audio : path) (size : N)
    (model : option string) (w w1 : World) res w' :
  is_Some (fs w !! filepath) ->
  resolve_audio env filepath w = (Ok audio, w1) ->
  fs w1 !! audio = Some size ->
  (25 * MB < size)%N ->
  transcribir env self (ArchivoStr filepath) language model prompt format
              true w = (res, w') ->
  ((forall n c, ffmpeg env n c <> ProcMissing) ->
   (forall n q, exists t, call_result format (groq env n q) = Ok t) ->
   exists r, res = Ok r)
  /\ forall r, res = Ok r ->
       exists evs texts,
         log w' = (log w ++ evs)%list
         /\ map (fun u => call_result format (snd u)) (Log.uploads evs)
            = map Ok texts
         /\ map (fun u => req_file (fst u)) (Log.uploads evs)
            = match known (ffprobe env (S (probes w)) audio) with
              | Some _ => Log.materialized evs
              | None => [audio]
              end
         /\ chunks r = length texts
         /\ text r = PyStr.join (PyStr.nl +:+ PyStr.nl) texts
         /\ (forall t1 t2 t3,
               texts = [t1; t2; t3] ->
               text r = t1 +:+ PyStr.nl +:+ PyStr.nl +:+ t2
                           +:+ PyStr.nl +:+ PyStr.nl +:+ t3).
Proof.
  intros Hex Hres Hsize Hbig Hrun. split.
  - intros Hff Hgroq.
    destruct (chunked_path_returns env self language prompt format filepath
                audio size model w w1 Hex Hres Hsize Hbig Hff Hgroq)
      as (r & w2 & Hret).
    rewrite Hret in Hrun. injection Hrun as <- _. eauto.
  - intros r ->.
    destruct (chunked_path_log _ _ _ _ _ _ _ _ _ _ _ _ _
                Hex Hres Hsize Hbig Hrun)
      as (evs0 & evs & Hlog & Hup0 & Hseg0 & Hm0 & Hd0 & Hok).
    destruct (Hok _ eq_refl) as (texts & -> & Htexts & Hk).
    exists (evs0 ++ evs)%list, texts.
    rewrite uploads_app, materialized_app, Hup0, Hm0. simpl.
    split_and!; try done.
    + destruct (known _) as [d |]; [apply Hk | apply Hk].
    + apply (f_equal (@length _)) in Htexts. rewrite !length_map in Htexts.
      exact Htexts.
    + intros t1 t2 t3 ->. reflexivity.
Qed.

Lemma merged_text_is_join_witness :
  let run := Scenario.run Scenario.env_ok Scenario.lecture in
  ((forall n c, ffmpeg Scenario.env_ok n c <> ProcMissing) ->
   (forall n q,
      exists t, call_result "json" (groq Scenario.env_ok n q) = Ok t) ->
   exists r, fst run = Ok r)
  /\ forall r, fst run = Ok r ->
       exists evs texts,
         log (snd run) = (log Scenario.world ++ evs)%list
         /\ map (fun u => call_result "json" (snd u)) (Log.uploads evs)
            = map Ok texts
         /\ map (fun u => req_file (fst u)) (Log.uploads evs)
            = match known (ffprobe Scenario.env_ok
                                   (S (probes Scenario.world))
                                   Scenario.lecture) with
              | Some _ => Log.materialized evs
              | None => [Scenario.lecture]
              end
         /\ chunks r = length texts
         /\ text r = PyStr.join (PyStr.nl +:+ PyStr.nl) texts
         /\ (forall t1 t2 t3,
               texts = [t1; t2; t3] ->
               text r = t1 +:+ PyStr.nl +:+ PyStr.nl +:+ t2
                           +:+ PyStr.nl +:+ PyStr.nl +:+ t3).
Proof.
  apply (merged_text_is_join Scenario.env_ok Scenario.self
           "es" "" "json" Scenario.lecture Scenario.lecture 30000000%N None
           Scenario.world Scenario.world).
  - vm_compute. eauto.
  - reflexivity.
  - vm_compute. reflexivity.
  - vm_compute. reflexivity.
  - vm_compute. reflexivity.
Defined.

Lemma read_response_error (format : string) (resp : Response) :
  status_code resp <> 200%Z ->
  read_response format resp
  = Raise (Exception ("Error de API Groq: "
                      +:+ PyStr.str_of_Z (status_code resp)
                      +:+ " - " +:+ resp_text resp)).
Proof.
  intros Hne. unfold read_response.
  destruct (status_code resp =? 200)%Z eqn:Hs; [| reflexivity].
  apply Z.eqb_eq in Hs. contradiction.
Qed.

(** Any run of [transcribir]: what it appends to the log, what a failed
    upload does to it, and how many chunks a result reports. *)
Lemma transcribir_log (env : Env) (self : Transcriptor.t)
    (archivo : Archivo) (language : string) (model : option string)
    (prompt format : string) (chunk_if_needed : bool) (w : World) res w' :
  transcribir env self archivo language model prompt format chunk_if_needed w
  = (res, w') ->
  exists evs,
    log w' = (log w ++ evs)%list
    /\ (forall ups1 u ups2 e,
          Log.uploads evs = (ups1 ++ u :: ups2)%list ->
          call_result format (snd u) = Raise e ->
          ups2 = [] /\ res = Raise e)
    /\ (forall r, res = Ok r ->
          (chunks r = 1%nat \/ chunks r = length (Log.materialized evs))
          /\ (chunks r = 0%nat -> text r = "")).
Proof.
  intros Hrun. destruct archivo as [filepath | fileobj].
  - unfold transcribir, bind at 1, os.exists_ in Hrun.
    destruct (bool_decide (is_Some (fs w !! filepath))).
    + simpl in Hrun.
      destruct (archivo_abort _ _ _ _ _ _ _ _ _ _ _ Hrun) as (evs & Hlog & Hab).
      exists evs. split_and!; try done.
      intros r ->.
      destruct (archivo_chunk_count _ _ _ _ _ _ _ _ _ _ _ Hrun)
        as (evs' & Hlog' & Hc).
      rewrite Hlog in Hlog'. apply app_inv_head in Hlog'. subst evs'.
      exact Hc.
    + simpl in Hrun. injection Hrun as <- <-. exists [].
      rewrite app_nil_r. split_and!; try done.
      intros ups1 u ups2 e Hup. destruct ups1; discriminate.
  - unfold transcribir in Hrun.
    apply fileobject_run in Hrun
      as [(_ & _ & -> & Hlog & _)
         | (wb & w2 & tail & Hlogb & Hrun & Hlog & Htail & _)].
    + eexists. split; [exact Hlog |]. split; [| intros r [=]].
      intros ups1 u ups2 e Hup. destruct ups1; discriminate.
    + destruct (archivo_abort _ _ _ _ _ _ _ _ _ _ _ Hrun) as (evs & Hlog2 & Hab).
      exists (EvTemp (TmpPath (temps w) ".tmp") :: evs ++ tail)%list.
      assert (Hup : Log.uploads tail = [] /\ Log.materialized tail = []).
      { destruct Htail as [-> | ->]; auto. }
      destruct Hup as [Hupt Hmt].
      split_and!.
      * rewrite Hlog, Hlog2, Hlogb, <- !app_assoc. reflexivity.
      * intros ups1 u ups2 e Hup.
        simpl in Hup. rewrite uploads_app, Hupt, app_nil_r in Hup. eauto.
      * intros r ->.
        destruct (archivo_chunk_count _ _ _ _ _ _ _ _ _ _ _ Hrun)
          as (evs' & Hlog' & Hc).
        rewrite Hlog2 in Hlog'. apply app_inv_head in Hlog'. subst evs'.
        simpl. rewrite materialized_app, Hmt, app_nil_r. exact Hc.
Qed.

(** C9.  A response whose status is not 200 makes [_call_api] raise an
    exception whose message holds the status code and the raw body, after
    exactly one request.  In any run of [transcribir] such a response is the
    last upload of the run and its exception is the outcome: no further
    chunk is uploaded and no result is returned. *)
Theorem non_200_aborts (env : Env) (self : Transcriptor.t)
    (language prompt format : string) :
  (forall (model : string) (p : path) (w : World) (resp : Response),
     is_Some (fs w !! p) ->
     groq env (posts w) (build_request self p language model prompt format)
     = Responded resp ->
     status_code resp <> 200%Z ->
     exists w',
       _call_api env self p language model prompt format w
       = (Raise (Exception ("Error de API Groq: "
                            +:+ PyStr.str_of_Z (status_code resp)
                            +:+ " - " +:+ resp_text resp)), w')
       /\ log w'
          = (log w
             ++ [EvPost (build_request self p language model prompt format)
                        (Responded resp)])%list
       /\ posts w' = S (posts w))
  /\ (forall (archivo : Archivo) (model : option string)
             (chunk_if_needed : bool) (w : World) res w' evs ups1 q resp ups2,
        transcribir env self archivo language model prompt format
                    chunk_if_needed w = (res, w') ->
        log w' = (log w ++ evs)%list ->
        Log.uploads evs = (ups1 ++ (q, Responded resp) :: ups2)%list ->
        status_code resp <> 200%Z ->
        ups2 = []
        /\ res = Raise (Exception ("Error de API Groq: "
                                   +:+ PyStr.str_of_Z (status_code resp)
                                   +:+ " - " +:+ resp_text resp))).
Proof.
  split.
  - intros model p w resp [sz Hp] Hgroq Hne.
    rewrite call_api_run, Hp. cbv zeta. rewrite Hgroq. simpl.
    rewrite read_response_error by exact Hne.
    eexists. split_and!; reflexivity.
  - intros archivo model chunk_if_needed w res w' evs ups1 q resp ups2
           Hrun Hlog Hup Hne.
    apply transcribir_log in Hrun as (evs' & Hlog' & Hab & _).
    rewrite Hlog in Hlog'. apply app_inv_head in Hlog'. subst evs'.
    eapply Hab; [exact Hup |]. simpl.
    apply read_response_error. exact Hne.
Qed.

Lemma non_200_aborts_witness :
  (exists w',
     _call_api Scenario.env_429 Scenario.self Scenario.note "es"
               "whisper-large-v3-turbo" "" "json"
               (mkWorld (fs Scenario.world) 0 0 0 1 0 [])
     = (Raise (Exception ("Error de API Groq: "
                          +:+ PyStr.str_of_Z
                                (status_code Scenario.rate_limited)
                          +:+ " - " +:+ resp_text Scenario.rate_limited)),
        w')
     /\ log w'
        = ([] ++ [EvPost (build_request Scenario.self Scenario.note "es"
                            "whisper-large-v3-turbo" "" "json")
                         (Responded Scenario.rate_limited)])%list
     /\ posts w' = 2%nat)
  /\ ([] = @nil (Request * PostOutcome)
      /\ fst (Scenario.run Scenario.env_429 Scenario.lecture)
         = Raise (Exception ("Error de API Groq: "
                             +:+ PyStr.str_of_Z
                                   (status_code Scenario.rate_limited)
                             +:+ " - " +:+ resp_text Scenario.rate_limited))).
Proof.
  split.
  - apply (proj1 (non_200_aborts Scenario.env_429 Scenario.self "es" ""
                                 "json")
                 "whisper-large-v3-turbo" Scenario.note
                 (mkWorld (fs Scenario.world) 0 0 0 1 0 [])
                 Scenario.rate_limited).
    + vm_compute. eauto.
    + reflexivity.
    + vm_compute. discriminate.
  - apply (proj2 (non_200_aborts Scenario.env_429 Scenario.self "es" ""
                                 "json")
                 (ArchivoStr Scenario.lecture) None true Scenario.world
                 (fst (Scenario.run Scenario.env_429 Scenario.lecture))
                 (snd (Scenario.run Scenario.env_429 Scenario.lecture))
                 (log (snd (Scenario.run Scenario.env_429 Scenario.lecture)))
                 [(build_request Scenario.self (Scenario.chunk_file 0) "es"
                                 "whisper-large-v3-turbo" "" "json",
                   Responded (Scenario.ok_response "uno"))]
                 (build_request Scenario.self (Scenario.chunk_file 1) "es"
                                "whisper-large-v3-turbo" "" "json")
                 Scenario.rate_limited []).
    + vm_compute. reflexivity.
    + vm_compute. reflexivity.
    + vm_compute. reflexivity.
    + vm_compute. discriminate.
Defined.

(** C5, as stated, fails: a 30 MB recording whose three segment commands
    all exit with an error is transcribed "successfully" with no upload at
    all, and the result reports zero chunks. *)
Lemma zero_chunks_counterexample :
  fs Scenario.world !! Scenario.lecture = Some 30000000%N
  /\ (25 * MB < 30000000)%N
  /\ exists w',
       Scenario.run Scenario.env_all_drop Scenario.lecture
       = (Ok (mkResult "" "es" (Some 600%Q) true "whisper-large-v3-turbo" 0),
          w')
       /\ length (Log.dropped (log w')) = 3%nat
       /\ Log.uploads (log w') = []
       /\ ~ (1 <= chunks (mkResult "" "es" (Some 600%Q) true
                                   "whisper-large-v3-turbo" 0))%nat.
Proof.
  split; [reflexivity |]. split; [reflexivity |].
  exists (snd (Scenario.run Scenario.env_all_drop Scenario.lecture)).
  split_and!; try (vm_compute; reflexivity).
  simpl. lia.
Qed.

(** C5, amended.  The [chunks] field of every result [transcribir] returns
    is 1 or the number of segment files produced during the call.  It is
    at least 1 unless no segment file was produced on the chunked path,
    where the call still succeeds, with [chunks = 0] and an empty text. *)
Theorem chunk_count_lower_bound (env : Env) (self : Transcriptor.t)
    (archivo : Archivo) (language : string) (model : option string)
    (prompt format : string) (chunk_if_needed : bool) (w : World) r w' :
  transcribir env self archivo language model prompt format chunk_if_needed w
  = (Ok r, w') ->
  exists evs,
    log w' = (log w ++ evs)%list
    /\ (chunks r = 1%nat \/ chunks r = length (Log.materialized evs))
    /\ ((1 <= chunks r)%nat
        \/ (chunks r = 0%nat /\ Log.materialized evs = [] /\ text r = "")).
Proof.
  intros Hrun.
  apply transcribir_log in Hrun as (evs & Hlog & _ & Hok).
  destruct (Hok _ eq_refl) as (Hcount & Hempty).
  exists evs. split_and!; try done.
  destruct (chunks r) as [| n] eqn:Hn; [| left; lia].
  right. destruct Hcount as [Hc | Hc]; [discriminate |].
  split_and!; auto.
  destruct (Log.materialized evs); [reflexivity | discriminate].
Qed.

Lemma chunk_count_lower_bound_witness :
  exists evs,
    log (snd (Scenario.run Scenario.env_one_drop Scenario.lecture))
    = (log Scenario.world ++ evs)%list
    /\ (2%nat = 1%nat \/ 2%nat = length (Log.materialized evs))
    /\ ((1 <= 2)%nat
        \/ (2%nat = 0%nat /\ Log.materialized evs = []
            /\ PyStr.join (PyStr.nl +:+ PyStr.nl) ["uno"; "dos"] = "")).
Proof.
  apply (chunk_count_lower_bound Scenario.env_one_drop Scenario.self
           (ArchivoStr Scenario.lecture) "es" None "" "json" true
           Scenario.world
           (mkResult (PyStr.join (PyStr.nl +:+ PyStr.nl) ["uno"; "dos"]) "es"
                     (Some 600%Q) true "whisper-large-v3-turbo" 2)).
  vm_compute. reflexivity.
Defined.

(** C1: the code leaves temporary files behind.  In scenario D (three
    chunks, HTTP 429 on the second upload) the call raises while the
    segment files of chunks 2 and 3 still exist; and after a successful
    call on a video the extracted audio file still exists. *)
Theorem temporary_files_left_behind :
  (let run := Scenario.run Scenario.env_429 Scenario.lecture in
   fst run = Raise (Exception "Error de API Groq: 429 - rate limit exceeded")
   /\ Log.created (log (snd run))
      = [Scenario.chunk_file 0; Scenario.chunk_file 1; Scenario.chunk_file 2]
   /\ Log.removed (log (snd run)) = [Scenario.chunk_file 0]
   /\ fs (snd run) !! Scenario.chunk_file 0 = None
   /\ fs (snd run) !! Scenario.chunk_file 1 = Some 9000000%N
   /\ fs (snd run) !! Scenario.chunk_file 2 = Some 9000000%N)
  /\ (let run := Scenario.run Scenario.env_ok Scenario.clase in
      fst run = Ok (mkResult "uno" "es" (Some 600%Q) true
                             "whisper-large-v3-turbo" 1)
      /\ Log.created (log (snd run)) = [TmpPath 0 ".wav"]
      /\ Log.removed (log (snd run)) = []
      /\ fs (snd run) !! TmpPath 0 ".wav" = Some 9000000%N).
Proof.
  split; cbv zeta; split_and!; vm_compute; reflexivity.
Qed.

(** * Further properties of the code *)

(** ** More on the chunk plan *)

(** X1.  The windows leave no gap: with a positive stride and a
    non-negative overlap, every instant of the recording lies inside one of
    the windows of the plan, and no window is longer than
    [chunk_duration]. *)
Theorem plan_covers_recording (duration : Q) (chunk_duration overlap : Z)
    (t : Q) :
  (0 < duration)%Q ->
  (0 <= overlap < chunk_duration)%Z ->
  (0 <= t)%Q -> (t < duration)%Q ->
  (exists i s e,
     In (i, (s, e)) (chunk_plan duration chunk_duration overlap)
     /\ (inject_Z s <= t)%Q /\ (t < e)%Q)
  /\ (forall i s e,
        In (i, (s, e)) (chunk_plan duration chunk_duration overlap) ->
        (e - inject_Z s <= inject_Z chunk_duration)%Q).
Proof.
  intros Hd [Hov Hcd] Ht0 Htd.
  assert (Hstride : (overlap < chunk_duration)%Z) by lia.
  destruct (ceil_quotient_bounds duration chunk_duration overlap Hd Hstride)
    as (Hn & _ & Hle).
  set (stride := (chunk_duration - overlap)%Z) in *.
  set (n := num_chunks duration chunk_duration overlap) in *.
  assert (Hs : (0 < inject_Z stride)%Q).
  { change 0%Q with (inject_Z 0). rewrite <- Zlt_Qlt. unfold stride. lia. }
  set (x := (t / inject_Z stride)%Q).
  assert (Hx : (x * inject_Z stride == t)%Q).
  { unfold x. rewrite Qmult_comm. apply Qmult_div_r. lra. }
  set (k := Qfloor x).
  assert (Hk0 : (0 <= k)%Z).
  { change 0%Z with (Qfloor 0). apply Qfloor_resp_le.
    unfold x. apply Qle_shift_div_l; [exact Hs | lra]. }
  assert (Hklo : (inject_Z (k * stride) <= t)%Q).
  { rewrite inject_Z_mult, <- Hx.
    apply Qmult_le_compat_r; [apply Qfloor_le | lra]. }
  assert (Hkhi : (t < inject_Z ((k + 1) * stride))%Q).
  { rewrite inject_Z_mult, <- Hx.
    apply Qmult_lt_compat_r; [exact Hs | apply Qlt_floor]. }
  assert (Hkn : (k < n)%Z).
  { assert (H : (inject_Z (k * stride) < inject_Z (n * stride))%Q) by lra.
    rewrite <- Zlt_Qlt in H. unfold stride in *. nia. }
  split.
  - exists (Z.to_nat k), (k * stride)%Z,
      (Qmin (inject_Z (k * stride + chunk_duration)) duration).
    split_and!.
    + unfold chunk_plan. apply in_map_iff. exists (Z.to_nat k). split.
      * unfold window. fold stride. rewrite Z2Nat.id by exact Hk0.
        reflexivity.
      * apply in_seq. fold n. lia.
    + exact Hklo.
    + apply Q.min_glb_lt; [| exact Htd].
      eapply Qlt_le_trans; [exact Hkhi |].
      rewrite <- Zle_Qle. unfold stride. nia.
  - intros i s e Hin.
    destruct (window_bounds duration chunk_duration overlap Hd Hstride
                i s e ltac:(lia) Hin) as (_ & -> & _ & _).
    pose proof (Q.le_min_l (inject_Z (s + chunk_duration)) duration) as Hm.
    set (m := Qmin _ _) in *.
    rewrite inject_Z_plus in Hm. lra.
Qed.

Lemma plan_covers_recording_witness :
  (exists i s e,
     In (i, (s, e)) (chunk_plan 600 240 15)
     /\ (inject_Z s <= 449)%Q /\ (449 < e)%Q)
  /\ (forall i s e,
        In (i, (s, e)) (chunk_plan 600 240 15) ->
        (e - inject_Z s <= inject_Z 240)%Q).
Proof.
  apply (plan_covers_recording 600 240 15 449);
    [reflexivity | lia | discriminate | reflexivity].
Defined.

(** X2.  A recording no longer than the stride is planned as a single
    window that starts at 0 and ends at the duration. *)
Theorem short_recording_single_window (duration : Q)
    (chunk_duration overlap : Z) :
  (0 < duration)%Q ->
  (0 <= overlap < chunk_duration)%Z ->
  (duration <= inject_Z (chunk_duration - overlap))%Q ->
  exists e,
    chunk_plan duration chunk_duration overlap = [(0%nat, (0%Z, e))]
    /\ (e == duration)%Q.
Proof.
  intros Hd [Hov Hcd] Hshort.
  assert (Hstride : (overlap < chunk_duration)%Z) by lia.
  destruct (ceil_quotient_bounds duration chunk_duration overlap Hd Hstride)
    as (Hn & Hlt & _).
  set (n := num_chunks duration chunk_duration overlap) in *.
  assert (Hn1 : n = 1%Z).
  { assert (H : (inject_Z ((n - 1) * (chunk_duration - overlap))
                 < inject_Z (chunk_duration - overlap))%Q)
      by (eapply Qlt_le_trans; [exact Hlt | exact Hshort]).
    rewrite <- Zlt_Qlt in H. nia. }
  unfold chunk_plan. fold n. rewrite Hn1. simpl.
  eexists. split; [reflexivity |].
  apply Q.min_r. eapply Qle_trans; [exact Hshort |].
  rewrite <- Zle_Qle. lia.
Qed.

Lemma short_recording_single_window_witness :
  exists e,
    chunk_plan 200 240 15 = [(0%nat, (0%Z, e))] /\ (e == 200)%Q.
Proof.
  apply (short_recording_single_window 200 240 15);
    [reflexivity | lia | discriminate].
Defined.

(** ** Classification by extension *)

(** X3.  No file is classified both as video and as audio. *)
Theorem video_and_audio_exclusive (filepath : path) :
  is_video filepath = true -> is_audio filepath = false.
Proof.
  unfold is_video, is_audio. intros Hv.
  apply bool_decide_eq_true in Hv. unfold VIDEO_EXTENSIONS in Hv.
  repeat (apply elem_of_cons in Hv as [-> | Hv]; [reflexivity |]).
  apply elem_of_nil in Hv. contradiction.
Qed.

Lemma video_and_audio_exclusive_witness :
  is_audio (UserPath "/data/clase.MP4") = false.
Proof.
  apply (video_and_audio_exclusive (UserPath "/data/clase.MP4")).
  reflexivity.
Defined.

Lemma lower_ascii_idem (c : ascii) :
  PyStr.lower_ascii (PyStr.lower_ascii c) = PyStr.lower_ascii c.
Proof. destruct c as [[] [] [] [] [] [] [] []]; reflexivity. Qed.

Lemma lower_ascii_dot (c : ascii) :
  Ascii.eqb "."%char (PyStr.lower_ascii c) = Ascii.eqb "."%char c.
Proof. destruct c as [[] [] [] [] [] [] [] []]; reflexivity. Qed.

Lemma lower_ascii_slash (c : ascii) :
  Ascii.eqb "/"%char (PyStr.lower_ascii c) = Ascii.eqb "/"%char c.
Proof. destruct c as [[] [] [] [] [] [] [] []]; reflexivity. Qed.

Lemma lower_idem (s : string) : PyStr.lower (PyStr.lower s) = PyStr.lower s.
Proof.
  induction s as [| c s IH]; simpl; [reflexivity |].
  rewrite lower_ascii_idem, IH. reflexivity.
Qed.

Lemma lower_length (s : string) :
  String.length (PyStr.lower s) = String.length s.
Proof. induction s as [| c s IH]; simpl; [| rewrite IH]; reflexivity. Qed.

Lemma lower_drop (i : nat) (s : string) :
  PyStr.drop i (PyStr.lower s) = PyStr.lower (PyStr.drop i s).
Proof.
  revert s. induction i as [| i IH]; intros [| c s]; simpl; auto.
Qed.

Lemma lower_rfind (c : ascii) (s : string) :
  (forall d, Ascii.eqb c (PyStr.lower_ascii d) = Ascii.eqb c d) ->
  PyStr.rfind c (PyStr.lower s) = PyStr.rfind c s.
Proof.
  intros Hc. induction s as [| d s IH]; simpl; [reflexivity |].
  rewrite IH, Hc. reflexivity.
Qed.

Lemma lower_basename (s : string) :
  PurePath.basename (PyStr.lower s) = PyStr.lower (PurePath.basename s).
Proof.
  unfold PurePath.basename. rewrite lower_rfind by apply lower_ascii_slash.
  destruct (PyStr.rfind "/" s); [apply lower_drop | reflexivity].
Qed.

Lemma lower_name_suffix (nm : string) :
  PurePath.name_suffix (PyStr.lower nm)
  = PyStr.lower (PurePath.name_suffix nm).
Proof.
  unfold PurePath.name_suffix.
  rewrite lower_rfind by apply lower_ascii_dot. rewrite lower_length.
  destruct (PyStr.rfind "." nm) as [i |]; [| reflexivity].
  destruct ((0 <? i)%nat && (i <? String.length nm - 1)%nat);
    [apply lower_drop | reflexivity].
Qed.

(** X4.  The classification does not depend on the case of the letters of
    the path: two paths that differ only by case are classified alike. *)
Theorem classification_ignores_case (s1 s2 : string) :
  PyStr.lower s1 = PyStr.lower s2 ->
  is_video (UserPath s1) = is_video (UserPath s2)
  /\ is_audio (UserPath s1) = is_audio (UserPath s2).
Proof.
  intros Heq.
  assert (Hext : forall s,
            PyStr.lower (PurePath.suffix (UserPath s))
            = PyStr.lower (PurePath.suffix (UserPath (PyStr.lower s)))).
  { intros s. simpl.
    rewrite lower_basename, lower_name_suffix, lower_idem. reflexivity. }
  unfold is_video, is_audio.
  rewrite (Hext s1), (Hext s2), Heq. split; reflexivity.
Qed.

Lemma classification_ignores_case_witness :
  is_video (UserPath "/data/Clase.MP4") = is_video (UserPath "/DATA/clase.mp4")
  /\ is_audio (UserPath "/data/Clase.MP4")
     = is_audio (UserPath "/DATA/clase.mp4").
Proof.
  apply (classification_ignores_case "/data/Clase.MP4" "/DATA/clase.mp4").
  reflexivity.
Defined.

(** ** Audio extraction and segment files *)

(** X5.  When ffmpeg exits with an error, [extract_audio] raises an
    [Exception] that carries ffmpeg's diagnostic output, the output file
    does not exist afterwards (the temporary file it made, or the file the
    caller named), and no other file is changed. *)
Theorem extract_audio_failure_removes_output (env : Env) (video_path : path)
    (output_path : option path) (w : World) (stderr : string) :
  let out := default (TmpPath (temps w) ".wav") output_path in
  ffmpeg env (ffmpegs w) (CmdExtract video_path out) = ProcFailed stderr ->
  exists w',
    extract_audio env video_path output_path w
    = (Raise (Exception ("Error extrayendo audio: " +:+ stderr)), w')
    /\ fs w' !! out = None
    /\ (forall p, p <> out -> fs w' !! p = fs w !! p).
Proof.
  intros out Hff. unfold extract_audio.
  destruct output_path as [p |]; simpl in out; subst out; run_step.
  - rewrite Hff. simpl. destruct (fs w !! p) eqn:Hp; simpl.
    + rewrite Hp. simpl. eexists. split; [reflexivity |]. simpl. split.
      * apply lookup_delete_eq.
      * intros q Hq. apply lookup_delete_ne. congruence.
    + eexists. split; [reflexivity |]. simpl. auto.
  - rewrite Hff. simpl. rewrite lookup_insert_eq. simpl.
    rewrite lookup_insert_eq. simpl.
    eexists. split; [reflexivity |]. simpl. split.
    + apply lookup_delete_eq.
    + intros q Hq.
      rewrite lookup_delete_ne, lookup_insert_ne by congruence. reflexivity.
Qed.

Lemma extract_audio_failure_removes_output_witness :
  exists w',
    extract_audio Scenario.env_all_drop Scenario.clase None Scenario.world
    = (Raise (Exception ("Error extrayendo audio: " +:+ "Invalid data")), w')
    /\ fs w' !! TmpPath 0 ".wav" = None
    /\ (forall p, p <> TmpPath 0 ".wav" ->
                  fs w' !! p = fs Scenario.world !! p).
Proof.
  apply (extract_audio_failure_removes_output Scenario.env_all_drop
           Scenario.clase None Scenario.world "Invalid data").
  reflexivity.
Defined.

(** X6.  When the ffmpeg binary cannot be started, [extract_audio] lets the
    [FileNotFoundError] through instead of raising its own [Exception], and
    the temporary file it made for the output stays on disk. *)
Theorem extract_audio_missing_binary_leaks (env : Env) (video_path : path)
    (w : World) :
  let out := TmpPath (temps w) ".wav" in
  ffmpeg env (ffmpegs w) (CmdExtract video_path out) = ProcMissing ->
  exists msg w',
    extract_audio env video_path None w = (Raise (FileNotFoundError msg), w')
    /\ fs w' !! out = Some 0%N
    /\ Log.removed (log w') = Log.removed (log w).
Proof.
  intros out Hff. unfold extract_audio. run_step. fold out. rewrite Hff.
  simpl. eexists _, _. split; [reflexivity |]. simpl. split.
  - apply lookup_insert_eq.
  - rewrite <- app_assoc, removed_app. simpl. apply app_nil_r.
Qed.

Lemma extract_audio_missing_binary_leaks_witness :
  exists msg w',
    extract_audio (mkEnv (fun _ _ => None) (fun _ _ => ProcMissing)
                         (fun _ _ => PostRaised "") (fun _ _ => None))
                  Scenario.clase None Scenario.world
    = (Raise (FileNotFoundError msg), w')
    /\ fs w' !! TmpPath (temps Scenario.world) ".wav" = Some 0%N
    /\ Log.removed (log w') = Log.removed (log Scenario.world).
Proof.
  apply (extract_audio_missing_binary_leaks
           (mkEnv (fun _ _ => None) (fun _ _ => ProcMissing)
                  (fun _ _ => PostRaised "") (fun _ _ => None))
           Scenario.clase Scenario.world).
  reflexivity.
Defined.

Lemma fresh_temps_not_old (w : World) (p : path) :
  fresh_temps w -> ~ old w p -> fs w !! p = None.
Proof.
  intros Hfresh Hp. destruct p as [s | n suf]; simpl in Hp; [tauto |].
  apply Hfresh. lia.
Qed.

(** The loop of [create_chunks] and the files on disk. *)
Lemma create_loop_fs (env : Env) (audio : path) (d : Q) (cd ov : Z)
    (indices : list nat) :
  forall (acc : list path) (w : World) cs w',
    fresh_temps w ->
    for_each indices (create_chunk env audio d cd ov) acc w = (Ok cs, w') ->
    exists evs,
      log w' = (log w ++ evs)%list
      /\ cs = (acc ++ Log.materialized evs)%list
      /\ fresh_temps w' /\ (temps w <= temps w')%nat
      /\ length (Log.created evs) = length indices
      /\ Log.removed evs = Log.dropped evs
      /\ NoDup (Log.materialized evs)
      /\ (forall p, p ∈ Log.materialized evs ->
                    is_Some (fs w' !! p) /\ ~ old w p)
      /\ (forall p, p ∈ Log.dropped evs -> fs w' !! p = None /\ ~ old w p)
      /\ (forall p, p ∉ Log.materialized evs -> fs w' !! p = fs w !! p).
Proof.
  induction indices as [| i rest IH]; intros acc w cs w' Hfresh Hrun.
  - simpl in Hrun. injection Hrun as <- <-. exists [].
    rewrite !app_nil_r. simpl.
    split_and!; auto using NoDup_nil_2; intros p Hp; inversion Hp.
  - simpl in Hrun. unfold bind at 1 in Hrun.
    rewrite create_chunk_run in Hrun. cbv zeta in Hrun.
    set (p := segment_path w i) in *.
    set (cmd := CmdSegment _ _ _ p) in *.
    assert (Hpnew : ~ old w p) by (simpl; lia).
    assert (Hpw : fs w !! p = None)
      by (apply fresh_temps_not_old; assumption).
    destruct (ffmpeg env (ffmpegs w) cmd) as [n | err |] eqn:Ho;
      [| | discriminate].
    + set (w1 := mkWorld _ _ _ _ _ _ _) in Hrun.
      assert (Hfresh1 : fresh_temps w1).
      { intros m suf Hm. simpl in Hm |- *.
        rewrite !lookup_insert_ne by (unfold p, segment_path; intros [=]; lia).
        apply Hfresh. lia. }
      assert (Hold1 : old w1 p) by (simpl; lia).
      destruct (IH _ _ _ _ Hfresh1 Hrun)
        as (evs & Hlog & -> & Hfr & Hle & Hcr & Hrm & Hnd & Hmat & Hdr & Hfrm).
      simpl in Hlog, Hle.
      assert (Hpm : p ∉ Log.materialized evs).
      { intros Hin. destruct (Hmat _ Hin) as [_ Hn]. contradiction. }
      exists (EvTemp p :: EvFfmpeg cmd (ProcOk n) :: evs). simpl.
      rewrite Hlog, <- !app_assoc. simpl.
      split_and!; auto; try lia.
      * apply NoDup_cons. auto.
      * intros q Hq. apply elem_of_cons in Hq as [-> | Hq].
        -- split; [| exact Hpnew]. rewrite Hfrm by exact Hpm. simpl.
           rewrite lookup_insert_eq. eauto.
        -- destruct (Hmat _ Hq) as [Hs Hn]. split; [exact Hs |].
           intros Hold. apply Hn. eapply old_mono; [| exact Hold]. simpl. lia.
      * intros q Hq. destruct (Hdr _ Hq) as [Hs Hn]. split; [exact Hs |].
        intros Hold. apply Hn. eapply old_mono; [| exact Hold]. simpl. lia.
      * intros q Hq. apply not_elem_of_cons in Hq as [Hqp Hq].
        rewrite Hfrm by exact Hq. simpl.
        rewrite !lookup_insert_ne by congruence. reflexivity.
    + set (w1 := mkWorld _ _ _ _ _ _ _) in Hrun.
      assert (Hfresh1 : fresh_temps w1).
      { intros m suf Hm. simpl in Hm |- *.
        rewrite lookup_delete_ne, lookup_insert_ne
          by (unfold p, segment_path; intros [=]; lia).
        apply Hfresh. lia. }
      assert (Hold1 : old w1 p) by (simpl; lia).
      destruct (IH _ _ _ _ Hfresh1 Hrun)
        as (evs & Hlog & -> & Hfr & Hle & Hcr & Hrm & Hnd & Hmat & Hdr & Hfrm).
      simpl in Hlog, Hle.
      assert (Hpm : p ∉ Log.materialized evs).
      { intros Hin. destruct (Hmat _ Hin) as [_ Hn]. contradiction. }
      exists (EvTemp p :: EvFfmpeg cmd (ProcFailed err) :: EvRemove p :: evs).
      simpl. rewrite Hlog, <- !app_assoc. simpl.
      split_and!; auto; try lia; try congruence.
      * intros q Hq. destruct (Hmat _ Hq) as [Hs Hn]. split; [exact Hs |].
        intros Hold. apply Hn. eapply old_mono; [| exact Hold]. simpl. lia.
      * intros q Hq. apply elem_of_cons in Hq as [-> | Hq].
        -- split; [| exact Hpnew]. rewrite Hfrm by exact Hpm. simpl.
           apply lookup_delete_eq.
        -- destruct (Hdr _ Hq) as [Hs Hn]. split; [exact Hs |].
           intros Hold. apply Hn. eapply old_mono; [| exact Hold]. simpl. lia.
      * intros q Hq. rewrite Hfrm by exact Hq. simpl.
        destruct (decide (q = p)) as [-> | Hne].
        -- rewrite lookup_delete_eq. symmetry. exact Hpw.
        -- rewrite lookup_delete_ne, lookup_insert_ne by congruence.
           reflexivity.
Qed.

Lemma create_chunks_fs (env : Env) (audio : path) (cd ov : Z) (w : World)
    (d : Q) cs w' :
  fresh_temps w ->
  known (ffprobe env (probes w) audio) = Some d ->
  create_chunks env audio cd ov w = (Ok cs, w') ->
  exists evs,
    log w'
    = (log w ++ EvProbe audio (ffprobe env (probes w) audio) :: evs)%list
    /\ cs = Log.materialized evs
    /\ fresh_temps w' /\ (temps w <= temps w')%nat
    /\ length (Log.created evs) = length (chunk_plan d cd ov)
    /\ Log.removed evs = Log.dropped evs
    /\ NoDup cs
    /\ (forall p, p ∈ cs -> is_Some (fs w' !! p) /\ ~ old w p)
    /\ (forall p, p ∈ Log.dropped evs -> fs w' !! p = None /\ ~ old w p)
    /\ (forall p, p ∉ cs -> fs w' !! p = fs w !! p).
Proof.
  intros Hfresh Hk Hrun. unfold create_chunks, get_duration in Hrun.
  unfold bind at 1, subprocess.run_ffprobe in Hrun. rewrite Hk in Hrun.
  destruct (cd - ov =? 0)%Z; [discriminate |].
  apply create_loop_fs in Hrun; [| exact Hfresh].
  destruct Hrun
    as (evs & Hlog & -> & Hfr & Hle & Hcr & Hrm & Hnd & Hmat & Hdr & Hfrm).
  simpl in *. exists evs. rewrite Hlog, <- app_assoc. simpl.
  split_and!; auto.
  unfold chunk_plan. rewrite Hcr, length_map. reflexivity.
Qed.

(** X7.  With a known duration, [create_chunks] makes one temporary file
    per planned window.  The paths it returns are distinct files that exist
    afterwards and did not exist before; the file of every window whose
    ffmpeg run failed has been removed again; and no other file is
    changed. *)
Theorem create_chunks_leaves_only_its_chunks (env : Env) (audio : path)
    (chunk_duration overlap : Z) (w : World) (d : Q) cs w' :
  fresh_temps w ->
  known (ffprobe env (probes w) audio) = Some d ->
  create_chunks env audio chunk_duration overlap w = (Ok cs, w') ->
  exists evs,
    log w'
    = (log w ++ EvProbe audio (ffprobe env (probes w) audio) :: evs)%list
    /\ length (Log.created evs) = length (chunk_plan d chunk_duration overlap)
    /\ cs = Log.materialized evs
    /\ Log.removed evs = Log.dropped evs
    /\ NoDup cs
    /\ (forall p, p ∈ cs -> is_Some (fs w' !! p) /\ fs w !! p = None)
    /\ (forall p, p ∈ Log.dropped evs -> fs w' !! p = None)
    /\ (forall p, p ∉ cs -> fs w' !! p = fs w !! p).
Proof.
  intros Hfresh Hk Hrun.
  destruct (create_chunks_fs env audio chunk_duration overlap w d cs w'
              Hfresh Hk Hrun)
    as (evs & Hlog & Hcs & _ & _ & Hcr & Hrm & Hnd & Hmat & Hdr & Hfrm).
  exists evs. split_and!; auto.
  - intros p Hp. destruct (Hmat _ Hp) as [Hs Hn]. split; [exact Hs |].
    apply fresh_temps_not_old; assumption.
  - intros p Hp. apply Hdr. exact Hp.
Qed.

Lemma fresh_temps_scenario : fresh_temps Scenario.world.
Proof. intros n suf _. reflexivity. Qed.

Lemma create_chunks_leaves_only_its_chunks_witness :
  let run := create_chunks Scenario.env_one_drop Scenario.lecture 240 15
                           Scenario.world in
  exists evs,
    log (snd run)
    = (log Scenario.world
       ++ EvProbe Scenario.lecture
            (ffprobe Scenario.env_one_drop (probes Scenario.world)
                     Scenario.lecture) :: evs)%list
    /\ length (Log.created evs) = length (chunk_plan 600 240 15)
    /\ [Scenario.chunk_file 0; Scenario.chunk_file 2] = Log.materialized evs
    /\ Log.removed evs = Log.dropped evs
    /\ NoDup [Scenario.chunk_file 0; Scenario.chunk_file 2]
    /\ (forall p, p ∈ [Scenario.chunk_file 0; Scenario.chunk_file 2] ->
                  is_Some (fs (snd run) !! p)
                  /\ fs Scenario.world !! p = None)
    /\ (forall p, p ∈ Log.dropped evs -> fs (snd run) !! p = None)
    /\ (forall p, p ∉ [Scenario.chunk_file 0; Scenario.chunk_file 2] ->
                  fs (snd run) !! p = fs Scenario.world !! p).
Proof.
  apply (create_chunks_leaves_only_its_chunks Scenario.env_one_drop
           Scenario.lecture 240 15 Scenario.world 600).
  - exact fresh_temps_scenario.
  - reflexivity.
  - vm_compute. reflexivity.
Defined.

(** X8.  Degenerate parameters.  With [chunk_duration = overlap] the
    division by the stride raises [ZeroDivisionError] before any file is
    made.  With [chunk_duration < overlap] and a positive duration the
    window count is not positive: [create_chunks] returns the empty list
    without running ffmpeg. *)
Theorem create_chunks_degenerate_stride (env : Env) (audio : path)
    (chunk_duration overlap : Z) (w : World) (d : Q) :
  known (ffprobe env (probes w) audio) = Some d ->
  (chunk_duration <= overlap)%Z ->
  (0 < d)%Q ->
  exists res w',
    create_chunks env audio chunk_duration overlap w = (res, w')
    /\ res = (if (chunk_duration =? overlap)%Z then Raise ZeroDivisionError
              else Ok [])
    /\ fs w' = fs w /\ temps w' = temps w /\ ffmpegs w' = ffmpegs w.
Proof.
  intros Hk Hle Hd. unfold create_chunks, get_duration.
  unfold bind at 1, subprocess.run_ffprobe. rewrite Hk.
  destruct (chunk_duration =? overlap)%Z eqn:Heq.
  - apply Z.eqb_eq in Heq. subst overlap. rewrite Z.sub_diag. simpl.
    eexists _, _. split_and!; reflexivity.
  - apply Z.eqb_neq in Heq.
    replace (chunk_duration - overlap =? 0)%Z with false
      by (symmetry; apply Z.eqb_neq; lia).
    assert (Hn : (num_chunks d chunk_duration overlap <= 0)%Z).
    { unfold num_chunks. change 0%Z with (Qceiling 0).
      apply Qceiling_resp_le.
      set (s := inject_Z (chunk_duration - overlap)).
      assert (Hs : (s < 0)%Q).
      { unfold s. change 0%Q with (inject_Z 0). rewrite <- Zlt_Qlt. lia. }
      assert (Hx : (d / s * s == d)%Q).
      { rewrite Qmult_comm. apply Qmult_div_r. lra. }
      destruct (Qlt_le_dec 0 (d / s)) as [Hpos | Hnp]; [| exact Hnp].
      exfalso.
      assert (H : (d / s * - s > 0)%Q)
        by (apply Qmult_lt_0_compat; lra).
      lra. }
    replace (Z.to_nat (num_chunks d chunk_duration overlap)) with 0%nat
      by lia.
    simpl. eexists _, _. split_and!; reflexivity.
Qed.

Lemma create_chunks_degenerate_stride_witness :
  exists res w',
    create_chunks Scenario.env_ok Scenario.lecture 15 15 Scenario.world
    = (res, w')
    /\ res = (if (15 =? 15)%Z then Raise ZeroDivisionError else Ok [])
    /\ fs w' = fs Scenario.world /\ temps w' = temps Scenario.world
    /\ ffmpegs w' = ffmpegs Scenario.world.
Proof.
  apply (create_chunks_degenerate_stride Scenario.env_ok Scenario.lecture
           15 15 Scenario.world 600);
    [reflexivity | lia | reflexivity].
Defined.

(** ** The files on disk across a call *)

Section Disk.
Context (env : Env) (self : Transcriptor.t).
Context (language model prompt format : string).

(** The transcription loop only removes the chunk files it was given. *)
Lemma transcribe_loop_fs (cs : list path) :
  forall (texts : list string) (w : World) res w',
    for_each cs (transcribe_chunk env self language model prompt format)
             texts w = (res, w') ->
    temps w' = temps w
    /\ (forall p, p ∉ cs -> fs w' !! p = fs w !! p)
    /\ (forall texts', res = Ok texts' ->
                       forall p, p ∈ cs -> fs w' !! p = None).
Proof.
  induction cs as [| c rest IH]; intros texts w res w' Hrun.
  - simpl in Hrun. injection Hrun as <- <-. split_and!; auto.
    intros texts' _ p Hp. inversion Hp.
  - simpl in Hrun. unfold bind at 1 in Hrun.
    rewrite transcribe_chunk_run in Hrun.
    destruct (fs w !! c) as [sz |] eqn:Hc.
    + cbv zeta in Hrun.
      destruct (call_result format _) as [t | e] eqn:Hcall.
      * apply IH in Hrun as (Htemps & Hframe & Hgone). simpl in *.
        split_and!; auto.
        -- intros p Hp. apply not_elem_of_cons in Hp as [Hpc Hp].
           rewrite Hframe by exact Hp. apply lookup_delete_ne. congruence.
        -- intros texts' Hres p Hp.
           destruct (decide (p ∈ rest)) as [Hin | Hnin].
           ++ eapply Hgone; eauto.
           ++ apply elem_of_cons in Hp as [-> | Hp]; [| contradiction].
              rewrite Hframe by exact Hnin. apply lookup_delete_eq.
      * injection Hrun as <- <-. simpl. split_and!; auto.
        intros texts' Hres. discriminate Hres.
    + injection Hrun as <- <-. split_and!; auto.
      intros texts' Hres. discriminate Hres.
Qed.

(** The loop of [create_chunks], whatever its outcome, leaves the files
    that existed before alone. *)
Lemma create_loop_frame (audio : path) (d : Q) (cd ov : Z)
    (indices : list nat) :
  forall (acc : list path) (w : World) res w',
    for_each indices (create_chunk env audio d cd ov) acc w = (res, w') ->
    (temps w <= temps w')%nat
    /\ (forall p, old w p -> fs w' !! p = fs w !! p)
    /\ (forall cs, res = Ok cs ->
          exists new, cs = (acc ++ new)%list
                      /\ Forall (fun p => ~ old w p) new).
Proof.
  induction indices as [| i rest IH]; intros acc w res w' Hrun.
  - simpl in Hrun. injection Hrun as <- <-. split_and!; auto.
    intros cs Hcs. injection Hcs as <-. exists []. rewrite app_nil_r. auto.
  - simpl in Hrun. unfold bind at 1 in Hrun.
    rewrite create_chunk_run in Hrun. cbv zeta in Hrun.
    set (p := segment_path w i) in *.
    set (cmd := CmdSegment _ _ _ p) in *.
    assert (Hpnew : ~ old w p) by (simpl; lia).
    assert (Hne : forall q, old w q -> q <> p).
    { intros q Hq ->. exact (Hpnew Hq). }
    assert (Hmono : forall (w1 : World) q,
              temps w1 = S (temps w) -> old w q -> old w1 q).
    { intros w1 q Ht Hq. eapply old_mono; [| exact Hq]. lia. }
    destruct (ffmpeg env (ffmpegs w) cmd) as [n | err |].
    + apply IH in Hrun as (Hle & Hframe & Hok). simpl in Hle.
      split_and!; try lia.
      * intros q Hq. rewrite Hframe by (apply Hmono; auto). simpl.
        rewrite !lookup_insert_ne by (apply not_eq_sym, Hne, Hq).
        reflexivity.
      * intros cs Hcs. destruct (Hok _ Hcs) as (new & -> & Hall).
        exists (p :: new). rewrite <- app_assoc. split; [reflexivity |].
        constructor; [exact Hpnew |].
        eapply Forall_impl; [exact Hall |]. intros q Hq Hold. apply Hq.
        apply Hmono; auto.
    + apply IH in Hrun as (Hle & Hframe & Hok). simpl in Hle.
      split_and!; try lia.
      * intros q Hq. rewrite Hframe by (apply Hmono; auto). simpl.
        rewrite lookup_delete_ne, lookup_insert_ne
          by (apply not_eq_sym, Hne, Hq).
        reflexivity.
      * intros cs Hcs. destruct (Hok _ Hcs) as (new & -> & Hall).
        exists new. split; [reflexivity |].
        eapply Forall_impl; [exact Hall |]. intros q Hq Hold. apply Hq.
        apply Hmono; auto.
    + injection Hrun as <- <-. simpl. split_and!; try lia.
      * intros q Hq.
        rewrite lookup_insert_ne by (apply not_eq_sym, Hne, Hq).
        reflexivity.
      * intros cs Hcs. discriminate Hcs.
Qed.

(** The chunked path leaves alone every file that existed before, the
    audio file apart. *)
Lemma transcribir_chunks_frame (audio : path) (dur : option Q) (w : World)
    res w' :
  _transcribir_chunks env self audio dur language model prompt format w
  = (res, w') ->
  (temps w <= temps w')%nat
  /\ (forall p, old w p -> p <> audio -> fs w' !! p = fs w !! p)
  /\ (known (ffprobe env (probes w) audio) <> None ->
      old w audio -> fs w' !! audio = fs w !! audio).
Proof.
  intros Hrun. unfold _transcribir_chunks in Hrun.
  unfold bind at 1 in Hrun.
  unfold create_chunks, get_duration in Hrun.
  unfold bind at 1, subprocess.run_ffprobe in Hrun.
  destruct (known (ffprobe env (probes w) audio)) as [d |] eqn:Hk.
  - change (4 * 60 - 15 =? 0)%Z with false in Hrun. cbv iota in Hrun.
    match type of Hrun with
    | context [for_each ?l ?f [] ?w0] =>
        destruct (for_each l f [] w0) as [[cs | e] w1] eqn:Hloop
    end.
    + apply create_loop_frame in Hloop as (Hle & Hframe & Hok).
      destruct (Hok _ eq_refl) as (new & Hcs & Hnew). simpl in Hcs.
      subst cs. simpl in Hle, Hframe.
      unfold bind at 1 in Hrun.
      destruct (for_each new _ [] w1) as [[texts | e] w2] eqn:Hup;
        apply transcribe_loop_fs in Hup as (Htemps & Hfr2 & _);
        injection Hrun as <- <-;
        (assert (Hkeep : forall p, old w p -> fs w2 !! p = fs w !! p);
         [ intros p Hp; rewrite Hfr2;
           [ apply Hframe; exact Hp
           | intros Hin; rewrite Forall_forall in Hnew;
             exact (Hnew _ Hin Hp) ]
         | split_and!; [lia | auto | auto] ]).
    + injection Hrun as <- <-.
      apply create_loop_frame in Hloop as (Hle & Hframe & _).
      simpl in Hle, Hframe. split_and!; auto.
  - unfold ret at 1 in Hrun. unfold bind at 1 in Hrun.
    match type of Hrun with
    | context [for_each [audio] ?f [] ?w0] =>
        destruct (for_each [audio] f [] w0) as [[texts | e] w2] eqn:Hup
    end;
      apply transcribe_loop_fs in Hup as (Htemps & Hfr2 & _);
      injection Hrun as <- <-; simpl in Htemps, Hfr2;
      (split_and!; [lia | | congruence]);
      intros p Hp Hne; apply Hfr2; intros Hin;
      apply list_elem_of_singleton in Hin; contradiction.
Qed.

(** With a known duration a successful run of the chunked path puts the
    disk back as it was. *)
Lemma transcribir_chunks_restores (audio : path) (dur : option Q) (w : World)
    (d : Q) r w' :
  fresh_temps w ->
  known (ffprobe env (probes w) audio) = Some d ->
  _transcribir_chunks env self audio dur language model prompt format w
  = (Ok r, w') ->
  fs w' = fs w.
Proof.
  intros Hfresh Hk Hrun. unfold _transcribir_chunks in Hrun.
  unfold bind at 1 in Hrun.
  destruct (create_chunks env audio (4 * 60) 15 w) as [[cs | e] w1] eqn:Hcc;
    [| discriminate].
  destruct (create_chunks_fs env audio (4 * 60) 15 w d cs w1 Hfresh Hk Hcc)
    as (evs & _ & _ & _ & _ & _ & _ & _ & Hmat & _ & Hfrm).
  unfold bind at 1 in Hrun.
  destruct (for_each cs _ [] w1) as [[texts | e] w2] eqn:Hup;
    [| discriminate].
  injection Hrun as _ <-.
  apply transcribe_loop_fs in Hup as (_ & Hkeep & Hgone).
  apply map_eq. intros p. destruct (decide (p ∈ cs)) as [Hin | Hnin].
  - rewrite (Hgone _ eq_refl _ Hin). symmetry.
    apply fresh_temps_not_old; [exact Hfresh | apply Hmat; exact Hin].
  - rewrite Hkeep by exact Hnin. apply Hfrm. exact Hnin.
Qed.

Lemma resolve_audio_frame (filepath : path) (w : World) res w1 :
  resolve_audio env filepath w = (res, w1) ->
  (temps w <= temps w1)%nat
  /\ (forall p, old w p -> fs w1 !! p = fs w !! p)
  /\ (forall audio, res = Ok audio ->
        (is_video filepath = false /\ audio = filepath /\ w1 = w)
        \/ (is_video filepath = true /\ ~ old w audio)).
Proof.
  unfold resolve_audio. destruct (is_video filepath).
  - unfold extract_audio. run_step.
    set (tmp := TmpPath (temps w) ".wav").
    assert (Hnew : ~ old w tmp) by (simpl; lia).
    assert (Hne : forall q, old w q -> tmp <> q).
    { intros q Hq <-. exact (Hnew Hq). }
    destruct (ffmpeg env (ffmpegs w) _) as [n | err |]; simpl.
    + intros [= <- <-]. simpl. split_and!; [lia | |].
      * intros p Hp. rewrite !lookup_insert_ne by (apply Hne, Hp).
        reflexivity.
      * intros audio [= <-]. right. auto.
    + rewrite lookup_insert_eq. simpl. rewrite lookup_insert_eq.
      intros [= <- <-]. simpl. split_and!; [lia | |].
      * intros p Hp.
        rewrite lookup_delete_ne, lookup_insert_ne by (apply Hne, Hp).
        reflexivity.
      * intros audio [=].
    + intros [= <- <-]. simpl. split_and!; [lia | |].
      * intros p Hp. rewrite lookup_insert_ne by (apply Hne, Hp).
        reflexivity.
      * intros audio [=].
  - intros [= <- <-]. split_and!; auto.
    intros audio [= <-]. left. auto.
Qed.

(** [_call_api] changes no file and makes no temporary file. *)
Lemma call_api_frame (p : path) (w : World) res w' :
  _call_api env self p language model prompt format w = (res, w') ->
  fs w' = fs w /\ temps w' = temps w.
Proof.
  rewrite call_api_run. destruct (fs w !! p); intros [= <- <-]; auto.
Qed.

(** A run of [_transcribir_archivo] leaves alone every file that existed
    before, except possibly its own input when that is not a video. *)
Lemma archivo_frame (filepath : path) (chunk_if_needed : bool) (w : World)
    res w' :
  _transcribir_archivo env self filepath language model prompt format
                       chunk_if_needed w = (res, w') ->
  forall p, old w p ->
            p <> filepath \/ is_video filepath = true ->
            fs w' !! p = fs w !! p.
Proof.
  intros Hrun p Hp Hside.
  destruct (resolve_audio env filepath w) as [[audio | e] w1] eqn:Hres.
  2:{ unfold _transcribir_archivo, bind at 1 in Hrun. rewrite Hres in Hrun.
      injection Hrun as <- <-.
      apply resolve_audio_frame in Hres as (_ & Hframe & _). auto. }
  pose proof (resolve_audio_frame _ _ _ _ Hres) as (Hle & Hframe & Haudio).
  assert (Hpa : p <> audio).
  { destruct (Haudio _ eq_refl) as [(Hv & -> & _) | (_ & Hnew)].
    - destruct Hside as [Hne | Hv']; [exact Hne | congruence].
    - intros ->. exact (Hnew Hp). }
  assert (Hp1 : old w1 p) by (eapply old_mono; eauto).
  destruct (fs w1 !! audio) as [size |] eqn:Hsize.
  2:{ unfold _transcribir_archivo, bind at 1 in Hrun. rewrite Hres in Hrun.
      unfold get_duration, bind at 1, subprocess.run_ffprobe in Hrun.
      unfold bind at 1, os.getsize in Hrun. simpl in Hrun.
      rewrite Hsize in Hrun. injection Hrun as <- <-. simpl. auto. }
  rewrite (transcribir_archivo_run _ _ _ _ _ _ _ _ _ _ _ _ Hres Hsize) in Hrun.
  cbv zeta in Hrun.
  destruct ((25 * MB <? size)%N && chunk_if_needed).
  - apply transcribir_chunks_frame in Hrun as (_ & Hfr & _).
    rewrite Hfr; [apply Hframe; exact Hp | exact Hp1 | exact Hpa].
  - destruct (_call_api _ _ _ _ _ _ _ _) as [[t | e] w2] eqn:Hcall;
      injection Hrun as <- <-;
      apply call_api_frame in Hcall as [-> _]; simpl; auto.
Qed.

End Disk.

(** X9.  A call on an audio path that returns a result leaves the disk
    exactly as it found it, provided the call took the direct path or
    [create_chunks] obtained a duration: every chunk file made on the way
    has been removed and the input is untouched. *)
Theorem successful_call_restores_disk (env : Env) (self : Transcriptor.t)
    (language prompt format : string) (filepath : path) (size : N)
    (model : option string) (chunk_if_needed : bool) (w : World) r w' :
  fresh_temps w ->
  is_video filepath = false ->
  fs w !! filepath = Some size ->
  ((25 * MB <? size)%N && chunk_if_needed = false
   \/ known (ffprobe env (S (probes w)) filepath) <> None) ->
  transcribir env self (ArchivoStr filepath) language model prompt format
              chunk_if_needed w = (Ok r, w') ->
  fs w' = fs w.
Proof.
  intros Hfresh Hv Hsize Hcase Hrun.
  rewrite transcribir_str_run in Hrun by eauto.
  assert (Hres : resolve_audio env filepath w = (Ok filepath, w)).
  { unfold resolve_audio. rewrite Hv. reflexivity. }
  rewrite (transcribir_archivo_run _ _ _ _ _ _ _ _ _ _ _ _ Hres Hsize) in Hrun.
  cbv zeta in Hrun.
  destruct ((25 * MB <? size)%N && chunk_if_needed) eqn:Hbig.
  - destruct Hcase as [Hc | Hknown]; [discriminate |].
    destruct (known (ffprobe env (S (probes w)) filepath)) as [d |] eqn:Hk;
      [| contradiction].
    eapply (transcribir_chunks_restores env self language _ prompt format
              filepath _ (probed env filepath w) d r w');
      [| exact Hk | exact Hrun].
    intros n suf Hn. simpl in Hn |- *. apply Hfresh. exact Hn.
  - destruct (_call_api _ _ _ _ _ _ _ _) as [[t | e] w2] eqn:Hcall;
      [| discriminate].
    injection Hrun as _ <-.
    apply call_api_frame in Hcall as [-> _]. reflexivity.
Qed.

Lemma successful_call_restores_disk_witness :
  fs (snd (Scenario.run Scenario.env_one_drop Scenario.lecture))
  = fs Scenario.world.
Proof.
  apply (successful_call_restores_disk Scenario.env_one_drop Scenario.self
           "es" "" "json" Scenario.lecture 30000000%N None true
           Scenario.world
           (mkResult (PyStr.join (PyStr.nl +:+ PyStr.nl) ["uno"; "dos"]) "es"
                     (Some 600%Q) true "whisper-large-v3-turbo" 2)).
  - exact fresh_temps_scenario.
  - reflexivity.
  - vm_compute. reflexivity.
  - right. vm_compute. discriminate.
  - vm_compute. reflexivity.
Defined.

(** X10.  Whatever its outcome, a call on a path never creates, changes or
    deletes a file that existed before the call, other than its own input;
    and an input that is a video is never changed or deleted either. *)
Theorem call_leaves_other_files_alone (env : Env) (self : Transcriptor.t)
    (language prompt format : string) (filepath : path)
    (model : option string) (chunk_if_needed : bool) (w : World) res w'
    (p : path) :
  transcribir env self (ArchivoStr filepath) language model prompt format
              chunk_if_needed w = (res, w') ->
  old w p ->
  p <> filepath \/ is_video filepath = true ->
  fs w' !! p = fs w !! p.
Proof.
  intros Hrun Hp Hside.
  unfold transcribir, bind at 1, os.exists_ in Hrun.
  destruct (bool_decide (is_Some (fs w !! filepath))); simpl in Hrun.
  - eapply archivo_frame; eauto.
  - injection Hrun as _ <-. reflexivity.
Qed.

Lemma call_leaves_other_files_alone_witness :
  fs (snd (Scenario.run Scenario.env_no_probe Scenario.lecture))
     !! Scenario.note
  = fs Scenario.world !! Scenario.note.
Proof.
  apply (call_leaves_other_files_alone Scenario.env_no_probe Scenario.self
           "es" "" "json" Scenario.lecture None true Scenario.world
           (fst (Scenario.run Scenario.env_no_probe Scenario.lecture))).
  - vm_compute. reflexivity.
  - exact I.
  - left. discriminate.
Defined.

(** ** File-like objects *)

Lemma write_pieces_fs (tmp : path) (pieces : list (list Byte.byte)) :
  forall (w : World) (n0 : N),
    fs w !! tmp = Some n0 ->
    exists w',
      for_each pieces
        (fun _ chunk => tempfile.write tmp (N.of_nat (length chunk))) tt w
      = (Ok tt, w')
      /\ fs w'
         = <[tmp := fold_left (fun acc chunk =>
                                 (acc + N.of_nat (length chunk))%N)
                              pieces n0]> (fs w)
      /\ temps w' = temps w /\ probes w' = probes w
      /\ posts w' = posts w /\ log w' = log w.
Proof.
  induction pieces as [| c rest IH]; intros w n0 Hn0.
  - exists w. simpl. split_and!; auto.
    symmetry. apply insert_id. exact Hn0.
  - simpl. unfold bind at 1, tempfile.write at 1. rewrite Hn0. simpl.
    set (w1 := set_fs _ w).
    destruct (IH w1 (n0 + N.of_nat (length c))%N) as (w' & Hrun & Hfs & Hrest).
    { simpl. apply lookup_insert_eq. }
    exists w'. split; [exact Hrun |]. split; [| exact Hrest].
    rewrite Hfs. simpl. apply insert_insert_eq.
Qed.

Section FileObjects.
Context (env : Env) (self : Transcriptor.t).
Context (language model prompt format : string).

(** The steps of [_transcribir_fileobject] on a supported object. *)
Lemma fileobject_steps (fileobj : FileObj) (n : N) (w : World) res w' :
  fileobj_size fileobj = Some n ->
  _transcribir_fileobject env self fileobj language model prompt format w
  = (res, w') ->
  let tmp := TmpPath (temps w) ".tmp" in
  exists wb w2,
    fs wb = <[tmp := n]> (fs w)
    /\ temps wb = S (temps w) /\ probes wb = probes w /\ posts wb = posts w
    /\ log wb = (log w ++ [EvTemp tmp])%list
    /\ _transcribir_archivo env self tmp language model prompt format true wb
       = (res, w2)
    /\ fs w' = delete tmp (fs w2)
    /\ log w' = (log w2 ++ match fs w2 !! tmp with
                           | Some _ => [EvRemove tmp]
                           | None => []
                           end)%list.
Proof.
  intros Hsize Hrun tmp. unfold _transcribir_fileobject in Hrun.
  unfold bind at 1, tempfile.NamedTemporaryFile in Hrun. fold tmp in Hrun.
  unfold bind at 1 in Hrun.
  set (wa := mkWorld _ _ _ _ _ _ _) in Hrun.
  assert (Hwa : fs wa !! tmp = Some 0%N) by (simpl; apply lookup_insert_eq).
  assert (Hcopy : exists wb,
            match fo_read fileobj, fo_file fileobj with
            | Some data, _ => tempfile.write tmp (N.of_nat (length data))
            | None, Some pieces =>
                for_each pieces
                  (fun _ chunk =>
                     tempfile.write tmp (N.of_nat (length chunk))) tt
            | None, None => raise (ValueError "Tipo de archivo no soportado")
            end wa = (Ok tt, wb)
            /\ fs wb = <[tmp := n]> (fs w)
            /\ temps wb = S (temps w) /\ probes wb = probes w
            /\ posts wb = posts w
            /\ log wb = (log w ++ [EvTemp tmp])%list).
  { unfold fileobj_size in Hsize.
    destruct (fo_read fileobj) as [data |].
    - injection Hsize as <-. unfold tempfile.write. rewrite Hwa.
      eexists. split; [reflexivity |]. simpl.
      split_and!; auto. apply insert_insert_eq.
    - destruct (fo_file fileobj) as [pieces |]; [| discriminate].
      injection Hsize as <-.
      destruct (write_pieces_fs tmp pieces wa 0%N Hwa)
        as (wb & Hw & Hfs & Ht & Hp & Hpo & Hl).
      exists wb. split; [exact Hw |]. rewrite Hfs, Ht, Hp, Hpo, Hl. simpl.
      split_and!; auto. apply insert_insert_eq. }
  destruct Hcopy as (wb & Hcopy & Hfs & Ht & Hp & Hpo & Hl).
  rewrite Hcopy in Hrun. unfold try_finally in Hrun.
  destruct (_transcribir_archivo _ _ _ _ _ _ _ _ wb) as [res2 w2] eqn:Harch.
  rewrite remove_if_exists_run in Hrun.
  exists wb, w2.
  destruct (fs w2 !! tmp) eqn:Htmp; injection Hrun as <- <-; simpl;
    split_and!; auto.
  - symmetry. apply delete_id. exact Htmp.
  - symmetry. apply app_nil_r.
Qed.

End FileObjects.

(** X11.  For a file-like object that has [read] or [file], the temporary
    copy holds all its bytes while it is transcribed, is gone when the call
    ends, whatever the outcome, and no file that existed before the call
    is changed. *)
Theorem fileobject_copy_is_removed (env : Env) (self : Transcriptor.t)
    (fileobj : FileObj) (language : string) (model : option string)
    (prompt format : string) (chunk_if_needed : bool) (n : N) (w : World)
    res w' :
  fileobj_size fileobj = Some n ->
  transcribir env self (ArchivoObj fileobj) language model prompt format
              chunk_if_needed w = (res, w') ->
  let tmp := TmpPath (temps w) ".tmp" in
  (exists wb w2,
     fs wb = <[tmp := n]> (fs w)
     /\ _transcribir_archivo env self tmp language
                             (model_or_default self model) prompt format
                             true wb = (res, w2))
  /\ fs w' !! tmp = None
  /\ (forall p, old w p -> fs w' !! p = fs w !! p).
Proof.
  intros Hsize Hrun tmp. unfold transcribir in Hrun.
  destruct (fileobject_steps env self language _ prompt format fileobj n w
              res w' Hsize Hrun)
    as (wb & w2 & Hfs & Ht & _ & _ & _ & Harch & Hfs' & _).
  fold tmp in Hfs, Harch, Hfs'.
  split_and!.
  - exists wb, w2. auto.
  - rewrite Hfs'. apply lookup_delete_eq.
  - intros p Hp.
    assert (Hne : p <> tmp).
    { intros ->. simpl in Hp. lia. }
    rewrite Hfs', lookup_delete_ne by congruence.
    rewrite (archivo_frame env self language _ prompt format tmp true wb
               res w2 Harch p).
    + rewrite Hfs. apply lookup_insert_ne. congruence.
    + eapply old_mono; [| exact Hp]. lia.
    + left. exact Hne.
Qed.

Lemma fileobject_copy_is_removed_witness :
  let upload := mkFileObj (Some [Byte.x61; Byte.x62; Byte.x63]) None in
  let run := transcribir Scenario.env_ok Scenario.self (ArchivoObj upload)
                         "es" None "" "json" false Scenario.world in
  let tmp := TmpPath (temps Scenario.world) ".tmp" in
  (exists wb w2,
     fs wb = <[tmp := 3%N]> (fs Scenario.world)
     /\ _transcribir_archivo Scenario.env_ok Scenario.self tmp "es"
                             (model_or_default Scenario.self None) "" "json"
                             true wb = (fst run, w2))
  /\ fs (snd run) !! tmp = None
  /\ (forall p, old Scenario.world p ->
                fs (snd run) !! p = fs Scenario.world !! p).
Proof.
  apply (fileobject_copy_is_removed Scenario.env_ok Scenario.self
           (mkFileObj (Some [Byte.x61; Byte.x62; Byte.x63]) None)
           "es" None "" "json" false 3%N Scenario.world).
  - reflexivity.
  - vm_compute. reflexivity.
Defined.

(** X12.  An object with neither [read] nor [file] is refused with a
    [ValueError] before anything is probed, converted or uploaded; the
    empty temporary file made for it stays on disk. *)
Theorem unsupported_fileobject_leaks_copy (env : Env)
    (self : Transcriptor.t) (fileobj : FileObj) (language : string)
    (model : option string) (prompt format : string)
    (chunk_if_needed : bool) (w : World) :
  fo_read fileobj = None ->
  fo_file fileobj = None ->
  let tmp := TmpPath (temps w) ".tmp" in
  exists w',
    transcribir env self (ArchivoObj fileobj) language model prompt format
                chunk_if_needed w
    = (Raise (ValueError "Tipo de archivo no soportado"), w')
    /\ log w' = (log w ++ [EvTemp tmp])%list
    /\ fs w' !! tmp = Some 0%N.
Proof.
  intros Hread Hfile tmp. unfold transcribir, _transcribir_fileobject.
  run_step. rewrite Hread, Hfile. simpl.
  eexists. split_and!; try reflexivity. simpl. apply lookup_insert_eq.
Qed.

Lemma unsupported_fileobject_leaks_copy_witness :
  exists w',
    transcribir Scenario.env_ok Scenario.self
                (ArchivoObj (mkFileObj None None)) "es" None "" "json" true
                Scenario.world
    = (Raise (ValueError "Tipo de archivo no soportado"), w')
    /\ log w'
       = (log Scenario.world
          ++ [EvTemp (TmpPath (temps Scenario.world) ".tmp")])%list
    /\ fs w' !! TmpPath (temps Scenario.world) ".tmp" = Some 0%N.
Proof.
  apply (unsupported_fileobject_leaks_copy Scenario.env_ok Scenario.self
           (mkFileObj None None) "es" None "" "json" true Scenario.world);
    reflexivity.
Defined.

(** X13.  A file-like object of at most 25 MB is transcribed with exactly
    one upload, that of its temporary copy; no segment is cut, the copy is
    the only temporary file made and it is removed, and the result, when the
    upload succeeds, reports one chunk. *)
Theorem small_fileobject_single_upload (env : Env) (self : Transcriptor.t)
    (fileobj : FileObj) (language : string) (model : option string)
    (prompt format : string) (chunk_if_needed : bool) (n : N) (w : World)
    res w' :
  fileobj_size fileobj = Some n ->
  (n <= 25 * MB)%N ->
  transcribir env self (ArchivoObj fileobj) language model prompt format
              chunk_if_needed w = (res, w') ->
  let tmp := TmpPath (temps w) ".tmp" in
  exists evs o,
    log w' = (log w ++ evs)%list
    /\ Log.segments evs = []
    /\ Log.uploads evs
       = [(build_request self tmp language (model_or_default self model)
                         prompt format, o)]
    /\ Log.created evs = [tmp] /\ Log.removed evs = [tmp]
    /\ res = match call_result format o with
             | Ok t => Ok (mkResult t language (ffprobe env (probes w) tmp)
                                    true (model_or_default self model) 1)
             | Raise e => Raise e
             end.
Proof.
  intros Hsize Hsmall Hrun tmp. unfold transcribir in Hrun.
  destruct (fileobject_steps env self language _ prompt format fileobj n w
              res w' Hsize Hrun)
    as (wb & w2 & Hfs & Ht & Hpr & Hpo & Hlog & Harch & _ & Hlog').
  fold tmp in Hfs, Hlog, Harch, Hlog'.
  assert (Htmp : fs wb !! tmp = Some n)
    by (rewrite Hfs; apply lookup_insert_eq).
  assert (Hres : resolve_audio env tmp wb = (Ok tmp, wb)) by reflexivity.
  rewrite (transcribir_archivo_run _ _ _ _ _ _ _ _ _ _ _ _ Hres Htmp) in Harch.
  cbv zeta in Harch.
  replace (25 * MB <? n)%N with false in Harch
    by (symmetry; apply N.ltb_ge; exact Hsmall).
  simpl in Harch. rewrite call_api_run in Harch.
  change (fs (probed env tmp wb)) with (fs wb) in Harch.
  rewrite Htmp in Harch. cbv zeta in Harch.
  change (posts (probed env tmp wb)) with (posts wb) in Harch.
  set (q := build_request self tmp language _ prompt format) in *.
  set (o := groq env (posts wb) q) in *.
  exists [EvTemp tmp; EvProbe tmp (ffprobe env (probes wb) tmp); EvPost q o;
          EvRemove tmp], o.
  rewrite <- Hpr.
  destruct (call_result format o) as [t | e];
    injection Harch as <- <-; simpl in Hlog'; rewrite Htmp in Hlog';
    rewrite Hlog', Hlog, <- !app_assoc; simpl; split_and!; reflexivity.
Qed.

Lemma small_fileobject_single_upload_witness :
  let upload := mkFileObj None (Some [[Byte.x61]; [Byte.x62; Byte.x63]]) in
  let run := transcribir Scenario.env_ok Scenario.self (ArchivoObj upload)
                         "es" None "" "json" true Scenario.world in
  let tmp := TmpPath (temps Scenario.world) ".tmp" in
  exists evs o,
    log (snd run) = (log Scenario.world ++ evs)%list
    /\ Log.segments evs = []
    /\ Log.uploads evs
       = [(build_request Scenario.self tmp "es"
                         (model_or_default Scenario.self None) "" "json", o)]
    /\ Log.created evs = [tmp] /\ Log.removed evs = [tmp]
    /\ fst run
       = match call_result "json" o with
         | Ok t => Ok (mkResult t "es"
                         (ffprobe Scenario.env_ok (probes Scenario.world) tmp)
                         true (model_or_default Scenario.self None) 1)
         | Raise e => Raise e
         end.
Proof.
  apply (small_fileobject_single_upload Scenario.env_ok Scenario.self
           (mkFileObj None (Some [[Byte.x61]; [Byte.x62; Byte.x63]]))
           "es" None "" "json" true 3%N Scenario.world).
  - reflexivity.
  - vm_compute. discriminate.
  - vm_compute. reflexivity.
Defined.

(** ** Remote files *)



Lemma download_run (env : Env) (url : string) (dest : path) (w : World) :
  download env url dest w
  = match urlretrieve env (downloads w) url with
    | Some n =>
        (Ok tt,
         mkWorld (<[dest := n]> (fs w)) (temps w) (probes w) (ffmpegs w)
                 (posts w) (S (downloads w))
                 (log w ++ [EvDownload url dest (Some n)]))
    | None =>
        (Raise URLError,
         mkWorld (fs w) (temps w) (probes w) (ffmpegs w) (posts w)
                 (S (downloads w)) (log w ++ [EvDownload url dest None]))
    end.
Proof.
  unfold download. destruct (urlretrieve env (downloads w) url); reflexivity.
Qed.

(** X15.  When the download succeeds, [transcribir_url] is a call of
    [transcribir] on the downloaded copy, in JSON format and with chunking
    allowed; the copy is gone when the call ends, whatever the outcome, and
    no file that existed before is changed. *)
Theorem downloaded_copy_is_removed (env : Env) (self : Transcriptor.t)
    (url language : string) (model : option string) (prompt : string)
    (n : N) (w : World) res w' :
  urlretrieve env (downloads w) url = Some n ->
  transcribir_url env self url language model prompt w = (res, w') ->
  let tmp := TmpPath (temps w) ".tmp" in
  (exists wb w2,
     fs wb = <[tmp := n]> (fs w)
     /\ transcribir env self (ArchivoStr tmp) language model prompt "json"
                    true wb = (res, w2))
  /\ fs w' !! tmp = None
  /\ (forall p, old w p -> fs w' !! p = fs w !! p).
Proof.
  intros Hdl Hrun tmp. unfold transcribir_url in Hrun.
  unfold bind at 1, tempfile.NamedTemporaryFile in Hrun. fold tmp in Hrun.
  unfold bind at 1 in Hrun. rewrite download_run in Hrun.
  simpl downloads in Hrun. rewrite Hdl in Hrun.
  set (wb := mkWorld _ _ _ _ _ _ _) in Hrun.
  assert (Hfs : fs wb = <[tmp := n]> (fs w)) by apply insert_insert_eq.
  unfold try_finally in Hrun.
  destruct (transcribir env self (ArchivoStr tmp) language model prompt
                        "json" true wb) as [res2 w2] eqn:Hcall.
  rewrite remove_if_exists_run in Hrun.
  assert (Hdel : res = res2 /\ fs w' = delete tmp (fs w2)).
  { destruct (fs w2 !! tmp) eqn:Htmp; injection Hrun as <- <-; simpl;
      split; auto.
    symmetry. apply delete_id. exact Htmp. }
  destruct Hdel as [-> Hfs'].
  split_and!.
  - exists wb, w2. auto.
  - rewrite Hfs'. apply lookup_delete_eq.
  - intros p Hp.
    assert (Hne : p <> tmp) by (intros ->; simpl in Hp; lia).
    rewrite Hfs', lookup_delete_ne by congruence.
    assert (Hwb : fs wb !! p = fs w !! p)
      by (rewrite Hfs; apply lookup_insert_ne; congruence).
    rewrite <- Hwb.
    unfold transcribir, bind at 1, os.exists_ in Hcall.
    destruct (bool_decide (is_Some (fs wb !! tmp))); simpl in Hcall.
    + eapply archivo_frame; [exact Hcall | | left; exact Hne].
      eapply old_mono; [| exact Hp]. simpl. lia.
    + injection Hcall as _ <-. reflexivity.
Qed.

Lemma downloaded_copy_is_removed_witness :
  let run := transcribir_url Scenario.env_ok Scenario.self "https://x/a.mp3"
                             "es" None "" Scenario.world in
  let tmp := TmpPath (temps Scenario.world) ".tmp" in
  (exists wb w2,
     fs wb = <[tmp := 30000000%N]> (fs Scenario.world)
     /\ transcribir Scenario.env_ok Scenario.self (ArchivoStr tmp) "es" None
                    "" "json" true wb = (fst run, w2))
  /\ fs (snd run) !! tmp = None
  /\ (forall p, old Scenario.world p ->
                fs (snd run) !! p = fs Scenario.world !! p).
Proof.
  apply (downloaded_copy_is_removed Scenario.env_ok Scenario.self
           "https://x/a.mp3" "es" None "" 30000000%N Scenario.world).
  - reflexivity.
  - vm_compute. reflexivity.
Defined.

(** ** What a result says *)




(** ** The command line *)

(** The run of [transcribir] on a large audio file whose duration cannot
    be probed, when the upload succeeds. *)
Lemma unknown_duration_run (env : Env) (self : Transcriptor.t)
    (lang : string) (mdl : option string) (prompt format : string)
    (filepath : path) (size : N) (w : World) (t : string) :
  is_video filepath = false ->
  fs w !! filepath = Some size ->
  (25 * MB < size)%N ->
  (forall n, known (ffprobe env n filepath) = None) ->
  let q := build_request self filepath lang (model_or_default self mdl)
                         prompt format in
  call_result format (groq env (posts w) q) = Ok t ->
  transcribir env self (ArchivoStr filepath) lang mdl prompt format true w
  = (Ok (mkResult t lang (ffprobe env (probes w) filepath) true
                  (model_or_default self mdl) 1),
     mkWorld (delete filepath (fs w)) (temps w) (S (S (probes w)))
             (ffmpegs w) (S (posts w)) (downloads w)
             (log w ++ [EvProbe filepath (ffprobe env (probes w) filepath);
                        EvProbe filepath
                                (ffprobe env (S (probes w)) filepath);
                        EvPost q (groq env (posts w) q);
                        EvRemove filepath])).
Proof.
  intros Hv Hsize Hbig Hunknown q Hcall.
  rewrite transcribir_str_run by eauto.
  assert (Hres : resolve_audio env filepath w = (Ok filepath, w)).
  { unfold resolve_audio. rewrite Hv. reflexivity. }
  rewrite (transcribir_archivo_run _ _ _ _ _ _ _ _ _ _ _ _ Hres Hsize).
  cbv zeta.
  replace (25 * MB <? size)%N with true
    by (symmetry; apply N.ltb_lt; exact Hbig).
  simpl andb. cbv iota.
  rewrite transcribir_chunks_unknown by apply Hunknown.
  rewrite transcribe_chunk_run.
  change (fs (probed env filepath (probed env filepath w))) with (fs w).
  rewrite Hsize. cbv zeta.
  change (posts (probed env filepath (probed env filepath w)))
    with (posts w).
  fold q. rewrite Hcall. simpl. rewrite <- !app_assoc. reflexivity.
Qed.

(** The run of [transcribir] on a small audio file, when the upload
    succeeds. *)
Lemma small_file_run (env : Env) (self : Transcriptor.t)
    (lang : string) (mdl : option string) (prompt format : string)
    (chunk_if_needed : bool) (filepath : path) (size : N) (w : World)
    (t : string) :
  is_video filepath = false ->
  fs w !! filepath = Some size ->
  (size <= 25 * MB)%N ->
  let q := build_request self filepath lang (model_or_default self mdl)
                         prompt format in
  call_result format (groq env (posts w) q) = Ok t ->
  transcribir env self (ArchivoStr filepath) lang mdl prompt format
              chunk_if_needed w
  = (Ok (mkResult t lang (ffprobe env (probes w) filepath) true
                  (model_or_default self mdl) 1),
     mkWorld (fs w) (temps w) (S (probes w)) (ffmpegs w) (S (posts w))
             (downloads w)
             (log w ++ [EvProbe filepath (ffprobe env (probes w) filepath);
                        EvPost q (groq env (posts w) q)])).
Proof.
  intros Hv Hsize Hsmall q Hcall.
  rewrite transcribir_str_run by eauto.
  assert (Hres : resolve_audio env filepath w = (Ok filepath, w)).
  { unfold resolve_audio. rewrite Hv. reflexivity. }
  rewrite (transcribir_archivo_run _ _ _ _ _ _ _ _ _ _ _ _ Hres Hsize).
  cbv zeta.
  replace (25 * MB <? size)%N with false
    by (symmetry; apply N.ltb_ge; exact Hsmall).
  simpl andb. cbv iota. rewrite call_api_run.
  change (fs (probed env filepath w)) with (fs w). rewrite Hsize. cbv zeta.
  change (posts (probed env filepath w)) with (posts w).
  fold q. rewrite Hcall. simpl. rewrite <- !app_assoc. reflexivity.
Qed.

(** X17.  The transcribe command on a large audio file whose duration
    cannot be probed: the engine uploads the file, obtains its text and
    deletes the file, and the command then fails with [FileNotFoundError]
    when it asks for the size of the file, so the text is never printed. *)
Theorem cli_loses_result_after_input_is_deleted (env : Env)
    (config : Cli.Config) (size : N) (t : string) (w : World) :
  let file_path := UserPath (Cli.cfg_file_path config) in
  let trans := mkTranscriptor (Cli.cfg_api_key config)
                 (default "whisper-large-v3-turbo" (Cli.cfg_model config)) in
  let q := build_request trans file_path
             (default "es" (Cli.cfg_language config)) (default_model trans)
             (default "" (Cli.cfg_prompt config)) "json" in
  Cli.cfg_api_key config <> "" ->
  is_video file_path = false ->
  fs w !! file_path = Some size ->
  (25 * MB < size)%N ->
  (forall n, known (ffprobe env n file_path) = None) ->
  call_result "json" (groq env (posts w) q) = Ok t ->
  exists msg w',
    Cli.transcribe_command env config w = (Raise (FileNotFoundError msg), w')
    /\ Log.uploads (log w')
       = (Log.uploads (log w) ++ [(q, groq env (posts w) q)])%list
    /\ fs w' !! file_path = None.
Proof.
  intros file_path trans q Hkey Hv Hsize Hbig Hunknown Hcall.
  unfold Cli.transcribe_command. fold file_path.
  unfold bind at 1, os.exists_.
  rewrite bool_decide_eq_true_2 by eauto.
  change (negb true) with false. cbv iota.
  unfold init. apply String.eqb_neq in Hkey. rewrite Hkey. fold trans.
  unfold bind at 1.
  rewrite (unknown_duration_run env trans _ None _ "json" file_path size w t
             Hv Hsize Hbig Hunknown Hcall).
  unfold bind at 1, os.getsize. simpl. rewrite lookup_delete_eq.
  eexists _, _. split; [reflexivity |]. simpl. split.
  - rewrite uploads_app. reflexivity.
  - apply lookup_delete_eq.
Qed.

Lemma cli_loses_result_after_input_is_deleted_witness :
  let config := Cli.mkConfig "/data/lecture.mp3" "gsk_test" None None None in
  let q := build_request Scenario.self Scenario.lecture "es"
                         "whisper-large-v3-turbo" "" "json" in
  exists msg w',
    Cli.transcribe_command Scenario.env_no_probe config Scenario.world
    = (Raise (FileNotFoundError msg), w')
    /\ Log.uploads (log w')
       = (Log.uploads (log Scenario.world)
          ++ [(q, groq Scenario.env_no_probe (posts Scenario.world) q)])%list
    /\ fs w' !! Scenario.lecture = None.
Proof.
  apply (cli_loses_result_after_input_is_deleted Scenario.env_no_probe
           (Cli.mkConfig "/data/lecture.mp3" "gsk_test" None None None)
           30000000%N "uno" Scenario.world).
  - discriminate.
  - reflexivity.
  - vm_compute. reflexivity.
  - vm_compute. reflexivity.
  - intros n. reflexivity.
  - vm_compute. reflexivity.
Defined.

(** X18.  The transcribe command on an audio file of at most 25 MB, with a
    non-empty API key and a successful upload, prints a one-chunk result
    together with the base name of the file and its size in megabytes,
    which is at most 25; the disk is left as it was. *)
Theorem cli_small_file_output (env : Env) (config : Cli.Config) (size : N)
    (t : string) (w : World) :
  let file_path := UserPath (Cli.cfg_file_path config) in
  let trans := mkTranscriptor (Cli.cfg_api_key config)
                 (default "whisper-large-v3-turbo" (Cli.cfg_model config)) in
  let q := build_request trans file_path
             (default "es" (Cli.cfg_language config)) (default_model trans)
             (default "" (Cli.cfg_prompt config)) "json" in
  Cli.cfg_api_key config <> "" ->
  is_video file_path = false ->
  fs w !! file_path = Some size ->
  (size <= 25 * MB)%N ->
  call_result "json" (groq env (posts w) q) = Ok t ->
  exists out w',
    Cli.transcribe_command env config w = (Ok out, w')
    /\ Cli.resultado out
       = mkResult t (default "es" (Cli.cfg_language config))
                  (ffprobe env (probes w) file_path) true
                  (default "whisper-large-v3-turbo" (Cli.cfg_model config)) 1
    /\ Cli.file_name out = PurePath.basename (Cli.cfg_file_path config)
    /\ (Cli.file_size_mb out == inject_Z (Z.of_N size) / 1048576)%Q
    /\ (Cli.file_size_mb out <= 25)%Q
    /\ fs w' = fs w.
Proof.
  intros file_path trans q Hkey Hv Hsize Hsmall Hcall.
  unfold Cli.transcribe_command. fold file_path.
  unfold bind at 1, os.exists_.
  rewrite bool_decide_eq_true_2 by eauto.
  change (negb true) with false. cbv iota.
  unfold init. apply String.eqb_neq in Hkey. rewrite Hkey. fold trans.
  unfold bind at 1.
  rewrite (small_file_run env trans _ None _ "json" true file_path size w t
             Hv Hsize Hsmall Hcall).
  unfold bind at 1, os.getsize. simpl fs. rewrite Hsize.
  eexists _, _. split; [reflexivity |]. simpl.
  split_and!; try reflexivity.
  apply Qle_shift_div_r; [reflexivity |].
  change (25 * (1024 * 1024))%Q with (inject_Z 26214400).
  rewrite <- Zle_Qle. unfold MB in Hsmall. lia.
Qed.

Lemma cli_small_file_output_witness :
  let config := Cli.mkConfig "/data/note.mp3" "gsk_test" (Some "en") None
                             None in
  exists out w',
    Cli.transcribe_command Scenario.env_ok config Scenario.world
    = (Ok out, w')
    /\ Cli.resultado out
       = mkResult "uno" (default "es" (Cli.cfg_language config))
                  (ffprobe Scenario.env_ok (probes Scenario.world)
                           Scenario.note)
                  true
                  (default "whisper-large-v3-turbo" (Cli.cfg_model config)) 1
    /\ Cli.file_name out = PurePath.basename (Cli.cfg_file_path config)
    /\ (Cli.file_size_mb out == inject_Z (Z.of_N 10485760) / 1048576)%Q
    /\ (Cli.file_size_mb out <= 25)%Q
    /\ fs w' = fs Scenario.world.
Proof.
  apply (cli_small_file_output Scenario.env_ok
           (Cli.mkConfig "/data/note.mp3" "gsk_test" (Some "en") None None)
           10485760%N "uno" Scenario.world).
  - discriminate.
  - reflexivity.
  - vm_compute. reflexivity.
  - vm_compute. discriminate.
  - vm_compute. reflexivity.
Defined.

(** ** Timestamps of the verbose format *)

Lemma Qfloor_unique (q : Q) (z : Z) :
  (inject_Z z <= q)%Q -> (q < inject_Z (z + 1))%Q -> Qfloor q = z.
Proof.
  intros Hlo Hhi.
  assert (H1 : (z <= Qfloor q)%Z).
  { rewrite <- (Qfloor_Z z). apply Qfloor_resp_le. exact Hlo. }
  assert (H2 : (Qfloor q < z + 1)%Z).
  { rewrite Zlt_Qlt. eapply Qle_lt_trans; [apply Qfloor_le | exact Hhi]. }
  lia.
Qed.

Lemma fmt_02d_two_digits (n : Z) :
  (0 <= n < 100)%Z -> String.length (fmt_02d n) = 2%nat.
Proof.
  intros Hn. rewrite <- (Z2Nat.id n) by lia.
  assert (Hm : (Z.to_nat n < 100)%nat) by lia.
  generalize dependent (Z.to_nat n). clear n Hn. intros m Hm.
  do 100 (destruct m as [| m]; [reflexivity |]). lia.
Qed.

(** X19.  For a time stamp that is not negative, the minutes and seconds
    printed split its whole seconds: the seconds field lies between 0 and
    59 and is printed with exactly two digits, the minutes are not
    negative, and 60 * minutes + seconds is the time rounded down to a
    whole second. *)
Theorem timestamp_splits_whole_seconds (x : Q) :
  (0 <= x)%Q ->
  (0 <= seconds x < 60)%Z
  /\ (60 * minutes x + seconds x = Qfloor x)%Z
  /\ String.length (fmt_02d (seconds x)) = 2%nat
  /\ (0 <= minutes x)%Z.
Proof.
  intros Hx0. unfold minutes, seconds. set (k := Qfloor (x / 60)).
  assert (Hx : (x / 60 * 60 == x)%Q).
  { rewrite Qmult_comm. apply Qmult_div_r. discriminate. }
  assert (Hlo : (inject_Z k * 60 <= x)%Q).
  { rewrite <- Hx. apply Qmult_le_compat_r; [apply Qfloor_le | discriminate]. }
  assert (Hhi : (x < (inject_Z k + 1) * 60)%Q).
  { rewrite <- Hx.
    apply Qmult_lt_compat_r; [reflexivity |].
    pose proof (Qlt_floor (x / 60)) as H. rewrite inject_Z_plus in H.
    exact H. }
  set (y := (x - 60 * inject_Z k)%Q).
  assert (Hy0 : (0 <= y)%Q) by (unfold y; lra).
  assert (Hy60 : (y < 60)%Q) by (unfold y; lra).
  assert (Hs0 : (0 <= Qfloor y)%Z).
  { change 0%Z with (Qfloor 0). apply Qfloor_resp_le. exact Hy0. }
  assert (Hs60 : (Qfloor y < 60)%Z).
  { rewrite Zlt_Qlt. eapply Qle_lt_trans; [apply Qfloor_le | exact Hy60]. }
  split_and!.
  - exact Hs0.
  - exact Hs60.
  - symmetry. apply Qfloor_unique.
    + rewrite inject_Z_plus, inject_Z_mult.
      pose proof (Qfloor_le y) as Hf.
      set (f := inject_Z (Qfloor y)) in *. unfold y in Hf.
      change (inject_Z 60) with 60%Q. lra.
    + rewrite !inject_Z_plus, inject_Z_mult.
      pose proof (Qlt_floor y) as Hf. rewrite inject_Z_plus in Hf.
      set (f := inject_Z (Qfloor y)) in *. unfold y in Hf.
      change (inject_Z 60) with 60%Q. change (inject_Z 1) with 1%Q in *.
      lra.
  - apply fmt_02d_two_digits. lia.
  - change 0%Z with (Qfloor 0). apply Qfloor_resp_le.
    apply Qle_shift_div_l; [reflexivity | lra].
Qed.

Lemma timestamp_splits_whole_seconds_witness :
  (0 <= seconds (1257 # 10) < 60)%Z
  /\ (60 * minutes (1257 # 10) + seconds (1257 # 10)
      = Qfloor (1257 # 10))%Z
  /\ String.length (fmt_02d (seconds (1257 # 10))) = 2%nat
  /\ (0 <= minutes (1257 # 10))%Z.
Proof.
  apply (timestamp_splits_whole_seconds (1257 # 10)).
  unfold Qle. simpl. lia.
Defined.

(** ** Chunking switched off, and what a failed upload leaves behind *)

(** X20.  With [chunk_if_needed] false the size of the audio plays no part:
    the whole audio file is uploaded exactly once, there is one probe and
    no segment command, and what the call returns is decided by that one
    upload. *)
Theorem chunking_disabled_single_upload (env : Env) (self : Transcriptor.t)
    (lang prompt format : string) (filepath audio : path) (size : N)
    (mdl : option string) (w w1 : World) res w' :
  is_Some (fs w !! filepath) ->
  resolve_audio env filepath w = (Ok audio, w1) ->
  fs w1 !! audio = Some size ->
  transcribir env self (ArchivoStr filepath) lang mdl prompt format false w
  = (res, w') ->
  exists evs o,
    log w' = (log w ++ evs)%list
    /\ probes w' = S (probes w)
    /\ Log.segments evs = []
    /\ Log.uploads evs
       = [(build_request self audio lang (model_or_default self mdl) prompt
                         format, o)]
    /\ res = match call_result format o with
             | Ok t => Ok (mkResult t lang (ffprobe env (probes w) audio)
                                    true (model_or_default self mdl) 1)
             | Raise e => Raise e
             end.
Proof.
  intros Hex Hres Hsize Hrun.
  rewrite transcribir_str_run in Hrun by exact Hex.
  rewrite (transcribir_archivo_run _ _ _ _ _ _ _ _ _ _ _ _ Hres Hsize) in Hrun.
  cbv zeta in Hrun. rewrite andb_false_r in Hrun.
  rewrite call_api_run in Hrun.
  change (fs (probed env audio w1)) with (fs w1) in Hrun.
  rewrite Hsize in Hrun. cbv zeta in Hrun.
  apply resolve_audio_log in Hres
    as (evs0 & Hlog0 & Hup0 & Hseg0 & _ & _ & Hpr & Hpo & _).
  set (q := build_request self audio lang _ prompt format) in *.
  set (o := groq env _ q) in *.
  exists (evs0 ++ [EvProbe audio (ffprobe env (probes w1) audio);
                   EvPost q o])%list, o.
  rewrite uploads_app, segments_app, Hup0, Hseg0, <- Hpr. simpl.
  destruct (call_result format o) as [t | e] eqn:Hcall;
    injection Hrun as <- <-; simpl; rewrite Hlog0, <- !app_assoc, Hpr;
    split_and!; reflexivity.
Qed.

Lemma chunking_disabled_single_upload_witness :
  let run := transcribir Scenario.env_ok Scenario.self
                         (ArchivoStr Scenario.lecture) "es" None "" "json"
                         false Scenario.world in
  exists evs o,
    log (snd run) = (log Scenario.world ++ evs)%list
    /\ probes (snd run) = S (probes Scenario.world)
    /\ Log.segments evs = []
    /\ Log.uploads evs
       = [(build_request Scenario.self Scenario.lecture "es"
                         (model_or_default Scenario.self None) "" "json", o)]
    /\ fst run
       = match call_result "json" o with
         | Ok t => Ok (mkResult t "es"
                         (ffprobe Scenario.env_ok (probes Scenario.world)
                                  Scenario.lecture)
                         true (model_or_default Scenario.self None) 1)
         | Raise e => Raise e
         end.
Proof.
  apply (chunking_disabled_single_upload Scenario.env_ok Scenario.self
           "es" "" "json" Scenario.lecture Scenario.lecture 30000000%N None
           Scenario.world Scenario.world).
  - vm_compute. eauto.
  - reflexivity.
  - vm_compute. reflexivity.
  - vm_compute. reflexivity.
Defined.

(** When the transcription loop raises, the chunks split into those already
    transcribed, whose files are gone, and the rest, whose files are as
    they were. *)
Lemma transcribe_loop_failure (env : Env) (self : Transcriptor.t)
    (lang mdl prompt format : string) (cs : list path) :
  NoDup cs ->
  forall (texts : list string) (w : World) e w',
    for_each cs (transcribe_chunk env self lang mdl prompt format) texts w
    = (Raise e, w') ->
    exists done rest,
      cs = (done ++ rest)%list /\ rest <> []
      /\ (forall p, p ∈ done -> fs w' !! p = None)
      /\ (forall p, p ∈ rest -> fs w' !! p = fs w !! p).
Proof.
  induction cs as [| c cs IH]; intros Hnd texts w e w' Hrun.
  - discriminate Hrun.
  - apply NoDup_cons in Hnd as [Hc Hnd].
    simpl in Hrun. unfold bind at 1 in Hrun.
    rewrite transcribe_chunk_run in Hrun.
    destruct (fs w !! c) as [sz |] eqn:Hfc.
    + cbv zeta in Hrun.
      destruct (call_result format _) as [t | e0] eqn:Hcall.
      * pose proof (transcribe_loop_fs env self lang mdl prompt format cs
                      _ _ _ _ Hrun) as (_ & Hframe & _).
        destruct (IH Hnd _ _ _ _ Hrun)
          as (done & rest & -> & Hrest & Hgone & Hkept).
        exists (c :: done), rest. simpl in *. split_and!; auto.
        -- intros p Hp. apply elem_of_cons in Hp as [-> | Hp]; [| auto].
           rewrite Hframe by exact Hc. apply lookup_delete_eq.
        -- intros p Hp. rewrite Hkept by exact Hp.
           apply lookup_delete_ne. intros ->. apply Hc.
           apply elem_of_app. right. exact Hp.
      * injection Hrun as _ <-. exists [], (c :: cs). simpl.
        split_and!; auto. intros p Hp. inversion Hp.
    + injection Hrun as _ <-. exists [], (c :: cs). simpl.
      split_and!; auto. intros p Hp. inversion Hp.
Qed.

(** X21.  When the chunked path, with a known duration, fails at an upload,
    the segment files already transcribed have been removed, and the
    segment file whose upload failed and all later ones are still on disk:
    nothing removes them. *)
Theorem failed_upload_leaves_later_chunks (env : Env)
    (self : Transcriptor.t) (lang mdl prompt format : string)
    (audio : path) (dur : option Q) (d : Q) (w : World) e w' :
  fresh_temps w ->
  known (ffprobe env (probes w) audio) = Some d ->
  (forall n c, ffmpeg env n c <> ProcMissing) ->
  _transcribir_chunks env self audio dur lang mdl prompt format w
  = (Raise e, w') ->
  exists evs done rest,
    log w' = (log w ++ evs)%list
    /\ Log.materialized evs = (done ++ rest)%list
    /\ rest <> []
    /\ (forall p, p ∈ done -> fs w' !! p = None)
    /\ (forall p, p ∈ rest -> is_Some (fs w' !! p) /\ fs w !! p = None).
Proof.
  intros Hfresh Hk Hff Hrun.
  pose proof (transcribir_chunks_log env self lang mdl prompt format audio
                dur w _ _ Hrun) as (evs & Hlog & _ & _).
  unfold _transcribir_chunks in Hrun. unfold bind at 1 in Hrun.
  destruct (create_chunks env audio (4 * 60) 15 w) as [[cs | e1] w1] eqn:Hcc.
  - destruct (create_chunks_fs env audio (4 * 60) 15 w d cs w1 Hfresh Hk Hcc)
      as (evs1 & Hlog1 & Hcs & _ & _ & _ & _ & Hnd & Hmat & _ & _).
    unfold bind at 1 in Hrun.
    destruct (for_each cs _ [] w1) as [[texts | e2] w2] eqn:Hup;
      [discriminate |].
    injection Hrun as _ <-.
    pose proof (transcribe_loop_log env self lang mdl prompt format cs
                  _ _ _ _ Hup) as (evs2 & Hlog2 & _ & Hm2 & _).
    destruct (transcribe_loop_failure env self lang mdl prompt format cs
                Hnd _ _ _ _ Hup) as (done & rest & Hsplit & Hrest & Hgone & Hkept).
    exists (EvProbe audio (ffprobe env (probes w) audio) :: evs1 ++ evs2)%list,
           done, rest.
    split_and!; auto.
    + rewrite Hlog2, Hlog1, <- app_assoc. reflexivity.
    + simpl. rewrite materialized_app, Hm2, app_nil_r, <- Hcs. exact Hsplit.
    + intros p Hp.
      assert (Hin : p ∈ cs) by (rewrite Hsplit; apply elem_of_app; auto).
      destruct (Hmat _ Hin) as [Hs Hn]. rewrite Hkept by exact Hp.
      split; [exact Hs |]. apply fresh_temps_not_old; assumption.
  - exfalso. unfold create_chunks, get_duration in Hcc.
    unfold bind at 1, subprocess.run_ffprobe in Hcc. rewrite Hk in Hcc.
    change (4 * 60 - 15 =? 0)%Z with false in Hcc. cbv iota in Hcc.
    match type of Hcc with
    | for_each ?l ?f [] ?w0 = _ =>
        destruct (create_loop_files env audio d (4 * 60) 15 l Hff [] w0)
          as (new & w3 & Hok & _)
    end.
    rewrite Hok in Hcc. discriminate Hcc.
Qed.

Lemma failed_upload_leaves_later_chunks_witness :
  let run := _transcribir_chunks Scenario.env_429 Scenario.self
               Scenario.lecture (Some 600%Q) "es" "whisper-large-v3-turbo"
               "" "json" Scenario.world in
  exists evs done rest,
    log (snd run) = (log Scenario.world ++ evs)%list
    /\ Log.materialized evs = (done ++ rest)%list
    /\ rest <> []
    /\ (forall p, p ∈ done -> fs (snd run) !! p = None)
    /\ (forall p, p ∈ rest ->
                  is_Some (fs (snd run) !! p)
                  /\ fs Scenario.world !! p = None).
Proof.
  apply (failed_upload_leaves_later_chunks Scenario.env_429 Scenario.self
           "es" "whisper-large-v3-turbo" "" "json" Scenario.lecture
           (Some 600%Q) 600 Scenario.world
           (Exception "Error de API Groq: 429 - rate limit exceeded")).
  - exact fresh_temps_scenario.
  - reflexivity.
  - intros n c. discriminate.
  - vm_compute. reflexivity.
Defined.
